(** * wshacker: DNS hijack proxy and WebSocket relay

    A shallow embedding of the Go sources [server.go] and [handler.go]:
    the hostname match table, the DNS query ledger (a [container/heap]
    over a slice with a side index), the DNS packet decoder and hijack
    response builder, the reverse-proxy header filter and the ping/pong
    forwarding handler of the relay. *)

From Stdlib Require Import ZArith Lia List Permutation Sorted Ascii String.
From Stdlib.Strings Require Import Byte.
From Stdlib Require DecimalString.
From stdpp Require Import gmap strings list fin_maps.

Open Scope Z_scope.

(** ** Go strings

    A Go [string] is a sequence of bytes; [String.string] over [ascii]
    is the same thing.  [len], indexing and slicing are by byte. *)

Module GoString.

Definition len (s : string) : Z := Z.of_nat (String.length s).

(** [s[i]] for an index in range. *)
Definition at_ (s : string) (i : Z) : option ascii :=
  if (0 <=? i) then String.get (Z.to_nat i) s else None.

(** [s[lo:hi]] for [0 <= lo <= hi <= len(s)]. *)
Definition slice (s : string) (lo hi : Z) : string :=
  String.substring (Z.to_nat lo) (Z.to_nat (hi - lo)) s.

(** [strings.Split(s, sep)] for a one-byte separator: the substrings
    between the separators, so one more than there are separators;
    the empty string gives one empty substring. *)
Fixpoint Split (sep : ascii) (s : string) : list string :=
  match s with
  | EmptyString => [EmptyString]
  | String c r =>
      if Ascii.eqb c sep then EmptyString :: Split sep r
      else match Split sep r with
           | h :: t => String c h :: t
           | [] => [String c EmptyString]
           end
  end.

(** [strings.Join(ss, sep)]. *)
Fixpoint Join (sep : ascii) (ss : list string) : string :=
  match ss with
  | [] => EmptyString
  | [a] => a
  | a :: rest => a +:+ String sep (Join sep rest)
  end.

End GoString.

(** ** Hostname match table ([server.go]) *)

(** The two lookup tables of [wsServer]; both are [map[string]int]. *)
Record wsServer := {
  reversePrefix : gmap string Z;
  reverseUrlMap : gmap string Z
}.

Definition newServer : wsServer :=
  {| reversePrefix := ∅; reverseUrlMap := ∅ |}.

(** One iteration of the scanner loop of [parseDNS]. *)
Definition parseLine (s : wsServer) (dns : string) : wsServer :=
  if 2 <? GoString.len dns then
    if String.eqb (GoString.slice dns 0 2) "*." then
      {| reversePrefix :=
           <[GoString.slice dns 2 (GoString.len dns) := 1]> (reversePrefix s);
         reverseUrlMap := reverseUrlMap s |}
    else
      {| reversePrefix := reversePrefix s;
         reverseUrlMap := <[dns := 1]> (reverseUrlMap s) |}
  else s.

(** [parseDNS] over the lines the scanner yields. *)
Definition parseDNS (lines : list string) (s : wsServer) : wsServer :=
  fold_left parseLine lines s.

(** The condition [len(host) > 0 && host[len(host)-1] == '.']. *)
Definition hasTrailingDot (host : string) : bool :=
  (0 <? GoString.len host)
  && bool_decide (GoString.at_ host (GoString.len host - 1) = Some "."%char).

(** The first statement of [isReverse]: drop one trailing dot. *)
Definition stripDot (host : string) : string :=
  if hasTrailingDot host
  then GoString.slice host 0 (GoString.len host - 1) else host.

(** The loop [for len(ss) > 1 { ... ss = ss[1:] }] of [isReverse]. *)
Fixpoint suffixLoop (prefixes : gmap string Z) (ss : list string) : bool :=
  match ss with
  | _ :: ((_ :: _) as rest) =>
      if bool_decide (is_Some (prefixes !! GoString.Join "." ss)) then true
      else suffixLoop prefixes rest
  | _ => false
  end.

Definition isReverse (s : wsServer) (host : string) : bool :=
  let host := stripDot host in
  if bool_decide (is_Some (reverseUrlMap s !! host)) then true
  else suffixLoop (reversePrefix s) (GoString.Split "." host).

(** ** Outcomes of a Go call

    A call returns, or the goroutine panics (an index or slice bound out
    of range, a second [close] of a channel); an unrecovered panic ends
    the process.  [OutOfFuel] is the model's own: a loop given too few
    iterations. *)

Inductive fault := Panic | OutOfFuel.

(** ** WebSocket relay: the ping/pong handler ([serveWebSocket], [pf]) *)

Module Relay.

(** What [pf] can tell apart in the error of [WriteControl]:
    [websocket.ErrCloseSent], a value that implements [net.Error] (with
    what its [Temporary] method answers), and every other error. *)
Inductive error :=
| ErrCloseSent
| NetError (temporary : bool) (text : string)
| OtherError (text : string).

(** A [chan struct{}] nothing is ever sent on: it is open or closed. *)
Inductive chan := Open | Closed.

(** [close(ch)]; closing a closed channel panics. *)
Definition close (ch : chan) : result chan fault :=
  match ch with
  | Open => Ok Closed
  | Closed => Error Panic
  end.

(** The arguments of [b.WriteControl(msg, []byte(message), deadline)]. *)
Record controlWrite := {
  cw_messageType : Z;
  cw_data : string;
  cw_deadline : Z
}.

Definition PingMessage : Z := 9.
Definition PongMessage : Z := 10.
Definition Second : Z := 1000000000.

(** The handler [pf(a, b, tag, ch, msg)] returns, run on one control
    frame with payload [message] at time [now]; [WriteControl] is the
    far connection's answer to the write.  The result is the error the
    handler returns ([None] for [nil]) and the state of [ch]. *)
Definition pf (WriteControl : controlWrite -> option error) (msg : Z)
    (message : string) (now : Z) (ch : chan) : result (option error * chan) fault :=
  let err := WriteControl {| cw_messageType := msg; cw_data := message;
                             cw_deadline := now + Second |} in
  match err with
  | Some ErrCloseSent => Ok (None, ch)
  | Some (NetError true _) => Ok (None, ch)
  | Some e =>
      match close ch with
      | Ok ch' => Ok (Some e, ch')
      | Error f => Error f
      end
  | None => Ok (None, ch)
  end.

(** The errors the handler swallows. *)
Definition swallowed (e : error) : bool :=
  match e with
  | ErrCloseSent => true
  | NetError temporary _ => temporary
  | OtherError _ => false
  end.

End Relay.

(** ** Reverse proxy: response headers ([copyResponseHeader], [ServeHTTP]) *)

Module Proxy.

(** [net/textproto]: the bytes of an HTTP token. *)
Definition validHeaderFieldByte (c : ascii) : bool :=
  let n := Z.of_N (N_of_ascii c) in
  ((48 <=? n) && (n <=? 57)) || ((65 <=? n) && (n <=? 90))
  || ((97 <=? n) && (n <=? 122))
  || bool_decide (In c ["!"; "#"; "$"; "%"; "&"; "'"; "*"; "+"; "-"; ".";
                        "^"; "_"; "`"; "|"; "~"]%char).

Definition toUpper (c : ascii) : ascii :=
  let n := N_of_ascii c in
  if ((97 <=? n) && (n <=? 122))%N then ascii_of_N (n - 32) else c.

Definition toLower (c : ascii) : ascii :=
  let n := N_of_ascii c in
  if ((65 <=? n) && (n <=? 90))%N then ascii_of_N (n + 32) else c.

(** Upper case for the first letter and after each dash, lower case
    elsewhere. *)
Fixpoint capitalize (upper : bool) (s : string) : string :=
  match s with
  | EmptyString => EmptyString
  | String c r =>
      let c' := if upper then toUpper c else toLower c in
      String c' (capitalize (Ascii.eqb c' "-") r)
  end.

Fixpoint allBytes (f : ascii -> bool) (s : string) : bool :=
  match s with
  | EmptyString => true
  | String c r => f c && allBytes f r
  end.

(** [textproto.CanonicalMIMEHeaderKey]: a key with a byte that is no
    token byte is returned as it is. *)
Definition CanonicalMIMEHeaderKey (s : string) : string :=
  if allBytes validHeaderFieldByte s then capitalize true s else s.

(** [http.Header] is [map[string][]string]. *)
Definition Header_Add (key value : string) (h : gmap string (list string))
  : gmap string (list string) :=
  let k := CanonicalMIMEHeaderKey key in
  <[k := default [] (h !! k) ++ [value]]> h.

Definition Header_Set (key value : string) (h : gmap string (list string))
  : gmap string (list string) :=
  <[CanonicalMIMEHeaderKey key := [value]]> h.

Definition Header_Del (key : string) (h : gmap string (list string))
  : gmap string (list string) :=
  delete (CanonicalMIMEHeaderKey key) h.

Definition Header_Get (key : string) (h : gmap string (list string)) : string :=
  match h !! CanonicalMIMEHeaderKey key with
  | Some (v :: _) => v
  | _ => EmptyString
  end.

Definition hopHeaders : gmap string Z :=
  list_to_map
    [("Connection", 1); ("Proxy-Connection", 1); ("Keep-Alive", 1);
     ("Proxy-Authenticate", 1); ("Proxy-Authorization", 1); ("Te", 1);
     ("Trailer", 1); ("Transfer-Encoding", 1); ("Upgrade", 1);
     ("Content-Length", 1)]%string.

(** The upstream response.  [resp_Header] lists the entries of the
    header map in the order the [range] loop happens to visit them. *)
Record Response := {
  StatusCode : Z;
  resp_Header : list (string * list string);
  ContentLength : Z;
  resp_Body : list byte
}.

Record Request := {
  req_Header : gmap string (list string);
  req_Host : string
}.

Definition copyResponseHeader (newHeader : gmap string (list string))
    (resp : Response) : gmap string (list string) :=
  fold_left
    (fun h kv =>
       if bool_decide (is_Some (hopHeaders !! kv.1)) then h
       else fold_left (fun h v => Header_Add kv.1 v h) kv.2 h)
    (resp_Header resp) newHeader.

(** [strconv.Itoa]. *)
Definition Itoa (n : Z) : string :=
  DecimalString.NilZero.string_of_int (Z.to_int n).

(** What the handler did with the request. *)
Inductive served :=
| Upgraded
| Written (status : Z) (header : gmap string (list string)) (body : list byte).

(** [http.Error(w, text, code)] on a fresh response writer. *)
Definition http_Error (text : string) (code : Z) : served :=
  Written code
    (Header_Set "X-Content-Type-Options" "nosniff"
       (Header_Set "Content-Type" "text/plain; charset=utf-8"
          (Header_Del "Content-Length" ∅)))
    (list_byte_of_string (text +:+ String (ascii_of_nat 10) EmptyString)).

(** [ServeHTTP] from the test for an upgrade on; [RoundTrip] is the
    outcome of [h.s.rt.RoundTrip(r)]. *)
Definition ServeHTTP (r : Request) (RoundTrip : Response + string) : served :=
  if String.eqb (Header_Get "Upgrade" (req_Header r)) "websocket" then Upgraded
  else
    match RoundTrip with
    | inr err => http_Error err 500
    | inl resp =>
        let h := copyResponseHeader ∅ resp in
        let h :=
          if 0 <? ContentLength resp
          then Header_Set "Content-Length" (Itoa (ContentLength resp)) h
          else Header_Set "Transfer-Encoding" "chunked" h in
        Written (StatusCode resp) h (resp_Body resp)
    end.

(** The eight filtered names that the handler never sets itself. *)
Definition hopOnly : list string :=
  ["Connection"; "Proxy-Connection"; "Keep-Alive"; "Proxy-Authenticate";
   "Proxy-Authorization"; "Te"; "Trailer"; "Upgrade"]%string.

End Proxy.

(** ** DNS proxy ([handler.go]) *)

Module Dns.

(** *** Byte slices

    A slice is a window of [slen] bytes onto a backing array whose
    remaining [length backing] bytes are its capacity.  Indexing is
    checked against the length, slicing against the capacity. *)

Record slice := {
  backing : list byte;
  slen : Z
}.

Definition cap (s : slice) : Z := Z.of_nat (length (backing s)).

(** The bytes of the slice. *)
Definition bytes (s : slice) : list byte := take (Z.to_nat (slen s)) (backing s).

(** [s[i]]. *)
Definition index (s : slice) (i : Z) : result byte fault :=
  if (0 <=? i) && (i <? slen s) then
    match backing s !! Z.to_nat i with
    | Some b => Ok b
    | None => Error Panic
    end
  else Error Panic.

(** [s[i] = b]. *)
Definition store (s : slice) (i : Z) (b : byte) : result slice fault :=
  if (0 <=? i) && (i <? slen s) then
    Ok {| backing := <[Z.to_nat i := b]> (backing s); slen := slen s |}
  else Error Panic.

(** [s[lo:hi]]. *)
Definition subslice (s : slice) (lo hi : Z) : result slice fault :=
  if (0 <=? lo) && (lo <=? hi) && (hi <=? cap s) then
    Ok {| backing := drop (Z.to_nat lo) (backing s); slen := hi - lo |}
  else Error Panic.

(** [append(s, xs...)]: in place when the capacity allows, else into a
    new array. *)
Definition append (s : slice) (xs : list byte) : slice :=
  let n := slen s + Z.of_nat (length xs) in
  if n <=? cap s then
    {| backing := bytes s ++ xs ++ drop (Z.to_nat n) (backing s); slen := n |}
  else
    {| backing := bytes s ++ xs; slen := n |}.

Definition u8 (b : byte) : Z := Z.of_N (Byte.to_N b).

(** [int8(b)]. *)
Definition int8 (b : byte) : Z := if u8 b <? 128 then u8 b else u8 b - 256.

(** [binary.BigEndian.Uint16(b)]. *)
Definition Uint16 (b : slice) : result Z fault :=
  match index b 1, index b 0 with
  | Ok b1, Ok b0 => Ok (Z.lor (Z.shiftl (u8 b0) 8) (u8 b1))
  | _, _ => Error Panic
  end.

(** *** The ledger *)

Record UDPAddr := {
  IP : list byte;
  Port : Z
}.

Record DnsQuery := {
  query_sid : Z;
  query_addr : UDPAddr;
  query_host : string
}.

(** [entry]; [time.Time] is a number of nanoseconds. *)
Record entry := {
  entry_sid : Z;
  entry_ts : Z;
  entry_q : DnsQuery
}.

(** The fields of [DnsProxy] but the sockets.  [chWakeUp] is a channel
    of capacity one: it holds a token or not. *)
Record DnsProxy := {
  dnsHack : string;
  serverAddr : UDPAddr;
  entries : list entry;
  indices : gmap Z Z;
  chWakeUp : bool;
  reverser : wsServer
}.

Definition newDnsProxy (dnsHack : string) (serverAddr : UDPAddr)
    (dnsr : wsServer) : DnsProxy :=
  {| dnsHack := dnsHack; serverAddr := serverAddr;
     entries := []; indices := ∅; chWakeUp := false; reverser := dnsr |}.

Definition with_heap (h : DnsProxy) (es : list entry) (ix : gmap Z Z) : DnsProxy :=
  {| dnsHack := dnsHack h; serverAddr := serverAddr h;
     entries := es; indices := ix; chWakeUp := chWakeUp h;
     reverser := reverser h |}.

(** Methods on [*DnsProxy]: the receiver is threaded as state, and a
    panic ends the computation. *)
Definition M (A : Type) : Type := DnsProxy -> result (A * DnsProxy) fault.

Definition ret {A : Type} (a : A) : M A := fun h => Ok (a, h).

Definition bind {A B : Type} (m : M A) (k : A -> M B) : M B :=
  fun h =>
    match m h with
    | Ok (a, h') => k a h'
    | Error f => Error f
    end.

Definition raise {A : Type} (f : fault) : M A := fun _ => Error f.

Notation "'do' x <- m ; k" := (bind m (fun x => k))
  (at level 10, x name, m at level 100, k at level 200).

(** [l[i]] for an [int] index; [None] when a Go slice would panic. *)
Definition at_index (l : list entry) (i : Z) : option entry :=
  if 0 <=? i then l !! Z.to_nat i else None.

(** [heap.Interface] as [DnsProxy] implements it. *)
Definition Len : M Z := fun h => Ok (Z.of_nat (length (entries h)), h).

Definition Less (i j : Z) : M bool :=
  fun h =>
    match at_index (entries h) i, at_index (entries h) j with
    | Some ei, Some ej => Ok (entry_ts ei <? entry_ts ej, h)
    | _, _ => Error Panic
    end.

(** [Swap]: the two entries change places, then the index is written
    for the id now at [i] and, last, for the id now at [j]. *)
Definition Swap (i j : Z) : M unit :=
  fun h =>
    match at_index (entries h) i, at_index (entries h) j with
    | Some ei, Some ej =>
        Ok (tt, with_heap h
                  (<[Z.to_nat j := ei]> (<[Z.to_nat i := ej]> (entries h)))
                  (<[entry_sid ei := j]> (<[entry_sid ej := i]> (indices h))))
    | _, _ => Error Panic
    end.

Definition Push (x : entry) : M unit :=
  fun h =>
    let es := entries h ++ [x] in
    Ok (tt, with_heap h es (<[entry_sid x := Z.of_nat (length es) - 1]> (indices h))).

Definition Pop : M entry :=
  fun h =>
    let n := Z.of_nat (length (entries h)) in
    match at_index (entries h) (n - 1) with
    | Some x =>
        Ok (x, with_heap h (take (Z.to_nat (n - 1)) (entries h))
                 (delete (entry_sid x) (indices h)))
    | None => Error Panic
    end.

(** [delete(h.indices, sid)]. *)
Definition deleteIndex (sid : Z) : M unit :=
  fun h => Ok (tt, with_heap h (entries h) (delete sid (indices h))).

(** Go's [container/heap] (standard library), over the methods above:
<<
  func Push(h Interface, x any) { h.Push(x); up(h, h.Len()-1) }
  func Pop(h Interface) any {
    n := h.Len() - 1; h.Swap(0, n); down(h, 0, n); return h.Pop() }
  func Remove(h Interface, i int) any {
    n := h.Len() - 1
    if n != i { h.Swap(i, n); if !down(h, i, n) { up(h, i) } }
    return h.Pop() }
  func up(h Interface, j int) {
    for { i := (j - 1) / 2 // parent
          if i == j || !h.Less(j, i) { break }
          h.Swap(i, j); j = i } }
  func down(h Interface, i0, n int) bool {
    i := i0
    for { j1 := 2*i + 1
          if j1 >= n || j1 < 0 { break } // j1 < 0 after int overflow
          j := j1 // left child
          if j2 := j1 + 1; j2 < n && h.Less(j2, j1) { j = j2 }
          if !h.Less(j, i) { break }
          h.Swap(i, j); i = j }
    return i > i0 }
>>
    An [int] is modelled as an unbounded [Z]: positions are below the
    length of a slice, far from where [2*i + 1] would overflow.  Go
    divides towards zero, so [(j - 1) / 2] is [Z.quot]. *)
Module heap.

(** The loop of [up]; [fuel] bounds its iterations. *)
Fixpoint up_loop (fuel : nat) (j : Z) : M unit :=
  match fuel with
  | O => raise OutOfFuel
  | S fuel' =>
      let i := Z.quot (j - 1) 2 in
      if i =? j then ret tt
      else
        do lt <- Less j i;
        if negb lt then ret tt
        else do _ <- Swap i j; up_loop fuel' i
  end.

Definition up (j : Z) : M unit := up_loop (S (Z.to_nat j)) j.

(** The loop of [down]; it answers [i > i0]. *)
Fixpoint down_loop (fuel : nat) (i0 i n : Z) : M bool :=
  match fuel with
  | O => raise OutOfFuel
  | S fuel' =>
      let j1 := 2 * i + 1 in
      if (n <=? j1) || (j1 <? 0) then ret (i0 <? i)
      else
        let j2 := j1 + 1 in
        do lt21 <- (if j2 <? n then Less j2 j1 else ret false);
        let j := if lt21 then j2 else j1 in
        do lt <- Less j i;
        if negb lt then ret (i0 <? i)
        else do _ <- Swap i j; down_loop fuel' i0 j n
  end.

Definition down (i0 n : Z) : M bool := down_loop (S (Z.to_nat n)) i0 i0 n.

Definition Push (x : entry) : M unit :=
  do _ <- Dns.Push x;
  do n <- Len;
  up (n - 1).

Definition Pop : M entry :=
  do l <- Len;
  let n := l - 1 in
  do _ <- Swap 0 n;
  do _ <- down 0 n;
  Dns.Pop.

Definition Remove (i : Z) : M entry :=
  do l <- Len;
  let n := l - 1 in
  do _ <- (if n =? i then ret tt
           else do _ <- Swap i n;
                do moved <- down i n;
                if negb moved then up i else ret tt);
  Dns.Pop.

End heap.

Definition Second : Z := 1000000000.

(** [wakeup]: a send that does not block; with a token pending the new
    one is dropped. *)
Definition wakeup : M unit :=
  fun h =>
    Ok (tt, {| dnsHack := dnsHack h; serverAddr := serverAddr h;
               entries := entries h; indices := indices h;
               chWakeUp := true; reverser := reverser h |}).

(** [addQuery], at time [now]. *)
Definition addQuery (now : Z) (q : DnsQuery) : M unit :=
  do _ <- heap.Push {| entry_sid := query_sid q;
                       entry_ts := now + Second * 10;
                       entry_q := q |};
  wakeup.

(** [removeQuery]; [None] is the [nil] query. *)
Definition removeQuery (sid : Z) : M (option DnsQuery) :=
  fun h =>
    match indices h !! sid with
    | Some idx =>
        (do el <- heap.Remove idx; ret (Some (entry_q el))) h
    | None => Ok (None, h)
    end.

(** The [for i := 0; i < hlen; i++] loop of [updateTask] with [k]
    iterations left; it answers the entries it discarded, in order. *)
Fixpoint evictLoop (k : nat) (now : Z) : M (list entry) :=
  match k with
  | O => ret []
  | S k' =>
      do e <- heap.Pop;
      if entry_ts e <? now then
        do _ <- deleteIndex (entry_sid e);
        do rest <- evictLoop k' now;
        ret (e :: rest)
      else
        do _ <- heap.Push e;
        ret []
  end.

(** One turn of the loop of [updateTask] after its [select] returned, at
    time [now]: the discarded entries and the timer afterwards ([None]
    is the nil channel, [Some d] a timer that fires after [d]). *)
Definition updateTask_wake (now : Z) (timer : option Z)
  : M (list entry * option Z) :=
  do hlen <- Len;
  do evicted <- evictLoop (Z.to_nat hlen) now;
  do n <- Len;
  if 0 <? n then
    fun h =>
      match at_index (entries h) 0 with
      | Some e0 => Ok ((evicted, Some (entry_ts e0 - now)), h)
      | None => Error Panic
      end
  else ret (evicted, timer).

(** *** Packets *)

(** What the proxy sends. *)
Inductive output :=
| ToClient (data : list byte) (addr : UDPAddr)
| ToUpstream (data : list byte) (addr : UDPAddr).

Definition Answer : list byte :=
  [x00; x01; x00; x01; xff; xff; xff; xff; x00; x04; x7f; x00; x00; x01].

(** The loop of [hostFromMsg]: [domain] is the buffer's content so far. *)
Fixpoint hostLoop (fuel : nat) (msg : slice) (offset : Z) (domain : string)
  : result string fault :=
  match fuel with
  | O => Error OutOfFuel
  | S fuel' =>
      match index msg offset with
      | Error f => Error f
      | Ok b =>
          let length := int8 b in
          if length =? 0 then Ok domain
          else
            let offset := offset + 1 in
            match subslice msg offset (offset + length) with
            | Error f => Error f
            | Ok label =>
                hostLoop fuel' msg (offset + length)
                  (domain +:+ string_of_list_byte (bytes label) +:+ ".")
            end
      end
  end.

Definition hostFromMsg (msg : slice) : result string fault :=
  match index msg 5 with
  | Error f => Error f
  | Ok count =>
      if u8 count =? 1 then
        hostLoop (S (Z.to_nat (slen msg))) msg 12 EmptyString
      else Ok EmptyString
  end.

Section Packets.

(** [[]byte(net.ParseIP(target).To4())]: the four bytes of an IPv4
    address in text form, and no byte for any other text. *)
Variable To4 : string -> list byte.

(** [hackDns]: the datagram it writes to [addr]. *)
Definition hackDns (msg : slice) (host : string) (target : string)
    (addr : UDPAddr) : result output fault :=
  let targetIp := To4 target in
  match store msg 2 x81 with
  | Error f => Error f
  | Ok msg =>
  match store msg 3 x80 with
  | Error f => Error f
  | Ok msg =>
  match store msg 7 x01 with
  | Error f => Error f
  | Ok msg =>
  match subslice msg 12 (12 + 1 + GoString.len host) with
  | Error f => Error f
  | Ok domain =>
      let msg := append msg (bytes domain) in
      let msg := append msg (take (length Answer - 4) Answer) in
      let msg := append msg targetIp in
      Ok (ToClient (bytes msg) addr)
  end end end end.

(** The buffer of [handleUDP] after a read of the datagram [data]:
    4096 bytes, the first [len(data)] of them the datagram. *)
Definition readBuffer (data : list byte) : slice :=
  {| backing := take 4096 data ++ replicate (4096 - length data) x00;
     slen := Z.of_nat (length (take 4096 data)) |}.

(** [handleUDP] for one datagram [data] read from [addr] at time [now]:
    what it sends. *)
Definition handleUDP (now : Z) (data : list byte) (addr : UDPAddr)
  : M output :=
  fun dns =>
    let buf := readBuffer data in
    match subslice buf 0 2 with
    | Error f => Error f
    | Ok b2 =>
    match Uint16 b2 with
    | Error f => Error f
    | Ok queryId =>
    match hostFromMsg buf with
    | Error f => Error f
    | Ok host =>
        if isReverse (reverser dns) host then
          match hackDns buf host (dnsHack dns) addr with
          | Error f => Error f
          | Ok out => Ok (out, dns)
          end
        else
          (do _ <- addQuery now {| query_sid := queryId; query_addr := addr;
                                   query_host := host |};
           ret (ToUpstream (bytes buf) (serverAddr dns))) dns
    end end end.

(** [processUpstream] for one datagram read from the upstream socket. *)
Definition processUpstream (data : list byte) : M (option output) :=
  let buf := readBuffer data in
  fun dns =>
    match subslice buf 0 2 with
    | Error f => Error f
    | Ok b2 =>
    match Uint16 b2 with
    | Error f => Error f
    | Ok queryId =>
        (do q <- removeQuery queryId;
         ret (match q with
              | Some q => Some (ToClient (bytes buf) (query_addr q))
              | None => None
              end)) dns
    end end.

End Packets.

End Dns.

(** ** Invariants of the ledger *)

Module Inv.
Import Dns.

(** The parent of position [j], as [up] computes it. *)
Definition parent (j : Z) : Z := Z.quot (j - 1) 2.

(** Every position the index holds is the position of an entry with
    that id. *)
Definition sound_at (s : Z) (h : DnsProxy) : Prop :=
  forall i, indices h !! s = Some i ->
    exists e, at_index (entries h) i = Some e /\ entry_sid e = s.

Definition index_sound (h : DnsProxy) : Prop := forall s, sound_at s h.

(** The index holds the position of every entry of the heap. *)
Definition index_complete (h : DnsProxy) : Prop :=
  forall i e, at_index (entries h) i = Some e ->
    indices h !! entry_sid e = Some i.

Definition index_ok (h : DnsProxy) : Prop := index_sound h /\ index_complete h.

(** The entry at [k] does not expire before its parent. *)
Definition edge_ok (l : list entry) (k : Z) : Prop :=
  forall e p, at_index l k = Some e -> at_index l (parent k) = Some p ->
    entry_ts p <= entry_ts e.

Definition ordered_upto (n : Z) (l : list entry) : Prop :=
  forall k, 0 < k < n -> edge_ok l k.

(** The min-heap order on [expiry]. *)
Definition heap_ordered (l : list entry) : Prop :=
  ordered_upto (Z.of_nat (length l)) l.

(** The first [n] positions are ordered but for the edge into [j]; the
    children of [j] do not expire before the parent of [j]. *)
Definition up_inv (n : Z) (l : list entry) (j : Z) : Prop :=
  (forall k, 0 < k < n -> k <> j -> edge_ok l k)
  /\ (forall c e p, 0 < j -> 0 < c < n -> parent c = j ->
        at_index l c = Some e -> at_index l (parent j) = Some p ->
        entry_ts p <= entry_ts e).

(** The first [n] positions are ordered but for the edges out of [i];
    the children of [i] do not expire before the parent of [i]. *)
Definition down_inv (n : Z) (l : list entry) (i : Z) : Prop :=
  (forall k, 0 < k < n -> parent k <> i -> edge_ok l k)
  /\ (forall c e p, 0 < i -> 0 < c < n -> parent c = i ->
        at_index l c = Some e -> at_index l (parent i) = Some p ->
        entry_ts p <= entry_ts e).

(** [h'] comes from [h] by swaps of positions below [n]. *)
Inductive swaps (n : Z) : DnsProxy -> DnsProxy -> Prop :=
| swaps_refl h : swaps n h h
| swaps_step h i j h1 h2 :
    0 <= i < n -> 0 <= j < n ->
    Swap i j h = Ok (tt, h1) -> swaps n h1 h2 -> swaps n h h2.

(** The fields that no ledger operation writes. *)
Definition same_config (h h' : DnsProxy) : Prop :=
  dnsHack h' = dnsHack h /\ serverAddr h' = serverAddr h
  /\ reverser h' = reverser h.

(** The entry [addQuery] pushes for [q] at time [now]. *)
Definition queryEntry (now : Z) (q : DnsQuery) : entry :=
  {| entry_sid := query_sid q; entry_ts := now + Second * 10; entry_q := q |}.

(** The states of the ledger that calls of [addQuery], [removeQuery]
    and turns of [updateTask] lead to from a new proxy. *)
Inductive reachable : DnsProxy -> Prop :=
| reach_new dnsHack serverAddr dnsr :
    reachable (newDnsProxy dnsHack serverAddr dnsr)
| reach_add h now q h' :
    reachable h -> addQuery now q h = Ok (tt, h') -> reachable h'
| reach_remove h sid r h' :
    reachable h -> removeQuery sid h = Ok (r, h') -> reachable h'
| reach_wake h now timer r h' :
    reachable h -> updateTask_wake now timer h = Ok (r, h') -> reachable h'.

(** [addQuery] for each query of a list, each at its own time. *)
Fixpoint addAll (adds : list (Z * DnsQuery)) : M unit :=
  match adds with
  | [] => ret tt
  | (now, q) :: rest => do _ <- addQuery now q; addAll rest
  end.

(** [removeQuery] for each id of a list; the answers in order. *)
Fixpoint removeAll (sids : list Z) : M (list (option DnsQuery)) :=
  match sids with
  | [] => ret []
  | sid :: rest =>
      do r <- removeQuery sid;
      do rs <- removeAll rest;
      ret (r :: rs)
  end.

(** *** The DNS wire format (RFC 1035), to read a response with *)

Definition byteAt (m : list byte) (k : nat) : Z := u8 (nth k m x00).

Definition be16 (m : list byte) (k : nat) : Z :=
  Z.lor (Z.shiftl (byteAt m k) 8) (byteAt m (k + 1)).

Definition be32 (m : list byte) (k : nat) : Z :=
  Z.lor (Z.shiftl (be16 m k) 16) (be16 m (k + 2)).

(** Header flags: QR and RD are bits 7 and 0 of byte 2, AA is its bit
    2, RA is bit 7 of byte 3. *)
Definition flagQR (m : list byte) : bool := Z.testbit (byteAt m 2) 7.
Definition flagAA (m : list byte) : bool := Z.testbit (byteAt m 2) 2.
Definition flagRD (m : list byte) : bool := Z.testbit (byteAt m 2) 0.
Definition flagRA (m : list byte) : bool := Z.testbit (byteAt m 3) 7.
Definition QDCOUNT (m : list byte) : Z := be16 m 4.
Definition ANCOUNT (m : list byte) : Z := be16 m 6.

(** The fields of a resource record after its owner name. *)
Definition rrTYPE (rr : list byte) : Z := be16 rr 0.
Definition rrCLASS (rr : list byte) : Z := be16 rr 2.
Definition rrTTL (rr : list byte) : Z := be32 rr 4.
Definition rrRDLENGTH (rr : list byte) : Z := be16 rr 8.
Definition rrRDATA (rr : list byte) : list byte := drop 10 rr.

(** The datagram [hackDns] answers the query [data] with, when the
    decoded name is [host] and the target address is [ip]. *)
Definition hijackResponse (data : list byte) (host : string) (ip : list byte)
  : list byte :=
  <[7%nat := x01]> (<[3%nat := x80]> (<[2%nat := x81]> data))
  ++ take (Z.to_nat (1 + GoString.len host)) (drop 12 data)
  ++ [x00; x01; x00; x01; xff; xff; xff; xff; x00; x04]
  ++ ip.

(** The bytes of the response [resp] to the query [data] after the
    copy of the query and the owner name of the answer. *)
Definition answerOf (data : list byte) (host : string) (resp : list byte)
  : list byte :=
  drop (length data + Z.to_nat (1 + GoString.len host)) resp.

(** Sample data for the worked examples. *)
Definition clientA : UDPAddr := {| IP := [x0a; x00; x00; x05]; Port := 40000 |}.
Definition clientB : UDPAddr := {| IP := [x0a; x00; x00; x06]; Port := 40001 |}.
Definition upstream : UDPAddr := {| IP := [x08; x08; x08; x08]; Port := 53 |}.

Definition sampleQuery (sid : Z) (addr : UDPAddr) : DnsQuery :=
  {| query_sid := sid; query_addr := addr; query_host := "www.example.org." |}.

(** A query for the A record of [a.example.com], with the id 0x1234. *)
Definition samplePacket : list byte :=
  [x12; x34; x01; x00; x00; x01; x00; x00; x00; x00; x00; x00;
   x01; x61; x07; x65; x78; x61; x6d; x70; x6c; x65; x03; x63; x6f; x6d; x00;
   x00; x01; x00; x01].

Definition sampleTo4 (target : string) : list byte := [x0a; x00; x00; x02].

Definition sampleProxy : DnsProxy :=
  newDnsProxy "10.0.0.2" upstream (parseDNS ["*.example.com"%string] newServer).

End Inv.

(** One step through a [do]: the first call returns what [H] says. *)
Ltac bind_step H := unfold Dns.bind at 1; rewrite H; cbv beta iota.

(** ** The lines of a hosts file that intercept a host *)

(** [host] is a line of more than two bytes that does not start with
    [*.], or a line is [*.d], [d] has at least two labels, and [host]
    is [d] or ends in [.d]. *)
Definition listed (lines : list string) (host : string) : Prop :=
  (In host lines /\ 2 < GoString.len host
   /\ GoString.slice host 0 2 <> "*."%string)
  \/ exists d, In (String "*" (String "." d)) lines
       /\ (2 <= length (GoString.Split "." d))%nat
       /\ (host = d \/ exists p, host = p +:+ String "." d).

(** ** Names on the wire (RFC 1035, 4.1.2), to say what [hostFromMsg] reads *)

Module Wire.

(** The byte that holds the length of a label. *)
Definition lenByte (label : list byte) : byte :=
  default x00 (Byte.of_N (N.of_nat (length label))).

(** A name in a question: each label after the byte that holds its
    length, and a zero byte after the last label. *)
Fixpoint encodeName (labels : list (list byte)) : list byte :=
  match labels with
  | [] => [x00]
  | l :: rest => lenByte l :: l ++ encodeName rest
  end.

(** The name as text: a dot after each label. *)
Fixpoint dottedName (labels : list (list byte)) : string :=
  match labels with
  | [] => EmptyString
  | l :: rest => string_of_list_byte l +:+ "." +:+ dottedName rest
  end.

(** Labels of 1 to 127 bytes: those whose length byte is positive as
    an [int8]. *)
Definition labelsOk (labels : list (list byte)) : Prop :=
  Forall (fun l => (1 <= length l <= 127)%nat) labels.

End Wire.

(** ** The pending queries as a map with expiry, to compare the ledger with *)

Module Pending.
Import Dns.

(** A call on the ledger: [addQuery(q)] at a time, [removeQuery(sid)],
    and a turn of the loop of [updateTask] at a time. *)
Inductive call :=
| Add (now : Z) (q : DnsQuery)
| Remove (sid : Z)
| Wake (now : Z).

(** The calls in order on the proxy, [timer] being the timer of
    [updateTask]: what the calls of [removeQuery] return, in order. *)
Fixpoint run (calls : list call) (timer : option Z) : M (list (option DnsQuery)) :=
  match calls with
  | [] => ret []
  | Add now q :: rest => do _ <- addQuery now q; run rest timer
  | Remove sid :: rest =>
      do r <- removeQuery sid;
      do rs <- run rest timer;
      ret (r :: rs)
  | Wake now :: rest =>
      do r <- updateTask_wake now timer;
      run rest (snd r)
  end.

(** The map: for each pending transaction id, the expiry and the query. *)
Definition step (c : call) (m : gmap Z (Z * DnsQuery)) : gmap Z (Z * DnsQuery) :=
  match c with
  | Add now q => <[query_sid q := (now + Second * 10, q)]> m
  | Remove sid => delete sid m
  | Wake now => filter (fun kv => now <= fst (snd kv)) m
  end.

Definition after (calls : list call) (m : gmap Z (Z * DnsQuery))
  : gmap Z (Z * DnsQuery) :=
  fold_left (fun m c => step c m) calls m.

Fixpoint answers (calls : list call) (m : gmap Z (Z * DnsQuery))
  : list (option DnsQuery) :=
  match calls with
  | [] => []
  | Remove sid :: rest => (snd <$> m !! sid) :: answers rest (step (Remove sid) m)
  | c :: rest => answers rest (step c m)
  end.

(** No [Add] is for an id that is pending when it is made. *)
Fixpoint fresh (calls : list call) (m : gmap Z (Z * DnsQuery)) : bool :=
  match calls with
  | [] => true
  | Add now q :: rest =>
      bool_decide (m !! query_sid q = None) && fresh rest (step (Add now q) m)
  | c :: rest => fresh rest (step c m)
  end.

(** The heap and index of [h] hold the queries of [m]. *)
Definition represents (h : DnsProxy) (m : gmap Z (Z * DnsQuery)) : Prop :=
  Inv.index_ok h /\ Inv.heap_ordered (entries h)
  /\ forall e, In e (entries h) <-> m !! entry_sid e = Some (entry_ts e, entry_q e).

End Pending.

(** ** WebSocket relay: the read loop ([serveWebSocket], [wsf]) *)

Module RelayLoop.
Import Relay.

(** The control frames [wsf] sets a handler for. *)
Inductive control := Ping | Pong.

Definition controlType (c : control) : Z :=
  match c with
  | Ping => PingMessage
  | Pong => PongMessage
  end.

(** What [wsf(a, b, tag, ch)] meets on its two connections, in order:
    a control frame that [a] hands to its handler at time [now], with
    the answer of [b.WriteControl]; a message that [a.ReadMessage]
    returns, with the answer of [b.WriteMessage]; an error that
    [a.ReadMessage] returns. *)
Inductive event :=
| Control (c : control) (message : string) (now : Z) (written : option error)
| Message (mt : Z) (message : list byte) (written : option error)
| ReadFailed (err : error).

(** [wsf] over the events: the arguments of its calls of
    [b.WriteMessage] in order, the channel afterwards, and whether the
    loop is still running (waiting in [a.ReadMessage]). *)
Fixpoint wsf (events : list event) (ch : chan)
  : result (list (Z * list byte) * chan * bool) fault :=
  match events with
  | [] => Ok ([], ch, true)
  | Control c message now written :: rest =>
      match pf (fun _ => written) (controlType c) message now ch with
      | Error f => Error f
      | Ok (_, ch) => wsf rest ch
      end
  | ReadFailed err :: _ =>
      match close ch with
      | Error f => Error f
      | Ok ch => Ok ([], ch, false)
      end
  | Message mt message written :: rest =>
      match written with
      | Some _ =>
          match close ch with
          | Error f => Error f
          | Ok ch => Ok ([(mt, message)], ch, false)
          end
      | None =>
          match wsf rest ch with
          | Error f => Error f
          | Ok (sent, ch, running) => Ok ((mt, message) :: sent, ch, running)
          end
      end
  end.

(** The messages among the events. *)
Fixpoint messages (events : list event) : list (Z * list byte) :=
  match events with
  | [] => []
  | Message mt message _ :: rest => (mt, message) :: messages rest
  | _ :: rest => messages rest
  end.

(** A read or a write of a message that fails: the loop ends there. *)
Definition failure (e : event) : bool :=
  match e with
  | Control _ _ _ _ => false
  | Message _ _ written => bool_decide (written <> None)
  | ReadFailed _ => true
  end.

(** A control frame whose forwarding fails with an error the handler
    does not swallow. *)
Definition fatal (e : event) : bool :=
  match e with
  | Control _ _ _ (Some err) => negb (swallowed err)
  | _ => false
  end.

End RelayLoop.

(** ** The proxy as a server: datagrams in, datagrams out ([runDns]) *)

Module Server.
Import Dns.

(** What the three loops of [runDns] take up, one at a time under the
    mutex: a datagram from a client, read by [handleUDP] at a time; a
    datagram from the upstream server, read by [processUpstream]; a
    turn of the loop of [updateTask] at a time. *)
Inductive input :=
| Query (now : Z) (data : list byte) (addr : UDPAddr)
| Reply (data : list byte)
| Turn (now : Z).

Section Loop.

Variable To4 : string -> list byte.

(** What the proxy sends for each input, in order ([None] for
    nothing); a panic ends the process, and the list. *)
Fixpoint serve (ins : list input) (timer : option Z) (dns : DnsProxy)
  : list (option output) :=
  match ins with
  | [] => []
  | Query now data addr :: rest =>
      match handleUDP To4 now data addr dns with
      | Ok (out, dns') => Some out :: serve rest timer dns'
      | Error _ => []
      end
  | Reply data :: rest =>
      match processUpstream data dns with
      | Ok (out, dns') => out :: serve rest timer dns'
      | Error _ => []
      end
  | Turn now :: rest =>
      match updateTask_wake now timer dns with
      | Ok (r, dns') => None :: serve rest (snd r) dns'
      | Error _ => []
      end
  end.

End Loop.

(** A datagram the inputs [seen] account for: one to a client goes to
    an address a query came from and carries the transaction id of
    that query; one to the upstream server goes to [server] and is a
    query as it was read, into a buffer of 4096 bytes. *)
Definition solicited (server : UDPAddr) (seen : list input) (out : output)
  : Prop :=
  match out with
  | ToClient data addr =>
      exists now q, In (Query now q addr) seen /\ Inv.be16 data 0 = Inv.be16 q 0
  | ToUpstream data addr =>
      addr = server
      /\ exists now q src, In (Query now q src) seen /\ data = take 4096 q
  end.

(** What the ledger holds was asked for: each entry stands for a query
    that was read, from the entry's address and with the entry's id. *)
Definition accounted (server : UDPAddr) (seen : list input) (dns : DnsProxy)
  : Prop :=
  Inv.reachable dns /\ serverAddr dns = server
  /\ forall e, In e (entries dns) ->
       exists now q, In (Query now q (query_addr (entry_q e))) seen
                     /\ entry_sid e = Inv.be16 q 0.

End Server.


(** * Properties *)

(** ** Strings *)

Section GoStringFacts.
Import GoString.
Variable sep : ascii.

Lemma Split_not_nil (s : string) : Split sep s <> [].
Proof.
  destruct s as [|c r]; simpl; [discriminate|].
  destruct (Ascii.eqb c sep); [discriminate|].
  destruct (Split sep r); discriminate.
Qed.

Lemma Join_Split (s : string) : Join sep (Split sep s) = s.
Proof.
  induction s as [|c r IH]; simpl; [reflexivity|].
  destruct (Ascii.eqb_spec c sep) as [->|Hne].
  - pose proof (Split_not_nil r) as Hnil.
    destruct (Split sep r) as [|h t] eqn:E; [contradiction|].
    simpl in *. rewrite IH. reflexivity.
  - pose proof (Split_not_nil r) as Hnil.
    destruct (Split sep r) as [|h t] eqn:E; [contradiction|].
    destruct t as [|h' t']; simpl in *; rewrite <- IH; reflexivity.
Qed.

Lemma Split_app (p d : string) :
  Split sep (p +:+ String sep d) = Split sep p ++ Split sep d.
Proof.
  induction p as [|c p IH]; simpl.
  - rewrite Ascii.eqb_refl. reflexivity.
  - rewrite IH. destruct (Ascii.eqb c sep); [reflexivity|].
    pose proof (Split_not_nil p) as Hnil.
    destruct (Split sep p) as [|h t]; [contradiction|]. reflexivity.
Qed.

End GoStringFacts.

Section GoStringSlices.
Import GoString.

Lemma substring_all (s : string) : String.substring 0 (String.length s) s = s.
Proof. induction s as [|c s IH]; simpl; [reflexivity | now rewrite IH]. Qed.

Lemma substring_app_l (s t : string) :
  String.substring 0 (String.length s) (s +:+ t) = s.
Proof.
  induction s as [|c s IH]; simpl; [now destruct t | now rewrite IH].
Qed.

Lemma get_app_r (s t : string) (n : nat) :
  String.get (String.length s + n) (s +:+ t) = String.get n t.
Proof. induction s as [|c s IH]; simpl; [reflexivity | exact IH]. Qed.

Lemma string_length_app (s t : string) :
  String.length (s +:+ t) = (String.length s + String.length t)%nat.
Proof. induction s as [|c s IH]; simpl; [reflexivity | now rewrite IH]. Qed.

Lemma length_substring_le (n m : nat) (s : string) :
  (String.length (String.substring n m s) <= m)%nat.
Proof.
  revert n m. induction s as [|c s IH]; intros n m.
  - destruct n, m; simpl; lia.
  - destruct n as [|n]; [destruct m as [|m]|]; simpl; [lia| |apply IH].
    specialize (IH 0%nat m). lia.
Qed.

(** The last byte of [s ++ t] is the last byte of [t] when [t] is not empty. *)
Lemma at_last_app (s t : string) :
  t <> EmptyString ->
  at_ (s +:+ t) (len (s +:+ t) - 1) = at_ t (len t - 1).
Proof.
  intros Ht. unfold at_, len. rewrite string_length_app.
  destruct t as [|c t]; [contradiction|]. simpl String.length.
  replace (0 <=? Z.of_nat (String.length s + S (String.length t)) - 1) with true
    by (symmetry; apply Z.leb_le; lia).
  replace (0 <=? Z.of_nat (S (String.length t)) - 1) with true
    by (symmetry; apply Z.leb_le; lia).
  replace (Z.to_nat (Z.of_nat (String.length s + S (String.length t)) - 1))
    with (String.length s + String.length t)%nat by lia.
  replace (Z.to_nat (Z.of_nat (S (String.length t)) - 1))
    with (String.length t) by lia.
  apply get_app_r.
Qed.

End GoStringSlices.

(** ** Hostname match table *)

Section MatchTable.
Import GoString.

(** A host that is [p.d] for a non-empty [d] ends in a dot only if [d] does. *)
Lemma hasTrailingDot_app (p d : string) :
  d <> EmptyString ->
  hasTrailingDot (p +:+ String "." d) = hasTrailingDot d.
Proof.
  intros Hne. unfold hasTrailingDot.
  rewrite (at_last_app p (String "." d)) by discriminate.
  assert (Hlast : at_ (String "." d) (len (String "." d) - 1) = at_ d (len d - 1)).
  { apply (at_last_app (String "." EmptyString) d Hne). }
  rewrite Hlast.
  assert (Hpos : (0 <? len d) = true).
  { apply Z.ltb_lt. unfold len. destruct d; [contradiction|]. simpl. lia. }
  assert (Hpos' : (0 <? len (p +:+ String "." d)) = true).
  { apply Z.ltb_lt. unfold len. rewrite string_length_app. simpl. lia. }
  now rewrite Hpos, Hpos'.
Qed.

Lemma stripDot_id (h : string) : hasTrailingDot h = false -> stripDot h = h.
Proof. unfold stripDot. now intros ->. Qed.

(** Appending one dot is undone by the normalisation. *)
Lemma stripDot_dot (h : string) : stripDot (h +:+ ".") = h.
Proof.
  unfold stripDot, hasTrailingDot.
  assert (Hlen : len (h +:+ ".") = len h + 1).
  { unfold len. rewrite string_length_app. simpl. lia. }
  assert (Hat : at_ (h +:+ ".") (len (h +:+ ".") - 1) = Some "."%char).
  { rewrite (at_last_app h ".") by discriminate. reflexivity. }
  rewrite Hat, Hlen.
  replace (0 <? len h + 1) with true by (symmetry; apply Z.ltb_lt; unfold len; lia).
  rewrite bool_decide_eq_true_2 by reflexivity. simpl.
  unfold slice, len.
  replace (Z.to_nat (Z.of_nat (String.length h) + 1 - 1 - 0)) with (String.length h) by lia.
  apply substring_app_l.
Qed.

Lemma suffixLoop_app (m : gmap string Z) (l1 l2 : list string) :
  (2 <= length l2)%nat ->
  is_Some (m !! Join "." l2) ->
  suffixLoop m (l1 ++ l2) = true.
Proof.
  intros Hlen Hin. induction l1 as [|x l1 IH].
  - destruct l2 as [|a [|b r]]; simpl in Hlen; try lia.
    simpl app. unfold suffixLoop. rewrite bool_decide_eq_true_2; [reflexivity | exact Hin].
  - assert (Hshape : exists a b r, l1 ++ l2 = a :: b :: r).
    { destruct l1 as [|a [|b r]]; simpl.
      - destruct l2 as [|a [|b r]]; simpl in Hlen; try lia. eauto.
      - destruct l2 as [|b r]; simpl in Hlen; try lia. eauto.
      - eauto. }
    destruct Hshape as (a & b & r & E). simpl app. rewrite E in *.
    change (suffixLoop m (x :: a :: b :: r))
      with (if bool_decide (is_Some (m !! Join "." (x :: a :: b :: r)))
            then true else suffixLoop m (a :: b :: r)).
    rewrite IH. now destruct (bool_decide _).
Qed.

Lemma parseLine_prefix_mono (s : wsServer) (dns k : string) :
  is_Some (reversePrefix s !! k) -> is_Some (reversePrefix (parseLine s dns) !! k).
Proof.
  intros H. unfold parseLine.
  destruct (2 <? len dns); [|exact H].
  destruct (String.eqb _ _); simpl; [|exact H].
  rewrite lookup_insert_is_Some. destruct (decide (slice dns 2 (len dns) = k)); auto.
Qed.

Lemma parseDNS_prefix_mono (lines : list string) (s : wsServer) (k : string) :
  is_Some (reversePrefix s !! k) -> is_Some (reversePrefix (parseDNS lines s) !! k).
Proof.
  revert s. induction lines as [|l lines IH]; intros s H; simpl; [exact H|].
  apply IH, parseLine_prefix_mono, H.
Qed.

Lemma parseLine_wildcard (s : wsServer) (d : string) :
  d <> EmptyString ->
  is_Some (reversePrefix (parseLine s (String "*" (String "." d))) !! d).
Proof.
  intros Hne. unfold parseLine.
  assert (Hlen : (2 <? len (String "*" (String "." d))) = true).
  { apply Z.ltb_lt. unfold len. destruct d; [contradiction|]. simpl. lia. }
  rewrite Hlen.
  assert (Hpre : slice (String "*" (String "." d)) 0 2 = "*.").
  { unfold slice. simpl. now destruct d. }
  rewrite Hpre. simpl String.eqb. cbv iota.
  assert (Hsuf : slice (String "*" (String "." d)) 2 (len (String "*" (String "." d))) = d).
  { unfold slice, len. simpl String.length.
    replace (Z.to_nat (Z.of_nat (S (S (String.length d))) - 2)) with (String.length d) by lia.
    change (Z.to_nat 2) with 2%nat. simpl. apply substring_all. }
  rewrite Hsuf. simpl. rewrite lookup_insert_eq. eauto.
Qed.

Lemma parseDNS_wildcard (lines : list string) (s : wsServer) (d : string) :
  d <> EmptyString -> In (String "*" (String "." d)) lines ->
  is_Some (reversePrefix (parseDNS lines s) !! d).
Proof.
  intros Hne. revert s. induction lines as [|l lines IH]; intros s Hin; [destruct Hin|].
  destruct Hin as [->|Hin]; simpl.
  - apply parseDNS_prefix_mono, parseLine_wildcard, Hne.
  - apply IH, Hin.
Qed.

(** C1, counterexample: with only the wildcard line [*.example.com] in
    the hosts file, [example.com] is not in the exact set and yet
    [isReverse] answers true for it. *)
Lemma wildcard_apex_is_intercepted :
  reverseUrlMap (parseDNS ["*.example.com"%string] newServer) !! "example.com"%string = None
  /\ isReverse (parseDNS ["*.example.com"%string] newServer) "example.com" = true.
Proof. split; vm_compute; reflexivity. Qed.

(** C1, as amended: a wildcard line [*.d] of the hosts file, for a
    suffix [d] of at least two labels that does not end in a dot, makes
    [isReverse] answer true for every host [p.d] (so for [a.d] and
    [a.b.d]) and also for [d] itself, whether or not [d] is listed
    exactly: the loop tests the whole host against the wildcard set
    before it strips the first label. *)
Theorem wildcard_matches_subdomains_and_apex
    (lines : list string) (s0 : wsServer) (p d : string) :
  In (String "*" (String "." d)) lines ->
  (2 <= length (Split "." d))%nat ->
  hasTrailingDot d = false ->
  isReverse (parseDNS lines s0) (p +:+ String "." d) = true
  /\ isReverse (parseDNS lines s0) d = true.
Proof.
  intros Hin Hlabels Hdot.
  assert (Hne : d <> EmptyString).
  { intros ->. simpl in Hlabels. lia. }
  pose proof (parseDNS_wildcard lines s0 d Hne Hin) as Hsome.
  assert (Hjoin : is_Some (reversePrefix (parseDNS lines s0) !! Join "." (Split "." d))).
  { now rewrite Join_Split. }
  split; unfold isReverse.
  - rewrite stripDot_id by (rewrite hasTrailingDot_app; assumption).
    destruct (bool_decide _); [reflexivity|].
    rewrite Split_app. apply suffixLoop_app; assumption.
  - rewrite stripDot_id by assumption.
    destruct (bool_decide _); [reflexivity|].
    apply (suffixLoop_app _ [] _ Hlabels Hjoin).
Qed.

Lemma wildcard_matches_subdomains_and_apex_witness :
  isReverse (parseDNS ["*.example.com"%string] newServer) "a.b.example.com" = true
  /\ isReverse (parseDNS ["*.example.com"%string] newServer) "example.com" = true.
Proof.
  apply (wildcard_matches_subdomains_and_apex
           ["*.example.com"%string] newServer "a.b" "example.com").
  - left. reflexivity.
  - vm_compute. lia.
  - vm_compute. reflexivity.
Defined.

Example wildcard_one_label_subdomain :
  isReverse (parseDNS ["*.example.com"%string] newServer) "a.example.com" = true.
Proof. vm_compute. reflexivity. Qed.

(** A wildcard over a single label never matches: the loop stops before
    it tests a one-label suffix. *)
Example wildcard_single_label_suffix :
  isReverse (parseDNS ["*.com"%string] newServer) "a.com" = false.
Proof. vm_compute. reflexivity. Qed.

(** C9, counterexample: a hosts-file line in FQDN form, [example.com.],
    is stored in the exact set with its dot; the lookup strips the dot
    from the queried name first and so misses the entry. *)
Lemma exact_member_with_dot_is_missed :
  is_Some (reverseUrlMap (parseDNS ["example.com."%string] newServer) !! "example.com."%string)
  /\ isReverse (parseDNS ["example.com."%string] newServer) "example.com." = false.
Proof. split; [eexists|]; vm_compute; reflexivity. Qed.

(** C9, as amended: for every member [h] of the exact set that does not
    itself end in a dot, [isReverse h] is true; and for every member [h]
    of the exact set, [isReverse] of [h] followed by one dot is true. *)
Theorem exact_member_is_intercepted (s : wsServer) (h : string) :
  is_Some (reverseUrlMap s !! h) ->
  (hasTrailingDot h = false -> isReverse s h = true)
  /\ isReverse s (h +:+ ".") = true.
Proof.
  intros Hin. split; [intros Hdot|]; unfold isReverse.
  - rewrite stripDot_id by assumption.
    now rewrite bool_decide_eq_true_2.
  - rewrite stripDot_dot. now rewrite bool_decide_eq_true_2.
Qed.

Lemma exact_member_is_intercepted_witness :
  isReverse (parseDNS ["plain.org"%string] newServer) "plain.org" = true
  /\ isReverse (parseDNS ["plain.org"%string] newServer) "plain.org." = true.
Proof.
  destruct (exact_member_is_intercepted
              (parseDNS ["plain.org"%string] newServer) "plain.org") as [H1 H2].
  - eexists. vm_compute. reflexivity.
  - split; [apply H1; vm_compute; reflexivity | exact H2].
Defined.

End MatchTable.

(** ** WebSocket relay: ping/pong forwarding *)

Section RelayFacts.
Import Relay.

(** C8: run on a ping or pong frame while the direction's completion
    channel is open, the handler returns [nil] and leaves the channel
    open when the forwarding write succeeds or fails with
    [ErrCloseSent] or with a temporary [net.Error]; for every other
    error of the write it closes the channel and returns that error. *)
Theorem pf_closes_channel_on_fatal_write_error
    (WriteControl : controlWrite -> option error) (msg : Z)
    (message : string) (now : Z) :
  match WriteControl {| cw_messageType := msg; cw_data := message;
                        cw_deadline := now + Second |} with
  | None => pf WriteControl msg message now Open = Ok (None, Open)
  | Some e =>
      if swallowed e
      then pf WriteControl msg message now Open = Ok (None, Open)
      else pf WriteControl msg message now Open = Ok (Some e, Closed)
  end.
Proof.
  unfold pf.
  destruct (WriteControl _) as [[|[] text|text]|]; reflexivity.
Qed.

(** The write goes to the far connection with a deadline one second
    after [now] and carries the frame's type and payload. *)
Example pf_forwards_ping :
  pf (fun w => if (cw_messageType w =? PingMessage)
                  && String.eqb (cw_data w) "hello"
                  && (cw_deadline w =? 5 + 1000000000)
               then None else Some (OtherError "unexpected write"))
     PingMessage "hello" 5 Open = Ok (None, Open).
Proof. reflexivity. Qed.

End RelayFacts.

(** ** Reverse proxy: response headers *)

Section ProxyFacts.
Import Proxy.

Lemma Header_Add_other (key v n : string) (h : gmap string (list string)) :
  CanonicalMIMEHeaderKey key = key -> n <> key ->
  Header_Add key v h !! n = h !! n.
Proof.
  intros Hc Hne. unfold Header_Add. cbv zeta. rewrite Hc.
  apply lookup_insert_ne. congruence.
Qed.

Lemma add_values_other (key n : string) (vs : list string)
    (h : gmap string (list string)) :
  CanonicalMIMEHeaderKey key = key -> n <> key ->
  fold_left (fun h v => Header_Add key v h) vs h !! n = h !! n.
Proof.
  intros Hc Hne. revert h. induction vs as [|v vs IH]; intros h; simpl; [reflexivity|].
  rewrite IH. now apply Header_Add_other.
Qed.

(** A filtered name that is not in the writer's header before the copy
    is not in it afterwards. *)
Lemma copyResponseHeader_filters (resp : Response) (n : string)
    (h0 : gmap string (list string)) :
  (forall kv, In kv (resp_Header resp) -> CanonicalMIMEHeaderKey kv.1 = kv.1) ->
  is_Some (hopHeaders !! n) ->
  h0 !! n = None ->
  copyResponseHeader h0 resp !! n = None.
Proof.
  unfold copyResponseHeader. intros Hcanon Hhop.
  revert h0. induction (resp_Header resp) as [|kv l IH]; intros h0 H0; simpl; [exact H0|].
  apply IH.
  - intros kv' Hin. apply Hcanon. now right.
  - destruct (bool_decide (is_Some (hopHeaders !! kv.1))) eqn:E; [exact H0|].
    rewrite add_values_other; [exact H0 | apply Hcanon; now left |].
    intros ->. apply bool_decide_eq_false in E. contradiction.
Qed.

Lemma hopOnly_filtered (n : string) : In n hopOnly -> is_Some (hopHeaders !! n).
Proof.
  unfold hopOnly. simpl.
  intros H; repeat (destruct H as [<-|H]; [eexists; vm_compute; reflexivity|]).
  destruct H.
Qed.

(** C6: for a request that is no WebSocket upgrade and whose round trip
    succeeds (with header keys in canonical form, as the transport
    delivers them), the handler writes the upstream status and body;
    the header it writes holds none of the eight filtered names
    Connection, Proxy-Connection, Keep-Alive, Proxy-Authenticate,
    Proxy-Authorization, Te, Trailer and Upgrade, and of Content-Length
    and Transfer-Encoding it holds exactly one, with the handler's own
    value and nothing copied from upstream: the decimal
    [ContentLength] when that is positive, and [chunked] otherwise. *)
Theorem ServeHTTP_filters_hop_headers (r : Request) (resp : Response) :
  Header_Get "Upgrade" (req_Header r) <> "websocket"%string ->
  (forall kv, In kv (resp_Header resp) -> CanonicalMIMEHeaderKey kv.1 = kv.1) ->
  exists h : gmap string (list string),
    ServeHTTP r (inl resp) = Written (StatusCode resp) h (resp_Body resp)
    /\ (forall n, In n hopOnly -> h !! n = None)
    /\ (if 0 <? ContentLength resp
        then h !! "Content-Length"%string = Some [Itoa (ContentLength resp)]
             /\ h !! "Transfer-Encoding"%string = None
        else h !! "Transfer-Encoding"%string = Some ["chunked"%string]
             /\ h !! "Content-Length"%string = None).
Proof.
  intros Hup Hcanon. unfold ServeHTTP.
  apply String.eqb_neq in Hup. rewrite Hup.
  assert (Hnone : forall n, is_Some (hopHeaders !! n) ->
                            copyResponseHeader ∅ resp !! n = None).
  { intros n Hn. apply copyResponseHeader_filters; [exact Hcanon | exact Hn |].
    apply lookup_empty. }
  assert (Hcl : is_Some (hopHeaders !! "Content-Length"%string))
    by (eexists; vm_compute; reflexivity).
  assert (Hte : is_Some (hopHeaders !! "Transfer-Encoding"%string))
    by (eexists; vm_compute; reflexivity).
  eexists. split; [reflexivity|]. split.
  - intros n Hn.
    assert (n <> "Content-Length"%string /\ n <> "Transfer-Encoding"%string) as [N1 N2].
    { unfold hopOnly in Hn. simpl in Hn.
      repeat (destruct Hn as [<-|Hn]; [split; discriminate|]). destruct Hn. }
    destruct (0 <? ContentLength resp); unfold Header_Set;
      (rewrite lookup_insert_ne; [apply Hnone, hopOnly_filtered, Hn|]).
    + change (CanonicalMIMEHeaderKey "Content-Length") with "Content-Length"%string.
      congruence.
    + change (CanonicalMIMEHeaderKey "Transfer-Encoding") with "Transfer-Encoding"%string.
      congruence.
  - destruct (0 <? ContentLength resp); unfold Header_Set.
    + change (CanonicalMIMEHeaderKey "Content-Length") with "Content-Length"%string.
      split; [apply lookup_insert_eq|].
      rewrite lookup_insert_ne by discriminate. now apply Hnone.
    + change (CanonicalMIMEHeaderKey "Transfer-Encoding") with "Transfer-Encoding"%string.
      split; [apply lookup_insert_eq|].
      rewrite lookup_insert_ne by discriminate. now apply Hnone.
Qed.

Lemma ServeHTTP_filters_hop_headers_witness :
  exists h : gmap string (list string),
    ServeHTTP {| req_Header := ∅; req_Host := "example.com" |}
      (inl {| StatusCode := 200;
              resp_Header := [("Connection", ["close"]);
                              ("Content-Type", ["text/html"]);
                              ("Content-Length", ["999"])]%string;
              ContentLength := 5;
              resp_Body := [] |})
    = Written 200 h []
    /\ h !! "Connection"%string = None
    /\ h !! "Content-Length"%string = Some ["5"%string]
    /\ h !! "Transfer-Encoding"%string = None.
Proof.
  destruct (ServeHTTP_filters_hop_headers
              {| req_Header := ∅; req_Host := "example.com" |}
              {| StatusCode := 200;
                 resp_Header := [("Connection", ["close"]);
                                 ("Content-Type", ["text/html"]);
                                 ("Content-Length", ["999"])]%string;
                 ContentLength := 5;
                 resp_Body := [] |}) as (h & Heq & Hhop & Hlen).
  - vm_compute. discriminate.
  - intros kv [<-|[<-|[<-|[]]]]; vm_compute; reflexivity.
  - exists h. split; [exact Heq|]. split; [apply Hhop; left; reflexivity|].
    exact Hlen.
Defined.

(** The headers that are not filtered are copied with all their values. *)
Example ServeHTTP_copies_other_headers :
  match ServeHTTP {| req_Header := ∅; req_Host := "example.com" |}
      (inl {| StatusCode := 200;
              resp_Header := [("Connection", ["close"]);
                              ("Set-Cookie", ["a=1"; "b=2"]);
                              ("Content-Length", ["999"])]%string;
              ContentLength := 0;
              resp_Body := [] |}) with
  | Written _ h _ =>
      h !! "Set-Cookie"%string = Some ["a=1"; "b=2"]%string
      /\ h !! "Transfer-Encoding"%string = Some ["chunked"%string]
  | Upgraded => False
  end.
Proof. vm_compute. split; reflexivity. Qed.

End ProxyFacts.

(** ** The ledger: positions and swaps *)

Section LedgerBasics.
Import Dns Inv.

Lemma at_index_Some (l : list entry) (i : Z) (e : entry) :
  at_index l i = Some e <-> 0 <= i /\ l !! Z.to_nat i = Some e.
Proof.
  unfold at_index. destruct (Z.leb_spec 0 i); split.
  - auto.
  - now intros [_ H'].
  - discriminate.
  - intros [H' _]. lia.
Qed.

Lemma at_index_range (l : list entry) (i : Z) (e : entry) :
  at_index l i = Some e -> 0 <= i < Z.of_nat (length l).
Proof.
  intros [H0 H]%at_index_Some. apply lookup_lt_Some in H. lia.
Qed.

Lemma at_index_is_Some (l : list entry) (i : Z) :
  0 <= i < Z.of_nat (length l) -> exists e, at_index l i = Some e.
Proof.
  intros [H0 H1].
  destruct (lookup_lt_is_Some_2 l (Z.to_nat i)) as [e He]; [lia|].
  exists e. apply at_index_Some. auto.
Qed.

Lemma at_index_None (l : list entry) (i : Z) :
  ~ (0 <= i < Z.of_nat (length l)) -> at_index l i = None.
Proof.
  intros H. destruct (at_index l i) as [e|] eqn:E; [|reflexivity].
  apply at_index_range in E. contradiction.
Qed.

Lemma at_index_elem (l : list entry) (i : Z) (e : entry) :
  at_index l i = Some e -> In e l.
Proof.
  intros [_ H]%at_index_Some. apply list_elem_of_In.
  eapply list_elem_of_lookup_2, H.
Qed.

Lemma In_at_index (l : list entry) (e : entry) :
  In e l -> exists i, at_index l i = Some e.
Proof.
  intros H%list_elem_of_In. apply list_elem_of_lookup_1 in H as [i Hi].
  exists (Z.of_nat i). apply at_index_Some. split; [lia|].
  now rewrite Nat2Z.id.
Qed.

Lemma at_index_app_l (l : list entry) (x : entry) (i : Z) :
  i < Z.of_nat (length l) -> at_index (l ++ [x]) i = at_index l i.
Proof.
  intros H. unfold at_index. destruct (0 <=? i) eqn:E; [|reflexivity].
  apply Z.leb_le in E. apply lookup_app_l. lia.
Qed.

Lemma at_index_app_last (l : list entry) (x : entry) :
  at_index (l ++ [x]) (Z.of_nat (length l)) = Some x.
Proof.
  apply at_index_Some. split; [lia|]. rewrite Nat2Z.id.
  rewrite lookup_app_r by lia. now rewrite Nat.sub_diag.
Qed.

Lemma at_index_take (l : list entry) (n i : Z) :
  0 <= n -> i < n -> at_index (take (Z.to_nat n) l) i = at_index l i.
Proof.
  intros Hn H. unfold at_index. destruct (0 <=? i) eqn:E; [|reflexivity].
  apply Z.leb_le in E. apply lookup_take_lt. lia.
Qed.

(** Writing [a] over a position that held [b], next to a [b] in front. *)
Lemma insert_move_perm (t : list entry) (j : nat) (a b : entry) :
  t !! j = Some b -> b :: <[j := a]> t ≡ₚ a :: t.
Proof.
  revert j. induction t as [|x t IH]; intros j H; [destruct j; discriminate|].
  destruct j as [|j]; simpl in *.
  - injection H as ->. apply perm_swap.
  - rewrite (perm_swap x b). rewrite (IH j H). apply perm_swap.
Qed.

Lemma swap_list_perm (l : list entry) (i j : nat) (a b : entry) :
  l !! i = Some a -> l !! j = Some b ->
  <[j := a]> (<[i := b]> l) ≡ₚ l.
Proof.
  revert i j. induction l as [|x l IH]; intros i j Hi Hj; [destruct i; discriminate|].
  destruct i as [|i], j as [|j]; simpl in *.
  - injection Hi as ->. injection Hj as ->. reflexivity.
  - injection Hi as ->. now apply insert_move_perm.
  - injection Hj as ->. now apply insert_move_perm.
  - f_equiv. now apply IH.
Qed.

(** What [Swap] does, for positions in range. *)
Lemma Swap_ok (h : DnsProxy) (i j : Z) (ei ej : entry) :
  at_index (entries h) i = Some ei -> at_index (entries h) j = Some ej ->
  exists h', Swap i j h = Ok (tt, h')
    /\ length (entries h') = length (entries h)
    /\ entries h' ≡ₚ entries h
    /\ indices h' = <[entry_sid ei := j]> (<[entry_sid ej := i]> (indices h))
    /\ chWakeUp h' = chWakeUp h /\ same_config h h'
    /\ (forall k, at_index (entries h') k =
                  if decide (k = j) then Some ei
                  else if decide (k = i) then Some ej
                  else at_index (entries h) k).
Proof.
  intros Hi Hj. unfold Swap. rewrite Hi, Hj. eexists. split; [reflexivity|].
  pose proof (at_index_range _ _ _ Hi) as Ri.
  pose proof (at_index_range _ _ _ Hj) as Rj.
  apply at_index_Some in Hi as [Hi0 Hi]. apply at_index_Some in Hj as [Hj0 Hj].
  simpl. repeat split.
  - now rewrite !length_insert.
  - now apply swap_list_perm.
  - intros k. unfold at_index.
    destruct (decide (k = j)) as [->|Nj].
    + replace (0 <=? j) with true by (symmetry; apply Z.leb_le; lia).
      apply list_lookup_insert_eq. rewrite length_insert. lia.
    + destruct (0 <=? k) eqn:E.
      * apply Z.leb_le in E.
        rewrite list_lookup_insert_ne by lia.
        destruct (decide (k = i)) as [->|Ni].
        -- apply list_lookup_insert_eq. lia.
        -- apply list_lookup_insert_ne. lia.
      * apply Z.leb_gt in E. destruct (decide (k = i)); [lia | reflexivity].
Qed.

Lemma Swap_in_range (h : DnsProxy) (i j : Z) :
  0 <= i < Z.of_nat (length (entries h)) ->
  0 <= j < Z.of_nat (length (entries h)) ->
  exists h', Swap i j h = Ok (tt, h').
Proof.
  intros [ei Hi]%at_index_is_Some [ej Hj]%at_index_is_Some.
  destruct (Swap_ok h i j ei ej Hi Hj) as (h' & H & _). eauto.
Qed.

Lemma Swap_inv (h h' : DnsProxy) (i j : Z) :
  Swap i j h = Ok (tt, h') ->
  exists ei ej, at_index (entries h) i = Some ei
             /\ at_index (entries h) j = Some ej.
Proof.
  unfold Swap. destruct (at_index (entries h) i) as [ei|]; [|discriminate].
  destruct (at_index (entries h) j) as [ej|]; [|discriminate]. eauto.
Qed.

Lemma Swap_sound_at (s : Z) (h h' : DnsProxy) (i j : Z) :
  Swap i j h = Ok (tt, h') -> sound_at s h -> sound_at s h'.
Proof.
  intros HS Hs. destruct (Swap_inv _ _ _ _ HS) as (ei & ej & Hi & Hj).
  destruct (Swap_ok h i j ei ej Hi Hj) as (h2 & HS2 & _ & _ & Hix & _ & _ & Hat).
  rewrite HS in HS2. injection HS2 as <-.
  intros k Hk. rewrite Hix in Hk. rewrite Hat.
  destruct (decide (entry_sid ei = s)) as [Es|Ns].
  { subst s. rewrite lookup_insert_eq in Hk. injection Hk as <-.
    rewrite decide_True by reflexivity. eauto. }
  rewrite lookup_insert_ne in Hk by exact Ns.
  destruct (decide (entry_sid ej = s)) as [Es|Ns'].
  { subst s. rewrite lookup_insert_eq in Hk. injection Hk as <-.
    destruct (decide (i = j)) as [->|Nij]; [|rewrite decide_True by reflexivity; eauto].
    congruence. }
  rewrite lookup_insert_ne in Hk by exact Ns'.
  destruct (Hs k Hk) as (e & He & Hes).
  destruct (decide (k = j)) as [->|Nj]; [congruence|].
  destruct (decide (k = i)) as [->|Ni]; [congruence|]. eauto.
Qed.

Lemma Swap_index_sound (h h' : DnsProxy) (i j : Z) :
  Swap i j h = Ok (tt, h') -> index_sound h -> index_sound h'.
Proof. intros HS Hs s. eapply Swap_sound_at; eauto. Qed.

Lemma Swap_index_present (s : Z) (h h' : DnsProxy) (i j : Z) :
  Swap i j h = Ok (tt, h') ->
  is_Some (indices h !! s) -> is_Some (indices h' !! s).
Proof.
  intros HS Hs. destruct (Swap_inv _ _ _ _ HS) as (ei & ej & Hi & Hj).
  destruct (Swap_ok h i j ei ej Hi Hj) as (h2 & HS2 & _ & _ & Hix & _).
  rewrite HS in HS2. injection HS2 as <-. rewrite Hix.
  rewrite !lookup_insert_is_Some.
  destruct (decide (entry_sid ei = s)); [now left|].
  destruct (decide (entry_sid ej = s)); [right; split; [assumption | now left]|].
  right. split; [assumption|]. right. split; assumption.
Qed.

Lemma Swap_index_complete (h h' : DnsProxy) (i j : Z) :
  Swap i j h = Ok (tt, h') -> index_complete h -> index_complete h'.
Proof.
  intros HS Hc. destruct (Swap_inv _ _ _ _ HS) as (ei & ej & Hi & Hj).
  destruct (Swap_ok h i j ei ej Hi Hj) as (h2 & HS2 & _ & _ & Hix & _ & _ & Hat).
  rewrite HS in HS2. injection HS2 as <-.
  intros k e Hk. rewrite Hat in Hk. rewrite Hix.
  destruct (decide (k = j)) as [->|Nj].
  { injection Hk as <-. apply lookup_insert_eq. }
  destruct (decide (k = i)) as [->|Ni].
  { injection Hk as <-.
    rewrite lookup_insert_ne; [apply lookup_insert_eq|].
    intros Es. apply Hc in Hi, Hj. congruence. }
  pose proof (Hc _ _ Hk) as Hke.
  rewrite !lookup_insert_ne; [exact Hke | |].
  - intros Es. apply Hc in Hj. congruence.
  - intros Es. apply Hc in Hi. congruence.
Qed.

End LedgerBasics.

Section LedgerSwaps.
Import Dns Inv.

Lemma parent_root : parent 0 = 0.
Proof. reflexivity. Qed.

Lemma parent_pos (j : Z) :
  0 < j -> 0 <= parent j < j /\ (j = 2 * parent j + 1 \/ j = 2 * parent j + 2).
Proof.
  intros Hj. unfold parent. rewrite Z.quot_div_nonneg by lia.
  pose proof (Z.div_mod (j - 1) 2 ltac:(lia)) as Hdm.
  pose proof (Z.mod_pos_bound (j - 1) 2 ltac:(lia)) as Hb.
  lia.
Qed.

Lemma parent_child (i c : Z) :
  0 <= i -> (c = 2 * i + 1 \/ c = 2 * i + 2) -> parent c = i.
Proof.
  intros Hi Hc.
  destruct (parent_pos c ltac:(lia)) as [Hr Hp]. lia.
Qed.

Lemma swaps_mono (n m : Z) (h h' : DnsProxy) :
  n <= m -> swaps n h h' -> swaps m h h'.
Proof.
  intros Hnm H. induction H as [h|h i j h1 h2 Hi Hj HS _ IH].
  - apply swaps_refl.
  - apply (swaps_step m h i j h1 h2); [lia | lia | exact HS | exact IH].
Qed.

Lemma swaps_trans (n : Z) (h1 h2 h3 : DnsProxy) :
  swaps n h1 h2 -> swaps n h2 h3 -> swaps n h1 h3.
Proof.
  intros H12. induction H12 as [h|h i j ha hb Hi Hj HS _ IH]; intros H23; [exact H23|].
  apply (swaps_step n h i j ha h3 Hi Hj HS). apply IH, H23.
Qed.

(** What a run of swaps below [n] keeps. *)
Lemma swaps_keep (n : Z) (h h' : DnsProxy) :
  swaps n h h' ->
  length (entries h') = length (entries h)
  /\ entries h' ≡ₚ entries h
  /\ (index_sound h -> index_sound h')
  /\ (index_complete h -> index_complete h')
  /\ chWakeUp h' = chWakeUp h /\ same_config h h'
  /\ (forall k, n <= k -> at_index (entries h') k = at_index (entries h) k).
Proof.
  induction 1 as [h|h i j h1 h2 Hi Hj HS _ IH].
  - unfold same_config. repeat split; auto.
  - destruct IH as (L & P & S & C & W & (G1 & G2 & G3) & A).
    destruct (Swap_inv _ _ _ _ HS) as (ei & ej & Ei & Ej).
    destruct (Swap_ok h i j ei ej Ei Ej)
      as (h1' & HS' & L1 & P1 & _ & W1 & (F1 & F2 & F3) & A1).
    rewrite HS in HS'. injection HS' as <-.
    unfold same_config. repeat split.
    + congruence.
    + now rewrite P.
    + intros Hs. apply S. eapply Swap_index_sound; eauto.
    + intros Hc. apply C. eapply Swap_index_complete; eauto.
    + congruence.
    + congruence.
    + congruence.
    + congruence.
    + intros k Hk. rewrite A by exact Hk. rewrite A1.
      rewrite !decide_False by lia. reflexivity.
Qed.

Lemma swaps_sound_at (n s : Z) (h h' : DnsProxy) :
  swaps n h h' ->
  (sound_at s h -> sound_at s h')
  /\ (is_Some (indices h !! s) -> is_Some (indices h' !! s)).
Proof.
  induction 1 as [h|h i j h1 h2 Hi Hj HS _ [IH1 IH2]]; [auto|].
  split; intros H.
  - apply IH1. eapply Swap_sound_at; eauto.
  - apply IH2. eapply Swap_index_present; eauto.
Qed.

Lemma Less_ok (h : DnsProxy) (i j : Z) (ei ej : entry) :
  at_index (entries h) i = Some ei -> at_index (entries h) j = Some ej ->
  Less i j h = Ok (entry_ts ei <? entry_ts ej, h).
Proof. intros Hi Hj. unfold Less. now rewrite Hi, Hj. Qed.

Lemma ordered_up_inv (n : Z) (l : list entry) (j : Z) :
  n <= Z.of_nat (length l) -> ordered_upto n l -> up_inv n l j.
Proof.
  intros Hn Ho. split.
  - intros k Hk _. now apply Ho.
  - intros c e p Hj Hc Hpc Hce Hp.
    destruct (parent_pos j Hj) as [Rj _].
    destruct (at_index_is_Some l j ltac:(destruct (parent_pos c ltac:(lia)); lia))
      as [ej Hej].
    pose proof (Ho c Hc e ej Hce) as H1. rewrite Hpc in H1. specialize (H1 Hej).
    pose proof (Ho j ltac:(destruct (parent_pos c ltac:(lia)); lia) ej p Hej Hp) as H2.
    lia.
Qed.

(** One sift-up step keeps the invariant of [up], one level higher. *)
Lemma up_inv_step (n : Z) (l l1 : list entry) (j : Z) (ei ej : entry) :
  0 < j < n ->
  at_index l (parent j) = Some ei -> at_index l j = Some ej ->
  entry_ts ej < entry_ts ei ->
  (forall k, at_index l1 k =
             if decide (k = j) then Some ei
             else if decide (k = parent j) then Some ej
             else at_index l k) ->
  up_inv n l j -> up_inv n l1 (parent j).
Proof.
  intros Hj Hi Hjj Hlt Hat [E G].
  destruct (parent_pos j ltac:(lia)) as [Ri Ci].
  split.
  - intros k Hk Hki e p He Hp. rewrite Hat in He, Hp.
    destruct (decide (k = j)) as [->|Nkj].
    + injection He as <-.
      rewrite decide_False in Hp by lia. rewrite decide_True in Hp by reflexivity.
      injection Hp as <-. lia.
    + rewrite decide_False in He by exact Hki.
      destruct (parent_pos k ltac:(lia)) as [Rk Ck].
      destruct (decide (parent k = j)) as [Epk|Npk].
      * injection Hp as <-. apply (G k e ei); auto; lia.
      * destruct (decide (parent k = parent j)) as [Epk|Npk'].
        -- injection Hp as <-.
           pose proof (E k Hk Nkj e ei He) as H1. rewrite Epk in H1.
           specialize (H1 Hi). lia.
        -- apply (E k Hk Nkj e p He Hp).
  - intros c e p Hi0 Hc Hpc He Hp. rewrite Hat in He, Hp.
    destruct (parent_pos (parent j) Hi0) as [Rp Cp].
    rewrite !decide_False in Hp by lia.
    destruct (decide (c = j)) as [->|Ncj].
    + injection He as <-. apply (E (parent j) ltac:(lia) ltac:(lia) ei p Hi Hp).
    + rewrite decide_False in He by (destruct (parent_pos c ltac:(lia)); lia).
      pose proof (E c Hc Ncj e ei He) as H1. rewrite Hpc in H1. specialize (H1 Hi).
      pose proof (E (parent j) ltac:(lia) ltac:(lia) ei p Hi Hp) as H2. lia.
Qed.

(** [up] returns; it swaps at or below [j] only, and sifts the entry at
    [j] into place. *)
Lemma up_loop_spec (fuel : nat) :
  forall (j : Z) (h : DnsProxy),
    0 <= j < Z.of_nat (length (entries h)) ->
    (Z.to_nat j < fuel)%nat ->
    exists h', heap.up_loop fuel j h = Ok (tt, h')
      /\ swaps (j + 1) h h'
      /\ (forall n, j < n <= Z.of_nat (length (entries h)) ->
            up_inv n (entries h) j -> ordered_upto n (entries h')).
Proof.
  induction fuel as [|fuel IH]; intros j h Hj Hf; [lia|].
  simpl heap.up_loop. change (Z.quot (j - 1) 2) with (parent j).
  destruct (Z.eqb_spec (parent j) j) as [Epj|Npj].
  - exists h. split; [reflexivity|]. split; [apply swaps_refl|].
    intros n Hn [E _] k Hk. apply E; [exact Hk|].
    assert (j = 0) by (destruct (Z_lt_le_dec 0 j) as [Hp|]; [apply parent_pos in Hp|]; lia).
    lia.
  - assert (Hjpos : 0 < j).
    { destruct (Z.eq_dec j 0) as [->|]; [rewrite parent_root in Npj|]; lia. }
    destruct (parent_pos j Hjpos) as [Ri Ci].
    destruct (at_index_is_Some (entries h) j Hj) as [ej Hej].
    destruct (at_index_is_Some (entries h) (parent j) ltac:(lia)) as [ei Hei].
    bind_step (Less_ok h j (parent j) ej ei Hej Hei).
    destruct (Z.ltb_spec (entry_ts ej) (entry_ts ei)) as [Hlt|Hge]; cbn [negb]; cbv iota.
    + destruct (Swap_ok h (parent j) j ei ej Hei Hej)
        as (h1 & HS & L1 & P1 & _ & _ & _ & Hat).
      unfold bind. rewrite HS. cbv beta iota.
      destruct (IH (parent j) h1 ltac:(lia) ltac:(lia)) as (h' & Hup & Hsw & Hord).
      exists h'. split; [exact Hup|]. split.
      * eapply swaps_step; [| |exact HS|]; [lia | lia |].
        eapply swaps_mono; [|exact Hsw]. lia.
      * intros n Hn Hinv. apply Hord; [lia|].
        eapply up_inv_step; eauto. lia.
    + exists h. split; [reflexivity|]. split; [apply swaps_refl|].
      intros n Hn [E _] k Hk.
      destruct (Z.eq_dec k j) as [->|Nk]; [|now apply E].
      intros e p He Hp. rewrite Hej in He. rewrite Hei in Hp.
      injection He as <-. injection Hp as <-. lia.
Qed.

End LedgerSwaps.

Section LedgerSiftDown.
Import Dns Inv.

(** The choice of the smaller child in [down]. *)
Lemma pick_child (h : DnsProxy) (i n : Z) :
  0 <= i -> 2 * i + 1 < n <= Z.of_nat (length (entries h)) ->
  exists lt21 j ej,
    (if 2 * i + 1 + 1 <? n then Less (2 * i + 1 + 1) (2 * i + 1) else ret false) h
      = Ok (lt21, h)
    /\ j = (if lt21 then 2 * i + 1 + 1 else 2 * i + 1)
    /\ i < j < n /\ parent j = i
    /\ at_index (entries h) j = Some ej
    /\ (forall c e, 0 < c < n -> parent c = i ->
          at_index (entries h) c = Some e -> entry_ts ej <= entry_ts e).
Proof.
  intros Hi Hn.
  destruct (at_index_is_Some (entries h) (2 * i + 1) ltac:(lia)) as [e1 He1].
  assert (Hkids : forall c, 0 < c -> parent c = i -> c = 2 * i + 1 \/ c = 2 * i + 1 + 1).
  { intros c Hc Hp. destruct (parent_pos c Hc). lia. }
  destruct (Z.ltb_spec (2 * i + 1 + 1) n) as [H2|H2].
  - destruct (at_index_is_Some (entries h) (2 * i + 1 + 1) ltac:(lia)) as [e2 He2].
    rewrite (Less_ok h _ _ e2 e1 He2 He1).
    destruct (Z.ltb_spec (entry_ts e2) (entry_ts e1)) as [Hlt|Hge].
    + exists true, (2 * i + 1 + 1), e2. repeat split; try lia; auto.
      * apply parent_child; lia.
      * intros c e Hc Hp Hce. destruct (Hkids c ltac:(lia) Hp) as [->| ->];
          rewrite Hce in *; [injection He1 as <- | injection He2 as <-]; lia.
    + exists false, (2 * i + 1), e1. repeat split; try lia; auto.
      * apply parent_child; lia.
      * intros c e Hc Hp Hce. destruct (Hkids c ltac:(lia) Hp) as [->| ->];
          rewrite Hce in *; [injection He1 as <- | injection He2 as <-]; lia.
  - exists false, (2 * i + 1), e1. repeat split; try lia; auto.
    + apply parent_child; lia.
    + intros c e Hc Hp Hce. destruct (Hkids c ltac:(lia) Hp) as [->| ->]; [|lia].
      rewrite Hce in He1. injection He1 as <-. lia.
Qed.

(** When no child of [i] expires before it, the edges out of [i] are in
    order as well. *)
Lemma down_inv_done (n : Z) (l : list entry) (i : Z) :
  (forall c e p, 0 < c < n -> parent c = i ->
     at_index l c = Some e -> at_index l i = Some p -> entry_ts p <= entry_ts e) ->
  down_inv n l i -> ordered_upto n l.
Proof.
  intros Hkids [E _] k Hk.
  destruct (Z.eq_dec (parent k) i) as [Epk|Npk]; [|now apply E].
  intros e p He Hp. rewrite Epk in Hp. eapply Hkids; eauto.
Qed.

(** One sift-down step keeps the invariant of [down], one level lower. *)
Lemma down_inv_step (n : Z) (l l1 : list entry) (i j : Z) (ei ej : entry) :
  0 <= i -> i < j < n -> parent j = i ->
  at_index l i = Some ei -> at_index l j = Some ej ->
  entry_ts ej < entry_ts ei ->
  (forall c e, 0 < c < n -> parent c = i ->
     at_index l c = Some e -> entry_ts ej <= entry_ts e) ->
  (forall k, at_index l1 k =
             if decide (k = j) then Some ei
             else if decide (k = i) then Some ej
             else at_index l k) ->
  down_inv n l i -> down_inv n l1 j.
Proof.
  intros Hi Hj Hpj Hei Hej Hlt Hmin Hat [E G]. split.
  - intros k Hk Hpk e p He Hp. rewrite Hat in He, Hp.
    destruct (parent_pos k ltac:(lia)) as [Rk Ck].
    rewrite (decide_False (P := parent k = j)) in Hp by exact Hpk.
    destruct (decide (k = j)) as [->|Nkj].
    + injection He as <-. rewrite Hpj in Hp.
      rewrite decide_True in Hp by reflexivity. injection Hp as <-. lia.
    + destruct (decide (k = i)) as [->|Nki].
      * injection He as <-.
        rewrite decide_False in Hp by lia.
        apply (G j ej p); auto; lia.
      * destruct (decide (parent k = i)) as [Epk|Npk].
        -- injection Hp as <-. apply (Hmin k e); auto.
        -- apply (E k Hk Npk e p He Hp).
  - intros c e p Hj0 Hc Hpc He Hp. rewrite Hat in He, Hp.
    rewrite Hpj in Hp.
    rewrite decide_False in Hp by lia. rewrite decide_True in Hp by reflexivity.
    injection Hp as <-.
    destruct (parent_pos c ltac:(lia)) as [Rc Cc].
    rewrite !decide_False in He by lia.
    pose proof (E c Hc ltac:(lia) e ej He) as H1. rewrite Hpc in H1.
    apply H1, Hej.
Qed.

(** [down] returns; it swaps below [n] only, and sifts the entry at [i]
    into place among the first [n]. *)
Lemma down_loop_spec (fuel : nat) :
  forall (i0 i n : Z) (h : DnsProxy),
    0 <= i -> n <= Z.of_nat (length (entries h)) ->
    (Z.to_nat (n - i) < fuel)%nat ->
    exists b h', heap.down_loop fuel i0 i n h = Ok (b, h')
      /\ swaps n h h'
      /\ (down_inv n (entries h) i -> ordered_upto n (entries h')).
Proof.
  induction fuel as [|fuel IH]; intros i0 i n h Hi Hn Hf; [lia|].
  simpl heap.down_loop.
  destruct ((n <=? 2 * i + 1) || (2 * i + 1 <? 0)) eqn:Estop.
  - exists (i0 <? i), h. split; [reflexivity|]. split; [apply swaps_refl|].
    intros [E _] k Hk. apply E; [exact Hk|].
    apply orb_true_iff in Estop as [H|H]; [apply Z.leb_le in H | apply Z.ltb_lt in H; lia].
    destruct (parent_pos k ltac:(lia)). lia.
  - apply orb_false_iff in Estop as [H1 H2].
    apply Z.leb_gt in H1. apply Z.ltb_ge in H2.
    destruct (pick_child h i n Hi ltac:(lia))
      as (lt21 & j & ej & Hpick & Hjdef & Rj & Hpj & Hej & Hmin).
    destruct (at_index_is_Some (entries h) i ltac:(lia)) as [ei Hei].
    bind_step Hpick. rewrite <- Hjdef.
    bind_step (Less_ok h j i ej ei Hej Hei).
    destruct (Z.ltb_spec (entry_ts ej) (entry_ts ei)) as [Hlt|Hge]; cbn [negb]; cbv iota.
    + destruct (Swap_ok h i j ei ej Hei Hej)
        as (h1 & HS & L1 & P1 & _ & _ & _ & Hat).
      unfold bind. rewrite HS. cbv beta iota.
      destruct (IH i0 j n h1 ltac:(lia) ltac:(lia) ltac:(lia))
        as (b & h' & Hdown & Hsw & Hord).
      exists b, h'. split; [exact Hdown|]. split.
      * eapply swaps_step; [| |exact HS|exact Hsw]; lia.
      * intros Hinv. apply Hord.
        apply (down_inv_step n (entries h) (entries h1) i j ei ej
                 Hi Rj Hpj Hei Hej Hlt Hmin Hat Hinv).
    + exists (i0 <? i), h. split; [reflexivity|]. split; [apply swaps_refl|].
      apply down_inv_done.
      intros c e p Hc Hpc Hce Hp. rewrite Hei in Hp. injection Hp as <-.
      specialize (Hmin c e Hc Hpc Hce). lia.
Qed.

(** [down] leaves the heap as it is when no child of [i] expires before
    the entry at [i]. *)
Lemma down_loop_noop (fuel : nat) (i0 i n : Z) (h : DnsProxy) (ei : entry) :
  0 <= i -> n <= Z.of_nat (length (entries h)) ->
  at_index (entries h) i = Some ei ->
  (forall c e, 0 < c < n -> parent c = i ->
     at_index (entries h) c = Some e -> entry_ts ei <= entry_ts e) ->
  heap.down_loop (S fuel) i0 i n h = Ok (i0 <? i, h).
Proof.
  intros Hi Hn Hei Hkids. simpl heap.down_loop.
  destruct ((n <=? 2 * i + 1) || (2 * i + 1 <? 0)) eqn:Estop; [reflexivity|].
  apply orb_false_iff in Estop as [H1 H2].
  apply Z.leb_gt in H1. apply Z.ltb_ge in H2.
  destruct (pick_child h i n Hi ltac:(lia))
    as (lt21 & j & ej & Hpick & Hjdef & Rj & Hpj & Hej & Hmin).
  bind_step Hpick. rewrite <- Hjdef.
  bind_step (Less_ok h j i ej ei Hej Hei).
  specialize (Hkids j ej ltac:(lia) Hpj Hej).
  destruct (Z.ltb_spec (entry_ts ej) (entry_ts ei)) as [Hlt|Hge]; [lia|].
  reflexivity.
Qed.

End LedgerSiftDown.

(** ** The ledger: the methods and the heap operations *)

Section LedgerHeapOps.
Import Dns Inv.

Lemma same_config_refl (h : DnsProxy) : same_config h h.
Proof. unfold same_config. auto. Qed.

Lemma same_config_trans (h1 h2 h3 : DnsProxy) :
  same_config h1 h2 -> same_config h2 h3 -> same_config h1 h3.
Proof. unfold same_config. intros (A & B & C) (D & E & F). repeat split; congruence. Qed.

Lemma same_config_with_heap (h : DnsProxy) (es : list entry) (ix : gmap Z Z) :
  same_config h (with_heap h es ix).
Proof. unfold same_config. simpl. auto. Qed.

(** The method [Push]. *)
Lemma Push_spec (x : entry) (h : DnsProxy) :
  exists h', Dns.Push x h = Ok (tt, h')
    /\ entries h' = entries h ++ [x]
    /\ indices h' = <[entry_sid x := Z.of_nat (length (entries h))]> (indices h)
    /\ chWakeUp h' = chWakeUp h /\ same_config h h'.
Proof.
  eexists. split; [reflexivity|]. simpl. split; [reflexivity|].
  split; [|split; [reflexivity | apply same_config_with_heap]].
  f_equal. rewrite length_app. simpl. lia.
Qed.

Lemma Push_keeps (x : entry) (h h' : DnsProxy) :
  entries h' = entries h ++ [x] ->
  indices h' = <[entry_sid x := Z.of_nat (length (entries h))]> (indices h) ->
  (forall s, sound_at s h -> sound_at s h')
  /\ sound_at (entry_sid x) h'
  /\ is_Some (indices h' !! entry_sid x)
  /\ (index_complete h ->
      (forall e, In e (entries h) -> entry_sid e <> entry_sid x) ->
      index_complete h').
Proof.
  intros He Hi.
  assert (Hx : sound_at (entry_sid x) h').
  { intros i. rewrite Hi, He, lookup_insert_eq. intros [= <-].
    exists x. split; [apply at_index_app_last | reflexivity]. }
  split; [|split; [exact Hx|split]].
  - intros s Hs. destruct (decide (s = entry_sid x)) as [->|Ns]; [exact Hx|].
    intros i. rewrite Hi, He, lookup_insert_ne by congruence. intros Hk.
    destruct (Hs i Hk) as (e & Hat & Hes). exists e. split; [|exact Hes].
    rewrite at_index_app_l; [exact Hat|]. apply at_index_range in Hat. lia.
  - rewrite Hi, lookup_insert_eq. eauto.
  - intros Hc Hfresh i e. rewrite He, Hi. intros Hat.
    destruct (Z.eq_dec i (Z.of_nat (length (entries h)))) as [->|Ni].
    + rewrite at_index_app_last in Hat. injection Hat as <-. apply lookup_insert_eq.
    + pose proof (at_index_range _ _ _ Hat) as R. rewrite length_app in R. simpl in R.
      rewrite at_index_app_l in Hat by lia.
      rewrite lookup_insert_ne; [now apply Hc|].
      intros Es. apply (Hfresh e); [eapply at_index_elem; eauto | congruence].
Qed.

(** The method [Pop], on a heap of [n + 1] entries. *)
Lemma Pop_spec (h : DnsProxy) (x : entry) (n : Z) :
  Z.of_nat (length (entries h)) = n + 1 ->
  at_index (entries h) n = Some x ->
  exists h', Dns.Pop h = Ok (x, h')
    /\ entries h = entries h' ++ [x]
    /\ Z.of_nat (length (entries h')) = n
    /\ (forall k, k < n -> at_index (entries h') k = at_index (entries h) k)
    /\ indices h' = delete (entry_sid x) (indices h)
    /\ chWakeUp h' = chWakeUp h /\ same_config h h'.
Proof.
  intros Hlen Hat. unfold Dns.Pop. cbv zeta. rewrite Hlen.
  replace (n + 1 - 1) with n by lia. rewrite Hat.
  eexists. split; [reflexivity|]. simpl.
  pose proof (at_index_range _ _ _ Hat) as R.
  apply at_index_Some in Hat as [_ Hat].
  split; [|split; [|split; [|split; [reflexivity|split; [reflexivity|apply same_config_with_heap]]]]].
  - rewrite <- (take_drop_middle _ _ _ Hat) at 1.
    rewrite (drop_ge (entries h)) by lia. reflexivity.
  - rewrite length_take. lia.
  - intros k Hk. apply at_index_take; lia.
Qed.

Lemma Pop_keeps (h h' : DnsProxy) (x : entry) (n : Z) :
  Z.of_nat (length (entries h)) = n + 1 ->
  at_index (entries h) n = Some x ->
  Z.of_nat (length (entries h')) = n ->
  (forall k, k < n -> at_index (entries h') k = at_index (entries h) k) ->
  indices h' = delete (entry_sid x) (indices h) ->
  (forall s, sound_at s h -> sound_at s h')
  /\ (index_complete h -> index_complete h')
  /\ (ordered_upto n (entries h) -> heap_ordered (entries h'))
  /\ indices h' !! entry_sid x = None.
Proof.
  intros Hlen Hat Hlen' Hsame Hix. split; [|split; [|split]].
  - intros s Hs i. rewrite Hix. intros Hk.
    apply lookup_delete_Some in Hk as [Ns Hk].
    destruct (Hs i Hk) as (e & He & Hes). exists e. split; [|exact Hes].
    pose proof (at_index_range _ _ _ He) as R.
    rewrite Hsame; [exact He|].
    destruct (Z.eq_dec i n) as [->|]; [congruence | lia].
  - intros Hc i e Hi. pose proof (at_index_range _ _ _ Hi) as R.
    rewrite Hsame in Hi by lia. rewrite Hix.
    rewrite lookup_delete_ne; [now apply Hc|].
    intros Es. apply Hc in Hat, Hi. rewrite Es in Hat. rewrite Hat in Hi.
    injection Hi as ->. lia.
  - intros Ho k Hk e p He Hp. unfold heap_ordered in *. rewrite Hlen' in Hk.
    destruct (parent_pos k ltac:(lia)) as [Rk _].
    rewrite Hsame in He, Hp by lia. apply (Ho k Hk e p He Hp).
  - rewrite Hix. apply lookup_delete_eq.
Qed.

(** The root of an ordered heap expires first. *)
Lemma root_min (l : list entry) (r : entry) :
  heap_ordered l -> at_index l 0 = Some r ->
  forall k e, at_index l k = Some e -> entry_ts r <= entry_ts e.
Proof.
  intros Ho Hr.
  assert (H : forall (m : nat) k e, (Z.to_nat k <= m)%nat ->
                at_index l k = Some e -> entry_ts r <= entry_ts e).
  { induction m as [|m IH]; intros k e Hm He;
      pose proof (at_index_range _ _ _ He) as R.
    - assert (k = 0) as -> by lia. rewrite Hr in He. injection He as <-. lia.
    - destruct (Z.eq_dec k 0) as [->|Nk].
      + rewrite Hr in He. injection He as <-. lia.
      + destruct (parent_pos k ltac:(lia)) as [Rk _].
        destruct (at_index_is_Some l (parent k) ltac:(lia)) as [p Hp].
        pose proof (IH (parent k) p ltac:(lia) Hp) as H1.
        pose proof (Ho k ltac:(lia) e p He Hp) as H2. lia. }
  intros k e He. apply (H (Z.to_nat k) k e (Nat.le_refl _) He).
Qed.

(** [heap.Push]. *)
Lemma heap_Push_spec (x : entry) (h : DnsProxy) :
  exists h', heap.Push x h = Ok (tt, h')
    /\ entries h' ≡ₚ x :: entries h
    /\ (forall s, sound_at s h -> sound_at s h')
    /\ sound_at (entry_sid x) h'
    /\ is_Some (indices h' !! entry_sid x)
    /\ (index_complete h ->
        (forall e, In e (entries h) -> entry_sid e <> entry_sid x) ->
        index_complete h')
    /\ (heap_ordered (entries h) -> heap_ordered (entries h'))
    /\ chWakeUp h' = chWakeUp h /\ same_config h h'.
Proof.
  destruct (Push_spec x h) as (h1 & HP & He & Hi & Hw & Hcfg).
  destruct (Push_keeps x h h1 He Hi) as (K1 & K2 & K3 & K4).
  assert (Hlen1 : Z.of_nat (length (entries h1)) = Z.of_nat (length (entries h)) + 1).
  { rewrite He, length_app. simpl. lia. }
  destruct (up_loop_spec (S (Z.to_nat (Z.of_nat (length (entries h1)) - 1)))
              (Z.of_nat (length (entries h1)) - 1) h1 ltac:(lia) ltac:(lia))
    as (h' & Hup & Hsw & Hord).
  destruct (swaps_keep _ _ _ Hsw) as (L & P & _ & C & W & G & _).
  exists h'. split.
  { unfold heap.Push, bind. rewrite HP. cbv beta iota. unfold Len at 1.
    cbv beta iota. exact Hup. }
  split; [|split; [|split; [|split; [|split; [|split; [|split]]]]]].
  - rewrite P, He. symmetry. apply Permutation_cons_append.
  - intros s Hs. apply (swaps_sound_at _ s _ _ Hsw), K1, Hs.
  - apply (swaps_sound_at _ _ _ _ Hsw), K2.
  - apply (swaps_sound_at _ _ _ _ Hsw), K3.
  - intros Hc Hfresh. apply C, K4; assumption.
  - intros Ho. unfold heap_ordered. rewrite L.
    apply Hord; [lia|]. split.
    + intros k Hk Nk e p Hke Hp.
      destruct (parent_pos k ltac:(lia)) as [Rk _].
      rewrite He in Hke, Hp. rewrite at_index_app_l in Hke, Hp by lia.
      apply (Ho k ltac:(lia) e p Hke Hp).
    + intros c e p Hj Hc Hpc. destruct (parent_pos c ltac:(lia)). lia.
  - congruence.
  - eapply same_config_trans; eauto.
Qed.

(** [heap.Pop] on a heap that is not empty answers the root. *)
Lemma heap_Pop_spec (h : DnsProxy) (e0 : entry) :
  at_index (entries h) 0 = Some e0 ->
  exists h', heap.Pop h = Ok (e0, h')
    /\ entries h ≡ₚ e0 :: entries h'
    /\ (forall s, sound_at s h -> sound_at s h')
    /\ (index_complete h -> index_complete h')
    /\ (heap_ordered (entries h) -> heap_ordered (entries h'))
    /\ indices h' !! entry_sid e0 = None
    /\ chWakeUp h' = chWakeUp h /\ same_config h h'.
Proof.
  intros H0. pose proof (at_index_range _ _ _ H0) as R0.
  set (n := Z.of_nat (length (entries h)) - 1).
  destruct (at_index_is_Some (entries h) n ltac:(lia)) as [en Hen].
  destruct (Swap_ok h 0 n e0 en H0 Hen) as (h1 & HS & L1 & P1 & _ & W1 & G1 & Hat1).
  destruct (down_loop_spec (S (Z.to_nat n)) 0 0 n h1 ltac:(lia) ltac:(lia) ltac:(lia))
    as (b & h2 & Hdown & Hsw & Hord).
  destruct (swaps_keep _ _ _ Hsw) as (L2 & P2 & _ & C2 & W2 & G2 & A2).
  assert (Hlen2 : Z.of_nat (length (entries h2)) = n + 1) by lia.
  assert (Hn2 : at_index (entries h2) n = Some e0).
  { rewrite A2 by lia. rewrite Hat1. now rewrite decide_True. }
  destruct (Pop_spec h2 e0 n Hlen2 Hn2) as (h' & HPop & He & Hlen' & Hsame & Hix & W3 & G3).
  destruct (Pop_keeps h2 h' e0 n Hlen2 Hn2 Hlen' Hsame Hix) as (K1 & K2 & K3 & K4).
  exists h'. split.
  { unfold heap.Pop, bind. unfold Len at 1. cbv beta iota. fold n.
    rewrite HS. cbv beta iota. unfold heap.down. rewrite Hdown. cbv beta iota.
    exact HPop. }
  split; [|split; [|split; [|split; [|split; [exact K4|split]]]]].
  - rewrite <- P1, <- P2, He. symmetry. apply Permutation_cons_append.
  - intros s Hs. apply K1, (swaps_sound_at _ s _ _ Hsw).
    eapply Swap_sound_at; eauto.
  - intros Hc. apply K2, C2. eapply Swap_index_complete; eauto.
  - intros Ho. apply K3, Hord. split.
    + intros k Hk Npk e p Hke Hp.
      destruct (parent_pos k ltac:(lia)) as [Rk _].
      rewrite Hat1 in Hke, Hp.
      rewrite !decide_False in Hke by lia. rewrite !decide_False in Hp by lia.
      apply (Ho k ltac:(lia) e p Hke Hp).
    + intros c e p Hlt. lia.
  - congruence.
  - eapply same_config_trans; [exact G1|]. eapply same_config_trans; eauto.
Qed.

End LedgerHeapOps.

Section LedgerRemove.
Import Dns Inv.

Lemma ordered_upto_mono (n m : Z) (l : list entry) :
  n <= m -> ordered_upto m l -> ordered_upto n l.
Proof. intros Hnm Ho k Hk. apply Ho. lia. Qed.

(** After [Swap(i, n)] in [heap.Remove], the two sift calls put the
    first [n] entries in order again. *)
Lemma Remove_resift (h h1 : DnsProxy) (i n : Z) (ei en : entry) :
  Z.of_nat (length (entries h)) = n + 1 -> 0 <= i < n ->
  at_index (entries h) i = Some ei -> at_index (entries h) n = Some en ->
  length (entries h1) = length (entries h) ->
  (forall k, at_index (entries h1) k =
             if decide (k = n) then Some ei
             else if decide (k = i) then Some en
             else at_index (entries h) k) ->
  exists h3,
    (do moved <- heap.down i n;
     if negb moved then heap.up i else ret tt) h1 = Ok (tt, h3)
    /\ swaps n h1 h3
    /\ (heap_ordered (entries h) -> ordered_upto n (entries h3)).
Proof.
  intros Hlen Hi Hei Hen L1 Hat.
  destruct (down_loop_spec (S (Z.to_nat n)) i i n h1 ltac:(lia) ltac:(lia) ltac:(lia))
    as (b & h2 & Hdown & Hsw & Hord).
  destruct (swaps_keep _ _ _ Hsw) as (L2 & _).
  destruct (up_loop_spec (S (Z.to_nat i)) i h2 ltac:(lia) ltac:(lia))
    as (h3 & Hup & Hsw3 & Hord3).
  assert (Hi1 : at_index (entries h1) i = Some en).
  { rewrite Hat. rewrite decide_False by lia. now rewrite decide_True. }
  (* the entries that [Swap] left where they were *)
  assert (Hold : forall k, k <> i -> k < n ->
                   at_index (entries h1) k = at_index (entries h) k).
  { intros k N1 N2. rewrite Hat. now rewrite !decide_False by lia. }
  assert (Hgrand : heap_ordered (entries h) ->
            forall c e p, 0 < i -> 0 < c < n -> parent c = i ->
              at_index (entries h1) c = Some e ->
              at_index (entries h1) (parent i) = Some p ->
              entry_ts p <= entry_ts e).
  { intros Ho c e p Hi0 Hc Hpc Hce Hp.
    destruct (parent_pos c ltac:(lia)) as [Rc _].
    destruct (parent_pos i Hi0) as [Rp _].
    rewrite Hold in Hce, Hp by lia.
    pose proof (Ho c ltac:(lia) e ei Hce) as H1. rewrite Hpc in H1. specialize (H1 Hei).
    pose proof (Ho i ltac:(lia) ei p Hei Hp) as H2. lia. }
  assert (Hkids : heap_ordered (entries h) ->
            forall c e, 0 < c < n -> parent c = i ->
              at_index (entries h1) c = Some e -> entry_ts ei <= entry_ts e).
  { intros Ho c e Hc Hpc Hce.
    destruct (parent_pos c ltac:(lia)) as [Rc _].
    rewrite Hold in Hce by lia.
    pose proof (Ho c ltac:(lia) e ei Hce) as H1. rewrite Hpc in H1. now apply H1. }
  destruct (Z_lt_le_dec 0 i) as [Hi0|Hi0].
  2:{ (* the root is removed: [down] alone restores the order *)
    assert (i = 0) as -> by lia.
    exists (if b then h2 else h3). split; [|split].
    - unfold bind, heap.down. rewrite Hdown. cbv beta iota.
      destruct b; cbn [negb]; cbv iota; [reflexivity | exact Hup].
    - destruct b; [exact Hsw|].
      eapply swaps_trans; [exact Hsw|]. eapply swaps_mono; [|exact Hsw3]. lia.
    - intros Ho.
      assert (Ho2 : ordered_upto n (entries h2)).
      { apply Hord. split; [|intros; lia].
        intros k Hk Npk e p Hke Hp.
        destruct (parent_pos k ltac:(lia)) as [Rk _].
        rewrite Hold in Hke, Hp by lia. apply (Ho k ltac:(lia) e p Hke Hp). }
      destruct b; [exact Ho2|].
      apply Hord3; [lia|]. apply ordered_up_inv; [lia | exact Ho2]. }
  destruct (parent_pos i Hi0) as [Rp _].
  destruct (at_index_is_Some (entries h) (parent i) ltac:(lia)) as [ep Hep].
  assert (Hp1 : at_index (entries h1) (parent i) = Some ep).
  { rewrite Hold by lia. exact Hep. }
  destruct (Z_lt_le_dec (entry_ts en) (entry_ts ep)) as [Hsmall|Hbig].
  - (* the moved entry expires before its new parent: [down] does
       nothing and [up] sifts it *)
    assert (Hnoop : heap_ordered (entries h) -> b = false /\ h2 = h1).
    { intros Ho.
      pose proof (down_loop_noop (Z.to_nat n) i i n h1 en ltac:(lia) ltac:(lia) Hi1) as Hn.
      rewrite Hn in Hdown.
      - rewrite Z.ltb_irrefl in Hdown. injection Hdown as <- <-. auto.
      - intros c e Hc Hpc Hce. specialize (Hkids Ho c e Hc Hpc Hce).
        pose proof (Ho i ltac:(lia) ei ep Hei Hep). lia. }
    exists (if b then h2 else h3). split; [|split].
    + unfold bind, heap.down. rewrite Hdown. cbv beta iota.
      destruct b; cbn [negb]; cbv iota; [reflexivity | exact Hup].
    + destruct b; [exact Hsw|].
      eapply swaps_trans; [exact Hsw|]. eapply swaps_mono; [|exact Hsw3]. lia.
    + intros Ho. destruct (Hnoop Ho) as [-> ->].
      apply Hord3; [lia|]. split.
      * intros k Hk Nk e p Hke Hp.
        destruct (parent_pos k ltac:(lia)) as [Rk _].
        rewrite Hold in Hke by lia.
        destruct (Z.eq_dec (parent k) i) as [Epk|Npk].
        -- rewrite Epk, Hi1 in Hp. injection Hp as <-.
           pose proof (Ho k ltac:(lia) e ei Hke) as H1. rewrite Epk in H1.
           specialize (H1 Hei).
           pose proof (Ho i ltac:(lia) ei ep Hei Hep). lia.
        -- rewrite Hold in Hp by lia. apply (Ho k ltac:(lia) e p Hke Hp).
      * now apply Hgrand.
  - (* the moved entry does not expire before its new parent: the
       invariant of [down] holds *)
    exists (if b then h2 else h3). split; [|split].
    + unfold bind, heap.down. rewrite Hdown. cbv beta iota.
      destruct b; cbn [negb]; cbv iota; [reflexivity | exact Hup].
    + destruct b; [exact Hsw|].
      eapply swaps_trans; [exact Hsw|]. eapply swaps_mono; [|exact Hsw3]. lia.
    + intros Ho.
      assert (Ho2 : ordered_upto n (entries h2)).
      { apply Hord. split; [|now apply Hgrand].
        intros k Hk Npk e p Hke Hp.
        destruct (parent_pos k ltac:(lia)) as [Rk _].
        rewrite (Hold (parent k)) in Hp by lia.
        destruct (Z.eq_dec k i) as [->|Nk].
        - rewrite Hi1 in Hke. injection Hke as <-.
          rewrite Hep in Hp. injection Hp as <-. lia.
        - rewrite Hold in Hke by lia. apply (Ho k ltac:(lia) e p Hke Hp). }
      destruct b; [exact Ho2|].
      apply Hord3; [lia|]. apply ordered_up_inv; [lia | exact Ho2].
Qed.

(** [heap.Remove] at a position in range answers the entry there. *)
Lemma heap_Remove_spec (h : DnsProxy) (i : Z) (ei : entry) :
  at_index (entries h) i = Some ei ->
  exists h', heap.Remove i h = Ok (ei, h')
    /\ entries h ≡ₚ ei :: entries h'
    /\ (forall s, sound_at s h -> sound_at s h')
    /\ (index_complete h -> index_complete h')
    /\ (heap_ordered (entries h) -> heap_ordered (entries h'))
    /\ indices h' !! entry_sid ei = None
    /\ chWakeUp h' = chWakeUp h /\ same_config h h'.
Proof.
  intros Hei. pose proof (at_index_range _ _ _ Hei) as Ri.
  set (n := Z.of_nat (length (entries h)) - 1).
  assert (Hlen : Z.of_nat (length (entries h)) = n + 1) by (unfold n; lia).
  destruct (Z.eqb_spec n i) as [Eni|Nni].
  - subst i.
    destruct (Pop_spec h ei n Hlen Hei) as (h' & HPop & He & Hlen' & Hsame & Hix & W & G).
    destruct (Pop_keeps h h' ei n Hlen Hei Hlen' Hsame Hix) as (K1 & K2 & K3 & K4).
    exists h'. split.
    { unfold heap.Remove, bind. unfold Len at 1. cbv beta iota. fold n.
      rewrite Z.eqb_refl. unfold ret at 1. cbv beta iota. exact HPop. }
    split; [|split; [exact K1|split; [exact K2|split; [|split; [exact K4|split; assumption]]]]].
    + rewrite He. symmetry. apply Permutation_cons_append.
    + intros Ho. apply K3. eapply ordered_upto_mono; [|exact Ho]. lia.
  - destruct (at_index_is_Some (entries h) n ltac:(lia)) as [en Hen].
    destruct (Swap_ok h i n ei en Hei Hen) as (h1 & HS & L1 & P1 & _ & W1 & G1 & Hat1).
    destruct (Remove_resift h h1 i n ei en Hlen ltac:(lia) Hei Hen L1 Hat1)
      as (h3 & Hsift & Hsw & Hord).
    destruct (swaps_keep _ _ _ Hsw) as (L3 & P3 & _ & C3 & W3 & G3 & A3).
    assert (Hlen3 : Z.of_nat (length (entries h3)) = n + 1) by lia.
    assert (Hn3 : at_index (entries h3) n = Some ei).
    { rewrite A3 by lia. rewrite Hat1. now rewrite decide_True. }
    destruct (Pop_spec h3 ei n Hlen3 Hn3) as (h' & HPop & He & Hlen' & Hsame & Hix & W & G).
    destruct (Pop_keeps h3 h' ei n Hlen3 Hn3 Hlen' Hsame Hix) as (K1 & K2 & K3 & K4).
    exists h'. split.
    { unfold heap.Remove. unfold bind at 1. unfold Len at 1. cbv beta iota. fold n.
      destruct (Z.eqb_spec n i) as [|_]; [contradiction|].
      unfold bind at 1. bind_step HS.
      rewrite Hsift. cbv beta iota. exact HPop. }
    split; [|split; [|split; [|split; [|split; [exact K4|split]]]]].
    + rewrite <- P1, <- P3, He. symmetry. apply Permutation_cons_append.
    + intros s Hs. apply K1, (swaps_sound_at _ s _ _ Hsw).
      eapply Swap_sound_at; eauto.
    + intros Hc. apply K2, C3. eapply Swap_index_complete; eauto.
    + intros Ho. apply K3, Hord, Ho.
    + congruence.
    + eapply same_config_trans; [exact G1|]. eapply same_config_trans; eauto.
Qed.

End LedgerRemove.

(** ** The ledger: [addQuery], [removeQuery] and [updateTask] *)

Section LedgerCalls.
Import Dns Inv.

Lemma index_sound_none (h : DnsProxy) (s : Z) :
  index_sound h ->
  (forall e, In e (entries h) -> entry_sid e <> s) ->
  indices h !! s = None.
Proof.
  intros Hs Hfree. destruct (indices h !! s) as [i|] eqn:E; [|reflexivity].
  destruct (Hs s i E) as (e & He & Hes).
  exfalso. apply (Hfree e); [eapply at_index_elem; eauto | exact Hes].
Qed.

(** With a complete index no two entries share an id. *)
Lemma index_complete_NoDup (h : DnsProxy) :
  index_complete h -> NoDup (map entry_sid (entries h)).
Proof.
  intros Hc. apply NoDup_alt. intros i j s Hi Hj.
  change (map entry_sid (entries h)) with (entry_sid <$> entries h) in Hi, Hj.
  rewrite list_lookup_fmap in Hi, Hj.
  destruct (entries h !! i) as [ei|] eqn:Ei; [|discriminate].
  destruct (entries h !! j) as [ej|] eqn:Ej; [|discriminate].
  simpl in Hi, Hj. injection Hi as Hi. injection Hj as Hj.
  assert (Ai : at_index (entries h) (Z.of_nat i) = Some ei).
  { apply at_index_Some. split; [lia|]. now rewrite Nat2Z.id. }
  assert (Aj : at_index (entries h) (Z.of_nat j) = Some ej).
  { apply at_index_Some. split; [lia|]. now rewrite Nat2Z.id. }
  apply Hc in Ai, Aj. rewrite Hi in Ai. rewrite Hj in Aj. rewrite Ai in Aj.
  injection Aj as Hij. lia.
Qed.

(** [addQuery] always returns: it pushes the new entry and keeps all
    the others. *)
Lemma addQuery_spec (now : Z) (q : DnsQuery) (h : DnsProxy) :
  exists h', addQuery now q h = Ok (tt, h')
    /\ entries h' ≡ₚ queryEntry now q :: entries h
    /\ (forall s, sound_at s h -> sound_at s h')
    /\ sound_at (query_sid q) h'
    /\ is_Some (indices h' !! query_sid q)
    /\ (index_complete h ->
        (forall e, In e (entries h) -> entry_sid e <> query_sid q) ->
        index_complete h')
    /\ (heap_ordered (entries h) -> heap_ordered (entries h'))
    /\ chWakeUp h' = true /\ same_config h h'.
Proof.
  destruct (heap_Push_spec (queryEntry now q) h)
    as (h1 & HP & P & S & Sx & Ix & C & O & W & (G1 & G2 & G3)).
  eexists. split.
  { unfold addQuery, bind. fold (queryEntry now q). rewrite HP. reflexivity. }
  simpl. unfold same_config. simpl. repeat split; auto.
Qed.

(** [removeQuery] for an id the index does not hold. *)
Lemma removeQuery_absent (h : DnsProxy) (s : Z) :
  indices h !! s = None -> removeQuery s h = Ok (None, h).
Proof. intros H. unfold removeQuery. now rewrite H. Qed.

(** [removeQuery] for an id the index holds, in a state with a sound
    index: the heap loses the entry at the position the index gives. *)
Lemma removeQuery_present (h : DnsProxy) (s i : Z) :
  sound_at s h -> indices h !! s = Some i ->
  exists e h', at_index (entries h) i = Some e /\ entry_sid e = s
    /\ removeQuery s h = Ok (Some (entry_q e), h')
    /\ entries h ≡ₚ e :: entries h'
    /\ (forall s', sound_at s' h -> sound_at s' h')
    /\ (index_complete h -> index_complete h')
    /\ (heap_ordered (entries h) -> heap_ordered (entries h'))
    /\ indices h' !! s = None
    /\ chWakeUp h' = chWakeUp h /\ same_config h h'.
Proof.
  intros Hs Hi. destruct (Hs i Hi) as (e & He & Hes).
  destruct (heap_Remove_spec h i e He) as (h' & HR & P & S & C & O & N & W & G).
  exists e, h'. split; [exact He|]. split; [exact Hes|]. split.
  { unfold removeQuery. rewrite Hi. unfold bind. rewrite HR. reflexivity. }
  rewrite Hes in N. auto 10.
Qed.

(** [removeQuery] in a state with a sound index always returns and keeps
    the index sound and the heap ordered. *)
Lemma removeQuery_keeps (h : DnsProxy) (s : Z) (r : option DnsQuery) (h' : DnsProxy) :
  index_sound h -> removeQuery s h = Ok (r, h') ->
  index_sound h' /\ (heap_ordered (entries h) -> heap_ordered (entries h')).
Proof.
  intros Hs HR. destruct (indices h !! s) as [i|] eqn:E.
  - destruct (removeQuery_present h s i (Hs s) E)
      as (e & h2 & _ & _ & HR2 & _ & S & _ & O & _).
    rewrite HR in HR2. injection HR2 as _ <-. split; [|exact O].
    intros s'. apply S, Hs.
  - rewrite (removeQuery_absent h s E) in HR. injection HR as _ <-. auto.
Qed.

End LedgerCalls.

Section LedgerEviction.
Import Dns Inv.

Lemma deleteIndex_keeps (s : Z) (h : DnsProxy) :
  exists h', deleteIndex s h = Ok (tt, h')
    /\ entries h' = entries h
    /\ indices h' = delete s (indices h)
    /\ (forall s', sound_at s' h -> sound_at s' h')
    /\ (index_complete h ->
        (forall e, In e (entries h) -> entry_sid e <> s) -> index_complete h')
    /\ chWakeUp h' = chWakeUp h /\ same_config h h'.
Proof.
  eexists. split; [reflexivity|]. simpl.
  split; [reflexivity|]. split; [reflexivity|]. split; [|split].
  - intros s' Hs i Hi. simpl in *.
    apply lookup_delete_Some in Hi as [_ Hi]. apply (Hs i Hi).
  - intros Hc Hfree i e He. simpl in *.
    rewrite lookup_delete_ne; [now apply Hc|].
    intros Es. apply (Hfree e); [eapply at_index_elem; eauto | congruence].
  - split; [reflexivity | apply same_config_with_heap].
Qed.

(** In a state with a complete index, the entries other than [e0] do not
    carry the id of [e0]. *)
Lemma complete_others_differ (h : DnsProxy) (e0 : entry) (rest : list entry) :
  index_complete h -> entries h ≡ₚ e0 :: rest ->
  forall e, In e rest -> entry_sid e <> entry_sid e0.
Proof.
  intros Hc HP e He Es.
  pose proof (index_complete_NoDup h Hc) as Hnd.
  rewrite HP in Hnd. simpl in Hnd. apply NoDup_cons in Hnd as [Hnotin _].
  apply Hnotin. rewrite <- Es.
  apply (list_elem_of_fmap_2 entry_sid). now apply list_elem_of_In.
Qed.

(** The loop of [updateTask]: it discards expired entries from the root
    on, in the order of their expiry, and stops at the first entry that
    has not expired. *)
Lemma evictLoop_spec (now : Z) (k : nat) :
  forall h : DnsProxy,
    (k <= length (entries h))%nat -> heap_ordered (entries h) ->
    exists ev h', evictLoop k now h = Ok (ev, h')
      /\ entries h ≡ₚ ev ++ entries h'
      /\ Forall (fun e => entry_ts e < now) ev
      /\ ((length ev < k)%nat -> Forall (fun e => now <= entry_ts e) (entries h'))
      /\ (length ev <= k)%nat
      /\ StronglySorted (fun a b => entry_ts a <= entry_ts b) ev
      /\ heap_ordered (entries h')
      /\ (forall s, sound_at s h -> sound_at s h')
      /\ (index_complete h -> index_complete h')
      /\ same_config h h'.
Proof.
  induction k as [|k IH]; intros h Hk Ho.
  { exists [], h. split; [reflexivity|]. simpl.
    repeat split; auto using same_config_refl; try lia; constructor. }
  destruct (at_index_is_Some (entries h) 0 ltac:(simpl in Hk; lia)) as [e0 H0].
  destruct (heap_Pop_spec h e0 H0) as (h1 & HPop & P1 & S1 & C1 & O1 & N1 & W1 & G1).
  pose proof (root_min _ _ Ho H0) as Hmin.
  assert (Hmin' : forall e, In e (entries h) -> entry_ts e0 <= entry_ts e).
  { intros e [i Hi]%In_at_index. eapply Hmin; eauto. }
  assert (Hlen1 : length (entries h) = S (length (entries h1))).
  { apply Permutation_length in P1. exact P1. }
  simpl evictLoop. bind_step HPop.
  destruct (Z.ltb_spec (entry_ts e0) now) as [Hexp|Hlive].
  - destruct (deleteIndex_keeps (entry_sid e0) h1) as (h2 & HD & E2 & I2 & S2 & C2 & W2 & G2).
    destruct (IH h2 ltac:(rewrite E2; lia) ltac:(rewrite E2; auto))
      as (ev & h' & HL & P & Fe & Fl & Le & So & O & S & C & G).
    exists (e0 :: ev), h'. split.
    { bind_step HD.
      unfold bind at 1. rewrite HL. reflexivity. }
    rewrite E2 in P.
    split; [|split; [|split; [|split; [|split; [|split; [exact O|split; [|split]]]]]]].
    + rewrite P1, P. reflexivity.
    + constructor; assumption.
    + simpl. intros Hlt. apply Fl. lia.
    + simpl. lia.
    + constructor; [exact So|]. apply Forall_forall. intros e He.
      apply Hmin'. apply (Permutation_in _ (Permutation_sym P1)). right.
      apply (Permutation_in _ (Permutation_sym P)). apply in_or_app. left.
      now apply list_elem_of_In.
    + intros s Hs. apply S, S2, S1, Hs.
    + intros Hc. apply C, C2; [now apply C1|].
      apply (complete_others_differ h e0 (entries h1) Hc P1).
    + eapply same_config_trans; [exact G1|]. eapply same_config_trans; eauto.
  - destruct (heap_Push_spec e0 h1) as (h2 & HP & P2 & S2 & _ & _ & C2 & O2 & W2 & G2).
    exists [], h2. split.
    { unfold bind at 1. rewrite HP. reflexivity. }
    split; [|split; [|split; [|split; [|split; [|split; [auto|split; [|split]]]]]]].
    + simpl. now rewrite P1, P2.
    + constructor.
    + intros _. apply Forall_forall. intros e He.
      assert (In e (entries h)).
      { apply (Permutation_in _ (Permutation_sym P1)).
        apply (Permutation_in _ P2). now apply list_elem_of_In. }
      specialize (Hmin' e H). lia.
    + simpl. lia.
    + constructor.
    + intros s Hs. apply S2, S1, Hs.
    + intros Hc. apply C2; [now apply C1|].
      apply (complete_others_differ h e0 (entries h1) Hc P1).
    + eapply same_config_trans; eauto.
Qed.

(** One turn of [updateTask]. *)
Lemma updateTask_wake_spec (now : Z) (timer : option Z) (h : DnsProxy) :
  heap_ordered (entries h) ->
  exists ev timer' h', updateTask_wake now timer h = Ok ((ev, timer'), h')
    /\ entries h ≡ₚ ev ++ entries h'
    /\ Forall (fun e => entry_ts e < now) ev
    /\ Forall (fun e => now <= entry_ts e) (entries h')
    /\ StronglySorted (fun a b => entry_ts a <= entry_ts b) ev
    /\ (entries h' = [] -> timer' = timer)
    /\ (forall e0, at_index (entries h') 0 = Some e0 ->
          timer' = Some (entry_ts e0 - now)
          /\ forall e, In e (entries h') -> entry_ts e0 <= entry_ts e)
    /\ heap_ordered (entries h')
    /\ (forall s, sound_at s h -> sound_at s h')
    /\ (index_complete h -> index_complete h')
    /\ same_config h h'.
Proof.
  intros Ho.
  destruct (evictLoop_spec now (length (entries h)) h (Nat.le_refl _) Ho)
    as (ev & h' & HL & P & Fe & Fl & Le & So & O & S & C & G).
  assert (Hrest : Forall (fun e => now <= entry_ts e) (entries h')).
  { destruct (Nat.eq_dec (length ev) (length (entries h))) as [E|N].
    - apply Permutation_length in P. rewrite length_app in P.
      destruct (entries h'); [constructor | simpl in P; lia].
    - apply Fl. lia. }
  assert (Hhead : forall e0, at_index (entries h') 0 = Some e0 ->
            forall e, In e (entries h') -> entry_ts e0 <= entry_ts e).
  { intros e0 H0 e [i Hi]%In_at_index. eapply root_min; eauto. }
  destruct (entries h') as [|e0 rest] eqn:E.
  - exists ev, timer, h'. split.
    { unfold updateTask_wake. unfold bind at 1. unfold Len at 1. cbv beta iota.
      rewrite Nat2Z.id. bind_step HL.
      unfold bind, Len. rewrite E. reflexivity. }
    rewrite E in *. split_and!; auto; try discriminate.
  - exists ev, (Some (entry_ts e0 - now)), h'. split.
    { unfold updateTask_wake. unfold bind at 1. unfold Len at 1. cbv beta iota.
      rewrite Nat2Z.id. bind_step HL.
      unfold bind, Len. rewrite E.
      replace (0 <? Z.of_nat (length (e0 :: rest))) with true
        by (symmetry; apply Z.ltb_lt; simpl; lia).
      rewrite E. reflexivity. }
    rewrite E in *. split_and!; auto; try discriminate.
    intros e H0. injection H0 as <-. split; [reflexivity|].
    apply Hhead. reflexivity.
Qed.

(** Every reachable state has a sound index and an ordered heap. *)
Lemma reachable_inv (h : DnsProxy) :
  reachable h -> index_sound h /\ heap_ordered (entries h).
Proof.
  induction 1 as [d a r|h now q h' _ [IS IO] HA|h s r h' _ [IS IO] HR
                  |h now timer r h' _ [IS IO] HW].
  - split.
    + intros s i Hi. simpl in Hi. rewrite lookup_empty in Hi. discriminate.
    + intros k Hk. simpl in Hk. lia.
  - destruct (addQuery_spec now q h) as (h2 & HA2 & _ & S & _ & _ & _ & O & _).
    rewrite HA in HA2. injection HA2 as <-. split; [|auto].
    intros s. apply S, IS.
  - destruct (removeQuery_keeps h s r h' IS HR) as [S O]. auto.
  - destruct (updateTask_wake_spec now timer h IO)
      as (ev & timer' & h2 & HW2 & _ & _ & _ & _ & _ & _ & O & S & _).
    rewrite HW in HW2. injection HW2 as _ <-. split; [|exact O].
    intros s. apply S, IS.
Qed.

End LedgerEviction.

(** ** The ledger: the claims *)

Section LedgerClaims.
Import Dns Inv.

(** C2, counterexample: two queries with the transaction id 7, added
    five seconds apart to a new ledger, are both in the heap
    afterwards. *)
Lemma colliding_add_keeps_both_entries :
  match (do _ <- addQuery 0 (sampleQuery 7 clientA);
         addQuery (5 * Second) (sampleQuery 7 clientB)) sampleProxy with
  | Ok (_, h) =>
      map entry_sid (entries h) = [7; 7]
      /\ map entry_q (entries h) = [sampleQuery 7 clientA; sampleQuery 7 clientB]
  | Error _ => False
  end.
Proof. vm_compute. split; reflexivity. Qed.

(** C2, as amended: the index holds at most one position per
    transaction id, but the heap may hold several entries with one id.
    [addQuery] evicts nothing: from every state it returns, the heap
    afterwards holds the new entry (expiry ten seconds after [now]) and
    every entry it held before, those with the same id included, and
    the index then gives for the id a position that holds an entry with
    that id. *)
Theorem addQuery_pushes_and_keeps_all (now : Z) (q : DnsQuery) (h : DnsProxy) :
  exists h', addQuery now q h = Ok (tt, h')
    /\ entries h' ≡ₚ queryEntry now q :: entries h
    /\ exists i e, indices h' !! query_sid q = Some i
         /\ at_index (entries h') i = Some e
         /\ entry_sid e = query_sid q.
Proof.
  destruct (addQuery_spec now q h) as (h' & HA & P & _ & Sx & [i Hi] & _).
  exists h'. split; [exact HA|]. split; [exact P|].
  destruct (Sx i Hi) as (e & He & Hes). eauto.
Qed.

(** C10: in every reachable state of the ledger, [removeQuery] for an
    id with no live entry (an id that the index does not hold, which is
    the case of every id that no entry of the heap carries) answers
    [nil] and leaves the state, heap and index, exactly as it is. *)
Theorem removeQuery_unknown_id_is_noop (h : DnsProxy) (s : Z) :
  reachable h ->
  indices h !! s = None \/ (forall e, In e (entries h) -> entry_sid e <> s) ->
  removeQuery s h = Ok (None, h).
Proof.
  intros Hr [Hnone|Hfree]; apply removeQuery_absent; [exact Hnone|].
  apply index_sound_none; [|exact Hfree]. apply reachable_inv, Hr.
Qed.

Lemma removeQuery_unknown_id_is_noop_witness :
  match addQuery 0 (sampleQuery 7 clientA) sampleProxy with
  | Ok (_, h) => map entry_sid (entries h) = [7] /\ removeQuery 9 h = Ok (None, h)
  | Error _ => False
  end.
Proof.
  destruct (addQuery 0 (sampleQuery 7 clientA) sampleProxy) as [[[] h]|f] eqn:E.
  - assert (Hsids : map entry_sid (entries h) = [7]).
    { pose proof E as E'. vm_compute in E'. injection E' as <-. reflexivity. }
    split; [exact Hsids|].
    apply (removeQuery_unknown_id_is_noop h 9).
    + exact (reach_add _ _ _ _ (reach_new _ _ _) E).
    + right. intros e He Hs. apply (in_map entry_sid) in He. rewrite Hsids in He.
      destruct He as [He|[]]. lia.
  - vm_compute in E. discriminate.
Defined.

End LedgerClaims.

Section LedgerRoundTrip.
Import Dns Inv.

Lemma index_ok_new (d : string) (a : UDPAddr) (r : wsServer) :
  index_ok (newDnsProxy d a r).
Proof.
  split.
  - intros s i Hi. simpl in Hi. rewrite lookup_empty in Hi. discriminate.
  - intros i e Hi. apply at_index_range in Hi. simpl in Hi. lia.
Qed.

Lemma Swap_index_ok (h h' : DnsProxy) (i j : Z) :
  Swap i j h = Ok (tt, h') -> index_ok h -> index_ok h'.
Proof.
  intros HS [Hs Hc]. split.
  - eapply Swap_index_sound; eauto.
  - eapply Swap_index_complete; eauto.
Qed.

(** Adding queries with fresh, pairwise distinct ids keeps the index
    exact. *)
Lemma addAll_spec (adds : list (Z * DnsQuery)) :
  forall h : DnsProxy,
    index_ok h ->
    NoDup (map (fun a => query_sid (snd a)) adds) ->
    (forall e a, In e (entries h) -> In a adds -> entry_sid e <> query_sid (snd a)) ->
    exists h1, addAll adds h = Ok (tt, h1)
      /\ index_ok h1
      /\ entries h1 ≡ₚ map (fun a => queryEntry (fst a) (snd a)) adds ++ entries h.
Proof.
  induction adds as [|[now q] adds IH]; intros h Hok Hnd Hfresh.
  { exists h. split; [reflexivity|]. split; [exact Hok | reflexivity]. }
  simpl in Hnd. apply NoDup_cons in Hnd as [Hnotin Hnd].
  destruct Hok as [Hs Hc].
  destruct (addQuery_spec now q h) as (h1 & HA & P & S & _ & _ & C & _).
  assert (Hok1 : index_ok h1).
  { split; [intros s; apply S, Hs|].
    apply C; [exact Hc|]. intros e He. apply (Hfresh e (now, q) He). now left. }
  destruct (IH h1 Hok1 Hnd) as (h2 & HAll & Hok2 & P2).
  { intros e a He Ha.
    apply (Permutation_in _ P) in He. destruct He as [<-|He].
    - simpl. intros Es. apply Hnotin. rewrite Es.
      apply list_elem_of_In. apply (in_map (fun a => query_sid (snd a))), Ha.
    - apply (Hfresh e a He). now right. }
  exists h2. split.
  { simpl. unfold bind. rewrite HA. exact HAll. }
  split; [exact Hok2|]. rewrite P2, P. simpl.
  symmetry. apply Permutation_middle.
Qed.

(** Removing, in any order, queries that each have their entry in a
    heap with an exact index. *)
Lemma removeAll_spec (order : list DnsQuery) :
  forall h : DnsProxy,
    index_ok h -> NoDup order ->
    (forall q, In q order ->
       exists e, In e (entries h) /\ entry_q e = q /\ entry_sid e = query_sid q) ->
    exists h2, removeAll (map query_sid order) h = Ok (map Some order, h2)
      /\ index_ok h2
      /\ (forall e, In e (entries h2) -> In e (entries h))
      /\ (forall q e, In q order -> In e (entries h2) -> entry_sid e <> query_sid q).
Proof.
  induction order as [|q order IH]; intros h Hok Hnd Hlive.
  { exists h. split; [reflexivity|]. split; [exact Hok|]. split; [auto|].
    intros q e []. }
  apply NoDup_cons in Hnd as [Hnotin Hnd].
  destruct Hok as [Hs Hc].
  destruct (Hlive q ltac:(now left)) as (e & He & Heq & Hes).
  destruct (In_at_index _ _ He) as [i Hi].
  pose proof (Hc i e Hi) as Hidx.
  destruct (removeQuery_present h (entry_sid e) i (Hs _) Hidx)
    as (e' & h1 & Hi' & _ & HR & P & S & C & _).
  rewrite Hi in Hi'. injection Hi' as <-.
  assert (Hok1 : index_ok h1) by (split; [intros s; apply S, Hs | now apply C]).
  destruct (IH h1 Hok1 Hnd) as (h2 & HAll & Hok2 & Hsub & Hgone).
  { intros q' Hq'. destruct (Hlive q' ltac:(now right)) as (e' & He' & Heq' & Hes').
    exists e'. split; [|auto].
    apply (Permutation_in _ P) in He'. destruct He' as [->|He']; [|exact He'].
    exfalso. apply Hnotin. apply list_elem_of_In. congruence. }
  assert (Hsub1 : forall x, In x (entries h1) -> In x (entries h)).
  { intros x Hx. apply (Permutation_in _ (Permutation_sym P)). now right. }
  exists h2. split.
  { simpl. unfold bind at 1. rewrite <- Hes, HR. cbv beta iota.
    bind_step HAll. unfold ret. now rewrite Heq. }
  split; [exact Hok2|]. split; [auto|].
  intros q' x [<-|Hq'] Hx; [|now apply (Hgone q' x)].
  rewrite <- Hes. apply (complete_others_differ h e (entries h1) Hc P).
  now apply Hsub.
Qed.

(** C5: after any number of queries with pairwise distinct transaction
    ids were added to a new ledger, each at its own time, removing
    some or all of them by id, in any order, answers each time exactly
    the query that was added under that id, and removing any of these
    ids once more answers [nil].  The index gives the heap position of
    every entry, and nothing else, after the adds and after the removes
    (so after each of them), and a [Swap] in either state keeps it so. *)
Theorem ledger_returns_inserted_queries
    (d : string) (a : UDPAddr) (r : wsServer)
    (adds : list (Z * DnsQuery)) (order : list DnsQuery) :
  NoDup (map (fun a => query_sid (snd a)) adds) ->
  NoDup order ->
  (forall q, In q order -> In q (map snd adds)) ->
  exists h1 h2,
    addAll adds (newDnsProxy d a r) = Ok (tt, h1)
    /\ removeAll (map query_sid order) h1 = Ok (map Some order, h2)
    /\ (forall q, In q order -> removeQuery (query_sid q) h2 = Ok (None, h2))
    /\ index_ok h1 /\ index_ok h2
    /\ (forall i j h', Swap i j h1 = Ok (tt, h') -> index_ok h')
    /\ (forall i j h', Swap i j h2 = Ok (tt, h') -> index_ok h').
Proof.
  intros Hnd Hord Hsub.
  destruct (addAll_spec adds (newDnsProxy d a r) (index_ok_new d a r) Hnd)
    as (h1 & HA & Hok1 & P1).
  { intros e x []. }
  destruct (removeAll_spec order h1 Hok1 Hord) as (h2 & HR & Hok2 & _ & Hgone).
  { intros q Hq. apply Hsub in Hq. apply in_map_iff in Hq as ([now q'] & <- & Hin).
    exists (queryEntry now q'). split; [|split; reflexivity].
    apply (Permutation_in _ (Permutation_sym P1)). apply in_or_app. left.
    apply (in_map (fun a => queryEntry (fst a) (snd a)) adds (now, q') Hin). }
  exists h1, h2. split; [exact HA|]. split; [exact HR|].
  split; [|split; [exact Hok1|split; [exact Hok2|split]]].
  - intros q Hq. apply removeQuery_absent.
    apply index_sound_none; [apply Hok2|]. intros e He. now apply (Hgone q e).
  - intros i j h' HS. eapply Swap_index_ok; eauto.
  - intros i j h' HS. eapply Swap_index_ok; eauto.
Qed.

Lemma ledger_returns_inserted_queries_witness :
  exists h1 h2,
    addAll [(0, sampleQuery 7 clientA); (3, sampleQuery 9 clientB);
            (1, sampleQuery 4 clientA)] sampleProxy = Ok (tt, h1)
    /\ removeAll [9; 7] h1
       = Ok ([Some (sampleQuery 9 clientB); Some (sampleQuery 7 clientA)], h2)
    /\ removeQuery 9 h2 = Ok (None, h2)
    /\ index_ok h2.
Proof.
  destruct (ledger_returns_inserted_queries "10.0.0.2" upstream
              (parseDNS ["*.example.com"%string] newServer)
              [(0, sampleQuery 7 clientA); (3, sampleQuery 9 clientB);
               (1, sampleQuery 4 clientA)]
              [sampleQuery 9 clientB; sampleQuery 7 clientA])
    as (h1 & h2 & HA & HR & Hgone & _ & Hok2 & _).
  - simpl. apply (bool_decide_unpack (NoDup [7; 9; 4])). vm_compute. exact I.
  - apply (NoDup_fmap_1 query_sid). simpl.
    apply (bool_decide_unpack (NoDup [9; 7])). vm_compute. exact I.
  - simpl. intros q [<-|[<-|[]]]; auto.
  - exists h1, h2. split; [exact HA|]. split; [exact HR|].
    split; [|exact Hok2]. apply (Hgone (sampleQuery 9 clientB)). now left.
Defined.

End LedgerRoundTrip.

Section LedgerTimeouts.
Import Dns Inv.

Lemma addAll_reachable (adds : list (Z * DnsQuery)) :
  forall h h1, reachable h -> addAll adds h = Ok (tt, h1) -> reachable h1.
Proof.
  induction adds as [|[now q] adds IH]; intros h h1 Hr HA.
  - injection HA as <-. exact Hr.
  - simpl in HA. unfold bind in HA.
    destruct (addQuery now q h) as [[[] h2]|f] eqn:E; [|discriminate].
    apply (IH h2 h1); [|exact HA]. exact (reach_add _ _ _ _ Hr E).
Qed.

(** C7, counterexample: two queries with the id 7, added at 0 s and at
    5 s; the turn of the eviction task at 12 s discards the first and
    re-arms its timer for the 3 s the second has left, and a remove for
    the evicted id 7 then answers the second query, not [nil]. *)
Lemma evicted_id_answers_colliding_entry :
  match (do _ <- addQuery 0 (sampleQuery 7 clientA);
         do _ <- addQuery (5 * Second) (sampleQuery 7 clientB);
         do r <- updateTask_wake (12 * Second) None;
         do x <- removeQuery 7;
         ret (map entry_q (fst r), snd r, x)) sampleProxy with
  | Ok ((ev, timer, x), _) =>
      ev = [sampleQuery 7 clientA]
      /\ timer = Some (3 * Second)
      /\ x = Some (sampleQuery 7 clientB)
  | Error _ => False
  end.
Proof. vm_compute. split_and!; reflexivity. Qed.

(** C7, as amended: a turn of the eviction task at time [now], in any
    reachable state of the ledger, returns.  It discards entries from
    the heap root on, in the order of their expiry, each with its
    expiry before [now], and stops at the first root that has not
    expired: the entries it leaves all expire at [now] or later, so every
    entry whose expiry (the time of its add plus ten seconds) lies
    before [now] is discarded in this turn.  With entries left it arms
    the timer for the time the earliest of them has left; with none
    left it leaves the timer as it was.  After the turn a remove for
    the id of a discarded entry answers [nil], provided no entry left
    in the heap carries that id. *)
Theorem updateTask_wake_evicts_expired (h : DnsProxy) (now : Z) (timer : option Z) :
  reachable h ->
  exists ev timer' h',
    updateTask_wake now timer h = Ok ((ev, timer'), h')
    /\ entries h ≡ₚ ev ++ entries h'
    /\ Forall (fun e => entry_ts e < now) ev
    /\ StronglySorted (fun a b => entry_ts a <= entry_ts b) ev
    /\ Forall (fun e => now <= entry_ts e) (entries h')
    /\ (forall e, In e (entries h) -> entry_ts e < now -> In e ev)
    /\ (entries h' = [] -> timer' = timer)
    /\ (forall e0, at_index (entries h') 0 = Some e0 ->
          timer' = Some (entry_ts e0 - now)
          /\ forall e, In e (entries h') -> entry_ts e0 <= entry_ts e)
    /\ (forall e, In e ev ->
          (forall e', In e' (entries h') -> entry_sid e' <> entry_sid e) ->
          removeQuery (entry_sid e) h' = Ok (None, h')).
Proof.
  intros Hr. destruct (reachable_inv h Hr) as [Hs Ho].
  destruct (updateTask_wake_spec now timer h Ho)
    as (ev & timer' & h' & HW & P & Fe & Fl & So & T0 & T1 & O & S & _).
  exists ev, timer', h'. split_and!; auto.
  - intros e He Hexp. apply (Permutation_in _ P) in He.
    apply in_app_or in He as [He|He]; [exact He|].
    rewrite Forall_forall in Fl. apply list_elem_of_In, Fl in He. lia.
  - intros e He Hfree. apply removeQuery_absent.
    apply index_sound_none; [|exact Hfree]. intros s. apply S, Hs.
Qed.

Lemma updateTask_wake_evicts_expired_witness :
  match addAll [(0, sampleQuery 7 clientA); (5 * Second, sampleQuery 9 clientB);
                (1 * Second, sampleQuery 4 clientA)] sampleProxy with
  | Ok (_, h) =>
      exists ev timer' h',
        updateTask_wake (12 * Second) None h = Ok ((ev, timer'), h')
        /\ map entry_sid ev = [7; 4]
        /\ timer' = Some (3 * Second)
        /\ map entry_sid (entries h') = [9]
        /\ removeQuery 7 h' = Ok (None, h')
  | Error _ => False
  end.
Proof.
  destruct (addAll [(0, sampleQuery 7 clientA); (5 * Second, sampleQuery 9 clientB);
                    (1 * Second, sampleQuery 4 clientA)] sampleProxy)
    as [[[] h]|f] eqn:E; [|vm_compute in E; discriminate].
  pose proof (addAll_reachable _ _ _ (reach_new _ _ _) E) as Hr.
  destruct (updateTask_wake_evicts_expired h (12 * Second) None Hr)
    as (ev & timer' & h' & HW & _ & _ & _ & _ & _ & _ & _ & Hgone).
  assert (Hvals : map entry_sid ev = [7; 4] /\ timer' = Some (3 * Second)
                  /\ map entry_sid (entries h') = [9]).
  { clear Hr Hgone. vm_compute in E. injection E as <-.
    vm_compute in HW. injection HW as <- <- <-. split_and!; reflexivity. }
  destruct Hvals as (Hev & Ht & Hrest).
  exists ev, timer', h'. split_and!; auto.
  destruct ev as [|e ev']; [discriminate|]. injection Hev as He _.
  rewrite <- He. apply Hgone; [now left|].
  intros e' He'. apply (in_map entry_sid) in He'. rewrite Hrest in He'.
  destruct He' as [<-|[]]. lia.
Defined.

End LedgerTimeouts.

(** ** DNS packets: slices and the name decoder *)

Section PacketBasics.
Import Dns Inv.

Lemma index_fault (s : slice) (i : Z) (f : fault) :
  index s i = Error f -> f = Panic.
Proof.
  unfold index. destruct ((0 <=? i) && (i <? slen s)); [|now intros [= <-]].
  destruct (backing s !! Z.to_nat i); [discriminate | now intros [= <-]].
Qed.

Lemma subslice_fault (s : slice) (lo hi : Z) (f : fault) :
  subslice s lo hi = Error f -> f = Panic.
Proof.
  unfold subslice. destruct ((0 <=? lo) && (lo <=? hi) && (hi <=? cap s));
    [discriminate | now intros [= <-]].
Qed.

Lemma index_Ok (s : slice) (i : Z) (b : byte) :
  index s i = Ok b -> 0 <= i < slen s /\ backing s !! Z.to_nat i = Some b.
Proof.
  unfold index. destruct ((0 <=? i) && (i <? slen s)) eqn:E; [|discriminate].
  apply andb_true_iff in E as [E1 E2]. apply Z.leb_le in E1. apply Z.ltb_lt in E2.
  destruct (backing s !! Z.to_nat i) as [b'|]; [|discriminate].
  intros [= <-]. auto.
Qed.

Lemma subslice_Ok (s t : slice) (lo hi : Z) :
  subslice s lo hi = Ok t ->
  0 <= lo <= hi /\ hi <= cap s
  /\ t = {| backing := drop (Z.to_nat lo) (backing s); slen := hi - lo |}.
Proof.
  unfold subslice.
  destruct ((0 <=? lo) && (lo <=? hi) && (hi <=? cap s)) eqn:E; [|discriminate].
  apply andb_true_iff in E as [E E3]. apply andb_true_iff in E as [E1 E2].
  apply Z.leb_le in E1, E2, E3. intros [= <-]. auto.
Qed.

Lemma length_string_of_list_byte (l : list byte) :
  String.length (string_of_list_byte l) = length l.
Proof.
  unfold string_of_list_byte.
  induction l as [|b l IH]; simpl; [reflexivity | now rewrite IH].
Qed.

(** The decoder stops: with the fuel [hostFromMsg] gives it, the loop
    returns a name or panics. *)
Lemma hostLoop_stops (fuel : nat) :
  forall (msg : slice) (offset : Z) (domain : string),
    (Z.to_nat (slen msg - offset) < fuel)%nat ->
    hostLoop fuel msg offset domain <> Error OutOfFuel.
Proof.
  induction fuel as [|fuel IH]; intros msg offset domain Hf; [lia|].
  simpl. destruct (index msg offset) as [b|f] eqn:Ei.
  2:{ apply index_fault in Ei as ->. discriminate. }
  apply index_Ok in Ei as [Ri _].
  destruct (int8 b =? 0); [discriminate|].
  destruct (subslice msg (offset + 1) (offset + 1 + int8 b)) as [label|f] eqn:Es.
  2:{ apply subslice_fault in Es as ->. discriminate. }
  apply subslice_Ok in Es as (Rs & _ & _).
  apply IH. lia.
Qed.

Lemma hostFromMsg_stops (msg : slice) : hostFromMsg msg <> Error OutOfFuel.
Proof.
  unfold hostFromMsg. destruct (index msg 5) as [b|f] eqn:Ei.
  2:{ apply index_fault in Ei as ->. discriminate. }
  apply index_Ok in Ei as [Ri _].
  destruct (u8 b =? 1); [|discriminate]. apply hostLoop_stops. lia.
Qed.

(** A decoded name of [n] bytes more than [domain] was read from [n]
    bytes of labels, and the zero byte that ends them is in the packet. *)
Lemma hostLoop_length (fuel : nat) :
  forall (msg : slice) (offset : Z) (domain host : string),
    hostLoop fuel msg offset domain = Ok host ->
    exists n, 0 <= n /\ GoString.len host = GoString.len domain + n
              /\ 0 <= offset /\ offset + n < slen msg
              /\ index msg (offset + n) = Ok x00.
Proof.
  induction fuel as [|fuel IH]; intros msg offset domain host H; [discriminate|].
  simpl in H. destruct (index msg offset) as [b|f] eqn:Ei; [|discriminate].
  pose proof (index_Ok _ _ _ Ei) as [Ri Hb].
  destruct (Z.eqb_spec (int8 b) 0) as [E0|N0].
  - injection H as <-. exists 0. rewrite !Z.add_0_r.
    split; [lia|]. split; [lia|]. split; [lia|]. split; [lia|].
    rewrite Ei. f_equal. unfold int8, u8 in E0.
    destruct b; vm_compute in E0; try discriminate; reflexivity.
  - destruct (subslice msg (offset + 1) (offset + 1 + int8 b)) as [label|f] eqn:Es;
      [|discriminate].
    apply subslice_Ok in Es as (Rs & Rc & ->).
    destruct (IH _ _ _ _ H) as (n & Hn & Hlen & Ho & Hlt & Hz).
    exists (1 + int8 b + n).
    replace (offset + (1 + int8 b + n)) with (offset + 1 + int8 b + n) by lia.
    split; [lia|]. split; [|split; [lia|split; [exact Hlt|exact Hz]]].
    rewrite Hlen. unfold GoString.len. rewrite !string_length_app.
    rewrite length_string_of_list_byte. unfold bytes. simpl.
    rewrite length_take, length_drop. unfold cap in Rc. lia.
Qed.

End PacketBasics.

(** ** DNS packets: [handleUDP] *)

Section PacketHandling.
Import Dns Inv.

Lemma readBuffer_cap (data : list byte) : cap (readBuffer data) = 4096.
Proof.
  unfold cap, readBuffer. simpl. rewrite length_app, length_take, length_replicate. lia.
Qed.

Lemma readBuffer_slen (data : list byte) :
  slen (readBuffer data) = Z.of_nat (Nat.min 4096 (length data)).
Proof. unfold readBuffer. simpl. now rewrite length_take. Qed.

Lemma readBuffer_fits (data : list byte) :
  (length data <= 4096)%nat ->
  readBuffer data = {| backing := data ++ replicate (4096 - length data) x00;
                       slen := Z.of_nat (length data) |}.
Proof. intros H. unfold readBuffer. now rewrite take_ge by lia. Qed.

(** Reading the transaction id never panics, whatever the datagram:
    the two-byte slice is within the capacity of the buffer. *)
Lemma readId_ok (data : list byte) :
  exists b2 id, subslice (readBuffer data) 0 2 = Ok b2 /\ Uint16 b2 = Ok id.
Proof.
  pose proof (readBuffer_cap data) as Hc.
  set (buf := readBuffer data) in *.
  assert (Hlen : length (backing buf) = 4096%nat) by (unfold cap in Hc; lia).
  destruct (lookup_lt_is_Some_2 (backing buf) 0 ltac:(lia)) as [b0 H0].
  destruct (lookup_lt_is_Some_2 (backing buf) 1 ltac:(lia)) as [b1 H1].
  exists {| backing := drop (Z.to_nat 0) (backing buf); slen := 2 - 0 |}.
  exists (Z.lor (Z.shiftl (u8 b0) 8) (u8 b1)). split.
  - unfold subslice. rewrite Hc. reflexivity.
  - unfold Uint16, index. cbn [backing slen].
    change (Z.to_nat 0) with 0%nat. change (Z.to_nat 1) with 1%nat.
    rewrite drop_0, H0, H1. reflexivity.
Qed.

(** C3: a datagram of five bytes or fewer makes [handleUDP] panic: the
    decoder reads the question count at offset 5 with no test of the
    length.  The panic is not recovered, so the process ends. *)
Theorem handleUDP_short_datagram_panics (To4 : string -> list byte)
    (now : Z) (data : list byte) (addr : UDPAddr) (dns : DnsProxy) :
  (length data <= 5)%nat ->
  handleUDP To4 now data addr dns = Error Panic.
Proof.
  intros Hlen. unfold handleUDP.
  destruct (readId_ok data) as (b2 & id & -> & ->).
  unfold hostFromMsg, index. rewrite readBuffer_slen.
  replace (5 <? Z.of_nat (Nat.min 4096 (length data))) with false
    by (symmetry; apply Z.ltb_ge; lia).
  reflexivity.
Qed.

Lemma handleUDP_short_datagram_panics_witness :
  handleUDP sampleTo4 0 [] clientA sampleProxy = Error Panic
  /\ handleUDP sampleTo4 0 [x12; x34; x01; x00; x00] clientA sampleProxy
     = Error Panic.
Proof.
  split; apply handleUDP_short_datagram_panics; simpl; lia.
Defined.

(** A packet whose question count byte is not 1 decodes to the empty
    name; unless the empty name is in the exact set, the datagram is
    registered in the ledger and sent to the upstream server as it is. *)
Lemma handleUDP_other_count_forwards (To4 : string -> list byte)
    (now : Z) (data : list byte) (addr : UDPAddr) (dns : DnsProxy) (count : byte) :
  (length data <= 4096)%nat ->
  data !! 5%nat = Some count -> u8 count <> 1 ->
  isReverse (reverser dns) EmptyString = false ->
  exists dns', handleUDP To4 now data addr dns
               = Ok (ToUpstream data (serverAddr dns), dns').
Proof.
  intros Hfit H5 Hc Hrev. unfold handleUDP.
  destruct (readId_ok data) as (b2 & id & -> & ->).
  pose proof (lookup_lt_Some _ _ _ H5) as Hlt.
  assert (Hhost : hostFromMsg (readBuffer data) = Ok EmptyString).
  { unfold hostFromMsg, index. rewrite (readBuffer_fits data Hfit). simpl.
    replace (5 <? Z.of_nat (length data)) with true by (symmetry; apply Z.ltb_lt; lia).
    change (Z.to_nat 5) with 5%nat. rewrite lookup_app_l by lia. rewrite H5.
    apply Z.eqb_neq in Hc. now rewrite Hc. }
  rewrite Hhost, Hrev.
  destruct (addQuery_spec now {| query_sid := id; query_addr := addr;
                                 query_host := EmptyString |} dns)
    as (dns' & HA & _).
  exists dns'. unfold bind. rewrite HA. unfold ret. do 2 f_equal.
  f_equal. rewrite (readBuffer_fits data Hfit). unfold bytes. simpl.
  rewrite Nat2Z.id. now rewrite take_app_length.
Qed.

(** Labels that run past the end of the datagram also end in a panic. *)
Example handleUDP_truncated_name_panics :
  handleUDP sampleTo4 0 (take 14 samplePacket) clientA sampleProxy = Error Panic.
Proof. vm_compute. reflexivity. Qed.

End PacketHandling.

(** ** DNS packets: the hijack response *)

Section HijackResponse.
Import Dns Inv.

Lemma bytes_append (s : slice) (xs : list byte) :
  0 <= slen s <= cap s ->
  bytes (append s xs) = bytes s ++ xs
  /\ 0 <= slen (append s xs) <= cap (append s xs).
Proof.
  intros Hs. unfold append. cbv zeta.
  assert (Hb : length (bytes s) = Z.to_nat (slen s)).
  { unfold bytes. rewrite length_take. unfold cap in Hs. lia. }
  destruct (Z.leb_spec (slen s + Z.of_nat (length xs)) (cap s)) as [Hfit|Hgrow];
    unfold bytes at 1, cap; cbn [backing slen].
  - split.
    + rewrite app_assoc. apply take_app_length'. rewrite length_app. lia.
    + rewrite !length_app, length_drop. unfold cap in *. lia.
  - split.
    + apply take_ge. rewrite length_app. lia.
    + rewrite length_app. lia.
Qed.

Lemma store_ok (s : slice) (i : Z) (b : byte) :
  0 <= i < slen s ->
  store s i b = Ok {| backing := <[Z.to_nat i := b]> (backing s); slen := slen s |}.
Proof.
  intros Hi. unfold store.
  replace ((0 <=? i) && (i <? slen s)) with true; [reflexivity|].
  symmetry. apply andb_true_iff. split; [apply Z.leb_le | apply Z.ltb_lt]; lia.
Qed.

(** What [hackDns] writes for a datagram that holds the whole name. *)
Lemma hackDns_spec (To4 : string -> list byte) (data : list byte)
    (host target : string) (addr : UDPAddr) :
  (length data <= 4096)%nat ->
  12 + GoString.len host < Z.of_nat (length data) ->
  hackDns To4 (readBuffer data) host target addr
  = Ok (ToClient (hijackResponse data host (To4 target)) addr).
Proof.
  intros Hfit Hname.
  assert (Hh : 0 <= GoString.len host) by (unfold GoString.len; lia).
  rewrite (readBuffer_fits data Hfit).
  set (zeros := replicate (4096 - length data) x00).
  set (I3 := <[7%nat := x01]> (<[3%nat := x80]> (<[2%nat := x81]> data))).
  assert (HI3 : length I3 = length data) by (unfold I3; now rewrite !length_insert).
  assert (HB : <[7%nat := x01]> (<[3%nat := x80]> (<[2%nat := x81]> (data ++ zeros)))
               = I3 ++ zeros).
  { unfold I3. rewrite <- !insert_app_l by (rewrite ?length_insert; lia). reflexivity. }
  unfold hackDns. cbv zeta.
  rewrite (store_ok _ 2 x81) by (cbn [slen]; lia). cbv beta iota. cbn [slen backing].
  rewrite (store_ok _ 3 x80) by (cbn [slen]; lia). cbv beta iota. cbn [slen backing].
  rewrite (store_ok _ 7 x01) by (cbn [slen]; lia). cbv beta iota. cbn [slen backing].
  change (Z.to_nat 2) with 2%nat. change (Z.to_nat 3) with 3%nat.
  change (Z.to_nat 7) with 7%nat. rewrite HB.
  assert (Hzeros : length (I3 ++ zeros) = 4096%nat).
  { rewrite length_app, HI3. unfold zeros. rewrite length_replicate. lia. }
  unfold subslice, cap. cbn [slen backing]. rewrite Hzeros.
  replace ((0 <=? 12) && (12 <=? 12 + 1 + GoString.len host)
           && (12 + 1 + GoString.len host <=? Z.of_nat 4096)) with true.
  2:{ symmetry. rewrite !andb_true_iff. split; [split|];
        [reflexivity | apply Z.leb_le; lia | apply Z.leb_le; lia]. }
  set (msg3 := {| backing := I3 ++ zeros; slen := Z.of_nat (length data) |}).
  set (D := bytes {| backing := drop (Z.to_nat 12) (I3 ++ zeros);
                     slen := 12 + 1 + GoString.len host - 12 |}).
  assert (H3 : 0 <= slen msg3 <= cap msg3).
  { unfold msg3, cap. cbn [slen backing]. lia. }
  destruct (bytes_append msg3 D H3) as [E1 R1].
  destruct (bytes_append _ (take (length Answer - 4) Answer) R1) as [E2 R2].
  destruct (bytes_append _ (To4 target) R2) as [E3 _].
  rewrite E3, E2, E1. do 2 f_equal. unfold hijackResponse. rewrite <- !app_assoc.
  assert (Hm : bytes msg3 = I3).
  { unfold bytes, msg3. cbn [slen backing]. apply take_app_length'. lia. }
  assert (HD : D = take (Z.to_nat (1 + GoString.len host)) (drop 12 data)).
  { unfold D, bytes. cbn [slen backing]. change (Z.to_nat 12) with 12%nat.
    replace (12 + 1 + GoString.len host - 12) with (1 + GoString.len host) by lia.
    rewrite drop_app_le by lia. rewrite take_app_le by (rewrite length_drop; lia).
    unfold I3. rewrite !drop_insert_lt by lia. reflexivity. }
  rewrite Hm, HD. reflexivity.
Qed.

(** The bytes of the response that the query fixes. *)
Lemma hijackResponse_lookup (data : list byte) (host : string) (ip : list byte) :
  (8 <= length data)%nat ->
  hijackResponse data host ip !! 2%nat = Some x81
  /\ hijackResponse data host ip !! 3%nat = Some x80
  /\ hijackResponse data host ip !! 7%nat = Some x01
  /\ (forall k, (k < length data)%nat -> k <> 2%nat -> k <> 3%nat -> k <> 7%nat ->
        hijackResponse data host ip !! k = data !! k).
Proof.
  intros Hlen. unfold hijackResponse. split_and!.
  - rewrite lookup_app_l by (rewrite !length_insert; lia).
    rewrite !list_lookup_insert_ne by lia. apply list_lookup_insert_eq. lia.
  - rewrite lookup_app_l by (rewrite !length_insert; lia).
    rewrite list_lookup_insert_ne by lia. apply list_lookup_insert_eq.
    rewrite length_insert. lia.
  - rewrite lookup_app_l by (rewrite !length_insert; lia).
    apply list_lookup_insert_eq. rewrite !length_insert. lia.
  - intros k Hk N2 N3 N7.
    rewrite lookup_app_l by (rewrite !length_insert; lia).
    now rewrite !list_lookup_insert_ne by lia.
Qed.

End HijackResponse.

Section HijackClaim.
Import Dns Inv.

(** C4, counterexample: the response to a query for [a.example.com],
    a name the sample proxy intercepts, has the response flag set and
    the authoritative flag clear. *)
Lemma hijack_response_not_authoritative :
  match handleUDP sampleTo4 0 samplePacket clientA sampleProxy with
  | Ok (ToClient resp _, _) => flagQR resp = true /\ flagAA resp = false
  | _ => False
  end.
Proof. vm_compute. split; reflexivity. Qed.

(** C4, as amended: for every datagram that fits the buffer, has the
    question count byte 1 and no answer count, and whose decoded name
    is intercepted, [handleUDP] writes one datagram back to the sender
    and leaves the ledger as it is.  The response is the query with the
    flag bytes set to 0x81 0x80 (response, recursion desired and
    recursion available set, authoritative clear) and the low byte of
    the answer count set to 1, every other byte of the query (so the
    question section) unchanged, followed by a copy of the question
    name and an answer of type A, class IN, TTL 4294967295 and data
    length 4 whose data are the bytes of the hijack target. *)
Theorem hijack_response_layout (To4 : string -> list byte)
    (now : Z) (data : list byte) (addr : UDPAddr) (dns : DnsProxy) (host : string) :
  (length data <= 4096)%nat ->
  data !! 5%nat = Some x01 ->
  data !! 6%nat = Some x00 ->
  hostFromMsg (readBuffer data) = Ok host ->
  isReverse (reverser dns) host = true ->
  exists resp,
    handleUDP To4 now data addr dns = Ok (ToClient resp addr, dns)
    /\ resp = hijackResponse data host (To4 (dnsHack dns))
    /\ flagQR resp = true /\ flagRD resp = true /\ flagRA resp = true
    /\ flagAA resp = false
    /\ ANCOUNT resp = 1
    /\ (forall k, (k < length data)%nat -> k <> 2%nat -> k <> 3%nat -> k <> 7%nat ->
          resp !! k = data !! k)
    /\ take (Z.to_nat (1 + GoString.len host)) (drop (length data) resp)
       = take (Z.to_nat (1 + GoString.len host)) (drop 12 data)
    /\ rrTYPE (answerOf data host resp) = 1
    /\ rrCLASS (answerOf data host resp) = 1
    /\ rrTTL (answerOf data host resp) = 4294967295
    /\ rrRDLENGTH (answerOf data host resp) = 4
    /\ rrRDATA (answerOf data host resp) = To4 (dnsHack dns).
Proof.
  intros Hfit H5 H6 Hhost Hrev.
  (* the name and its final zero byte lie within the datagram *)
  assert (Hname : 12 + GoString.len host < Z.of_nat (length data)).
  { unfold hostFromMsg in Hhost.
    destruct (index (readBuffer data) 5) as [c|f] eqn:E5; [|discriminate].
    apply index_Ok in E5 as [_ E5]. rewrite (readBuffer_fits data Hfit) in E5.
    simpl in E5. change (Z.to_nat 5) with 5%nat in E5.
    rewrite lookup_app_l in E5 by (apply lookup_lt_Some in H5; lia).
    rewrite H5 in E5. injection E5 as <-.
    change (u8 x01 =? 1) with true in Hhost. cbv iota in Hhost.
    apply hostLoop_length in Hhost as (n & Hn & Hlen & _ & Hlt & _).
    rewrite readBuffer_slen in Hlt. unfold GoString.len in Hlen. simpl in Hlen.
    unfold GoString.len. lia. }
  assert (Hh : 0 <= GoString.len host) by (unfold GoString.len; lia).
  exists (hijackResponse data host (To4 (dnsHack dns))). split.
  { unfold handleUDP. destruct (readId_ok data) as (b2 & id & -> & ->).
    rewrite Hhost, Hrev. now rewrite (hackDns_spec To4 data host _ addr Hfit Hname). }
  split; [reflexivity|].
  destruct (hijackResponse_lookup data host (To4 (dnsHack dns)) ltac:(lia))
    as (L2 & L3 & L7 & Lk).
  assert (B2 : byteAt (hijackResponse data host (To4 (dnsHack dns))) 2 = 129).
  { unfold byteAt. now rewrite nth_lookup, L2. }
  assert (B3 : byteAt (hijackResponse data host (To4 (dnsHack dns))) 3 = 128).
  { unfold byteAt. now rewrite nth_lookup, L3. }
  assert (B6 : byteAt (hijackResponse data host (To4 (dnsHack dns))) 6 = 0).
  { unfold byteAt. rewrite nth_lookup, Lk by lia. now rewrite H6. }
  assert (B7 : byteAt (hijackResponse data host (To4 (dnsHack dns))) 7 = 1).
  { unfold byteAt. now rewrite nth_lookup, L7. }
  set (m := Z.to_nat (1 + GoString.len host)).
  set (I3 := <[7%nat := x01]> (<[3%nat := x80]> (<[2%nat := x81]> data))).
  assert (HI3 : length I3 = length data) by (unfold I3; now rewrite !length_insert).
  assert (HQ : length (take m (drop 12 data)) = m).
  { rewrite length_take, length_drop. unfold m. lia. }
  assert (Hrr : answerOf data host (hijackResponse data host (To4 (dnsHack dns)))
                = [x00; x01; x00; x01; xff; xff; xff; xff; x00; x04]
                  ++ To4 (dnsHack dns)).
  { unfold answerOf, hijackResponse. fold m I3. rewrite app_assoc.
    apply drop_app_length'. rewrite length_app. lia. }
  unfold flagQR, flagRD, flagRA, flagAA, ANCOUNT, be16.
  change (6 + 1)%nat with 7%nat. rewrite B2, B3, B6, B7, Hrr.
  split_and!; try reflexivity; [exact Lk|].
  unfold hijackResponse. fold m I3. rewrite <- HI3.
  rewrite drop_app_length. apply take_app_length'. now rewrite HQ.
Qed.

Lemma hijack_response_layout_witness :
  exists resp,
    handleUDP sampleTo4 0 samplePacket clientA sampleProxy
    = Ok (ToClient resp clientA, sampleProxy)
    /\ flagQR resp = true /\ flagAA resp = false /\ ANCOUNT resp = 1
    /\ rrRDATA (answerOf samplePacket "a.example.com." resp) = [x0a; x00; x00; x02].
Proof.
  destruct (hijack_response_layout sampleTo4 0 samplePacket clientA sampleProxy
              "a.example.com.")
    as (resp & HU & _ & Q & _ & _ & A & N & _ & _ & _ & _ & _ & _ & D).
  - simpl. lia.
  - reflexivity.
  - reflexivity.
  - vm_compute. reflexivity.
  - vm_compute. reflexivity.
  - exists resp. split_and!; assumption.
Defined.

End HijackClaim.

(** ** DNS packets: forward and relay *)

Section ForwardRelay.
Import Dns Inv.

(** The decoder on the spec's own example: the labels [www], [example]
    and [com] decode to the name with a final dot. *)
Example hostFromMsg_www_example_com :
  hostFromMsg
    (readBuffer [x00; x2a; x01; x00; x00; x01; x00; x00; x00; x00; x00; x00;
                 x03; x77; x77; x77;
                 x07; x65; x78; x61; x6d; x70; x6c; x65;
                 x03; x63; x6f; x6d; x00;
                 x00; x01; x00; x01])
  = Ok "www.example.com."%string.
Proof. vm_compute. reflexivity. Qed.

Lemma readBuffer_lookup (data : list byte) (k : nat) :
  (k < length data)%nat -> (k < 4096)%nat ->
  backing (readBuffer data) !! k = data !! k.
Proof.
  intros Hk Hk'. unfold readBuffer. simpl.
  rewrite lookup_app_l by (rewrite length_take; lia).
  now apply lookup_take_lt.
Qed.

(** The transaction id is the big-endian value of the first two bytes. *)
Lemma readId_value (data : list byte) :
  (2 <= length data)%nat ->
  exists b2, subslice (readBuffer data) 0 2 = Ok b2
             /\ Uint16 b2 = Ok (be16 data 0).
Proof.
  intros Hlen.
  destruct (lookup_lt_is_Some_2 data 0 ltac:(lia)) as [b0 H0].
  destruct (lookup_lt_is_Some_2 data 1 ltac:(lia)) as [b1 H1].
  exists {| backing := drop (Z.to_nat 0) (backing (readBuffer data)); slen := 2 - 0 |}.
  split.
  - unfold subslice. rewrite readBuffer_cap. reflexivity.
  - unfold Uint16, index. cbn [backing slen].
    change (Z.to_nat 0) with 0%nat. change (Z.to_nat 1) with 1%nat.
    rewrite drop_0, !readBuffer_lookup by lia. rewrite H0, H1.
    unfold be16, byteAt. rewrite !nth_lookup. change (0 + 1)%nat with 1%nat.
    rewrite H0, H1. reflexivity.
Qed.

(** The forward path of [handleUDP]. *)
Lemma handleUDP_forwards (To4 : string -> list byte)
    (now : Z) (data : list byte) (addr : UDPAddr) (dns : DnsProxy) (host : string) :
  (length data <= 4096)%nat ->
  hostFromMsg (readBuffer data) = Ok host ->
  isReverse (reverser dns) host = false ->
  exists dns',
    handleUDP To4 now data addr dns = Ok (ToUpstream data (serverAddr dns), dns')
    /\ addQuery now {| query_sid := be16 data 0; query_addr := addr;
                       query_host := host |} dns = Ok (tt, dns').
Proof.
  intros Hfit Hhost Hrev.
  assert (Hlen : (6 <= length data)%nat).
  { unfold hostFromMsg in Hhost.
    destruct (index (readBuffer data) 5) as [c|f] eqn:E5; [|discriminate].
    apply index_Ok in E5 as [R _]. rewrite readBuffer_slen in R. lia. }
  destruct (readId_value data ltac:(lia)) as (b2 & Hb2 & Hid).
  destruct (addQuery_spec now {| query_sid := be16 data 0; query_addr := addr;
                                 query_host := host |} dns) as (dns' & HA & _).
  exists dns'. split; [|exact HA].
  unfold handleUDP. rewrite Hb2, Hid, Hhost, Hrev.
  unfold bind. rewrite HA. unfold ret. do 3 f_equal.
  rewrite (readBuffer_fits data Hfit). unfold bytes. simpl.
  rewrite Nat2Z.id. now rewrite take_app_length.
Qed.

(** A query that is forwarded and the reply with its transaction id: the
    query goes to the upstream server as it came, and the reply goes to
    the address the query came from, as it came.  The id must not be
    that of an entry already in the ledger. *)
Theorem forwarded_query_reply_reaches_client (To4 : string -> list byte)
    (now : Z) (data reply : list byte) (addr : UDPAddr) (dns : DnsProxy)
    (host : string) :
  (length data <= 4096)%nat ->
  (2 <= length reply <= 4096)%nat ->
  hostFromMsg (readBuffer data) = Ok host ->
  isReverse (reverser dns) host = false ->
  be16 reply 0 = be16 data 0 ->
  (forall e, In e (entries dns) -> entry_sid e <> be16 data 0) ->
  exists dns1 dns2,
    handleUDP To4 now data addr dns = Ok (ToUpstream data (serverAddr dns), dns1)
    /\ processUpstream reply dns1 = Ok (Some (ToClient reply addr), dns2)
    /\ entries dns2 ≡ₚ entries dns.
Proof.
  intros Hfit Hrep Hhost Hrev Hid Hfresh.
  destruct (handleUDP_forwards To4 now data addr dns host Hfit Hhost Hrev)
    as (dns1 & HU & HA).
  set (q := {| query_sid := be16 data 0; query_addr := addr; query_host := host |}) in *.
  destruct (addQuery_spec now q dns) as (dns1' & HA' & P & _ & Sx & [i Hi] & _).
  rewrite HA in HA'. injection HA' as <-.
  destruct (removeQuery_present dns1 (query_sid q) i Sx Hi)
    as (e & dns2 & He & Hes & HR & P2 & _).
  assert (Ee : e = queryEntry now q).
  { pose proof (at_index_elem _ _ _ He) as Hin.
    apply (Permutation_in _ P) in Hin. destruct Hin as [<-|Hin]; [reflexivity|].
    exfalso. apply (Hfresh e Hin). exact Hes. }
  exists dns1, dns2. split; [exact HU|]. split.
  - destruct (readId_value reply ltac:(lia)) as (b2 & Hb2 & Hidr).
    unfold processUpstream. rewrite Hb2, Hidr, Hid.
    unfold bind. change (be16 data 0) with (query_sid q). rewrite HR.
    unfold ret. rewrite Ee. simpl. do 3 f_equal.
    rewrite (readBuffer_fits reply ltac:(lia)). unfold bytes. simpl.
    rewrite Nat2Z.id. now rewrite take_app_length.
  - rewrite P2 in P. rewrite Ee in P. now apply Permutation_cons_inv in P.
Qed.

Lemma forwarded_query_reply_reaches_client_witness :
  exists dns1 dns2,
    handleUDP sampleTo4 0
      [x00; x2a; x01; x00; x00; x01; x00; x00; x00; x00; x00; x00;
       x03; x77; x77; x77; x03; x6f; x72; x67; x00; x00; x01; x00; x01]
      clientA sampleProxy
    = Ok (ToUpstream
            [x00; x2a; x01; x00; x00; x01; x00; x00; x00; x00; x00; x00;
             x03; x77; x77; x77; x03; x6f; x72; x67; x00; x00; x01; x00; x01]
            upstream, dns1)
    /\ processUpstream [x00; x2a; x81; x80; x00; x01; x00; x00] dns1
       = Ok (Some (ToClient [x00; x2a; x81; x80; x00; x01; x00; x00] clientA), dns2).
Proof.
  destruct (forwarded_query_reply_reaches_client sampleTo4 0
              [x00; x2a; x01; x00; x00; x01; x00; x00; x00; x00; x00; x00;
               x03; x77; x77; x77; x03; x6f; x72; x67; x00; x00; x01; x00; x01]
              [x00; x2a; x81; x80; x00; x01; x00; x00]
              clientA sampleProxy "www.org.")
    as (dns1 & dns2 & HU & HP & _).
  - simpl. lia.
  - simpl. lia.
  - vm_compute. reflexivity.
  - vm_compute. reflexivity.
  - reflexivity.
  - intros e [].
  - exists dns1, dns2. split; assumption.
Defined.

(** The heap of every reachable state is a min-heap on the expiry with
    a sound index: the root expires first. *)
Theorem reachable_ledger_is_min_heap (h : DnsProxy) :
  reachable h ->
  heap_ordered (entries h) /\ index_sound h
  /\ (forall r k e, at_index (entries h) 0 = Some r ->
        at_index (entries h) k = Some e -> entry_ts r <= entry_ts e).
Proof.
  intros Hr. destruct (reachable_inv h Hr) as [Hs Ho].
  split; [exact Ho|]. split; [exact Hs|].
  intros r k e H0 Hk. eapply root_min; eauto.
Qed.

Lemma reachable_ledger_is_min_heap_witness :
  match addAll [(5 * Second, sampleQuery 7 clientA); (0, sampleQuery 9 clientB);
                (1 * Second, sampleQuery 4 clientA)] sampleProxy with
  | Ok (_, h) =>
      heap_ordered (entries h)
      /\ map entry_sid (entries h) = [9; 7; 4]
  | Error _ => False
  end.
Proof.
  destruct (addAll [(5 * Second, sampleQuery 7 clientA); (0, sampleQuery 9 clientB);
                    (1 * Second, sampleQuery 4 clientA)] sampleProxy)
    as [[[] h]|f] eqn:E; [|vm_compute in E; discriminate].
  pose proof (addAll_reachable _ _ _ (reach_new _ _ _) E) as Hr.
  destruct (reachable_ledger_is_min_heap h Hr) as (Ho & _ & _).
  split; [exact Ho|].
  clear Hr Ho. vm_compute in E. injection E as <-. reflexivity.
Defined.

End ForwardRelay.

(** ** Hostname match table: what is intercepted, and what is loaded *)

Section MatchTableExact.
Import GoString.

Lemma string_app_assoc (a b c : string) : (a +:+ b) +:+ c = a +:+ (b +:+ c).
Proof.
  induction a as [|x a IH]; [reflexivity|].
  change (String x ((a +:+ b) +:+ c) = String x (a +:+ (b +:+ c))).
  now rewrite IH.
Qed.

Lemma Join_app_cons (sep : ascii) (l1 l2 : list string) (x : string) :
  l1 <> [] ->
  Join sep (l1 ++ x :: l2) = Join sep l1 +:+ String sep (Join sep (x :: l2)).
Proof.
  induction l1 as [|a l1 IH]; intros Hne; [contradiction|].
  destruct l1 as [|b l1].
  - reflexivity.
  - change (Join sep ((a :: b :: l1) ++ x :: l2))
      with (a +:+ String sep (Join sep ((b :: l1) ++ x :: l2))).
    rewrite IH by discriminate.
    change (Join sep (a :: b :: l1)) with (a +:+ String sep (Join sep (b :: l1))).
    symmetry. apply (string_app_assoc a (String sep (Join sep (b :: l1)))).
Qed.

Lemma Split_Join_length (sep : ascii) (l : list string) :
  l <> [] -> (length l <= length (Split sep (Join sep l)))%nat.
Proof.
  induction l as [|a l IH]; intros Hne; [contradiction|].
  destruct l as [|b l].
  - simpl. pose proof (Split_not_nil sep a).
    destruct (Split sep a); [contradiction | simpl; lia].
  - change (Join sep (a :: b :: l)) with (a +:+ String sep (Join sep (b :: l))).
    rewrite Split_app, length_app.
    pose proof (Split_not_nil sep a).
    specialize (IH ltac:(discriminate)).
    destruct (Split sep a); [contradiction | simpl in *; lia].
Qed.

(** The loop of [isReverse] answers true exactly when one of the
    suffixes of at least two labels is a key of the wildcard set. *)
Lemma suffixLoop_true_iff (m : gmap string Z) (ss : list string) :
  suffixLoop m ss = true <->
  exists k, (k + 2 <= length ss)%nat /\ is_Some (m !! Join "." (drop k ss)).
Proof.
  induction ss as [|a ss IH].
  { split; [discriminate|]. intros (k & Hk & _). simpl in Hk. lia. }
  destruct ss as [|b ss].
  { split; [discriminate|]. intros (k & Hk & _). simpl in Hk. lia. }
  change (suffixLoop m (a :: b :: ss))
    with (if bool_decide (is_Some (m !! Join "." (a :: b :: ss)))
          then true else suffixLoop m (b :: ss)).
  destruct (bool_decide (is_Some (m !! Join "." (a :: b :: ss)))) eqn:E.
  - split; [intros _|reflexivity].
    apply bool_decide_eq_true in E. exists 0%nat. split; [simpl; lia | exact E].
  - apply bool_decide_eq_false in E. rewrite IH. split.
    + intros (k & Hk & Hin). exists (S k). split; [simpl in *; lia | exact Hin].
    + intros ([|k] & Hk & Hin); [contradiction|].
      exists k. split; [simpl in *; lia | exact Hin].
Qed.

Lemma isReverse_true_iff (s : wsServer) (host : string) :
  isReverse s host = true <->
  is_Some (reverseUrlMap s !! stripDot host)
  \/ exists d, is_Some (reversePrefix s !! d)
       /\ (2 <= length (Split "." d))%nat
       /\ (stripDot host = d \/ exists p, stripDot host = p +:+ String "." d).
Proof.
  unfold isReverse. cbv zeta.
  destruct (bool_decide (is_Some (reverseUrlMap s !! stripDot host))) eqn:E.
  { apply bool_decide_eq_true in E. split; auto. }
  apply bool_decide_eq_false in E. rewrite suffixLoop_true_iff. split.
  - intros (k & Hk & Hin). right.
    set (ls := Split "." (stripDot host)) in *.
    exists (Join "." (drop k ls)). split; [exact Hin|].
    assert (Hlen : (2 <= length (drop k ls))%nat) by (rewrite length_drop; lia).
    split.
    + etransitivity; [exact Hlen|]. apply Split_Join_length.
      destruct (drop k ls); [simpl in Hlen; lia | discriminate].
    + assert (Hhost : stripDot host = Join "." (take k ls ++ drop k ls)).
      { rewrite take_drop. unfold ls. now rewrite Join_Split. }
      destruct k as [|k]; [left; now rewrite Hhost|]. right.
      exists (Join "." (take (S k) ls)). rewrite Hhost.
      destruct (drop (S k) ls) as [|x l2] eqn:Ed; [simpl in Hlen; lia|].
      apply Join_app_cons.
      destruct ls; [simpl in Hk; lia | discriminate].
  - intros [Hex|(d & Hin & Hd & [Hh|[p Hh]])]; [contradiction| |].
    + exists 0%nat. rewrite drop_0, Hh. split; [lia|]. now rewrite Join_Split.
    + rewrite Hh, Split_app.
      apply suffixLoop_true_iff, suffixLoop_app; [exact Hd|]. now rewrite Join_Split.
Qed.

(** A host is intercepted exactly when, with one trailing dot dropped,
    it is a member of the exact set, or it is a key [d] of at least two
    labels of the wildcard set or ends in [.d] for such a key. *)
Theorem isReverse_exactly_listed_or_suffix (s : wsServer) (host : string) :
  isReverse s host = true <->
  is_Some (reverseUrlMap s !! stripDot host)
  \/ exists d, is_Some (reversePrefix s !! d)
       /\ (2 <= length (Split "." d))%nat
       /\ (stripDot host = d \/ exists p, stripDot host = p +:+ String "." d).
Proof. exact (isReverse_true_iff s host). Qed.

Lemma slice_wildcard_inv (dns : string) :
  slice dns 0 2 = "*."%string ->
  dns = String "*" (String "." (slice dns 2 (len dns))).
Proof.
  unfold slice, len. destruct dns as [|c1 [|c2 r]]; simpl; try discriminate.
  intros [= -> -> _]. do 2 f_equal.
  replace (Z.to_nat (Z.of_nat (S (S (String.length r))) - 2)) with (String.length r) by lia.
  symmetry. apply substring_all.
Qed.

Lemma parseLine_tables (s : wsServer) (dns k : string) :
  (is_Some (reverseUrlMap (parseLine s dns) !! k) <->
   is_Some (reverseUrlMap s !! k)
   \/ (k = dns /\ 2 < len dns /\ slice dns 0 2 <> "*."%string))
  /\ (is_Some (reversePrefix (parseLine s dns) !! k) <->
      is_Some (reversePrefix s !! k)
      \/ (dns = String "*" (String "." k) /\ k <> EmptyString)).
Proof.
  unfold parseLine. destruct (Z.ltb_spec 2 (len dns)) as [Hlen|Hlen].
  - destruct (String.eqb_spec (slice dns 0 2) "*.") as [Hw|Hw]; simpl.
    + split.
      * split; [auto|]. intros [H|(_ & _ & H)]; [exact H | contradiction].
      * rewrite lookup_insert_is_Some. split.
        -- intros [Hk|[_ H]]; [|auto]. right. subst k.
           split; [now apply slice_wildcard_inv|].
           intros E. apply slice_wildcard_inv in Hw. rewrite E in Hw.
           rewrite Hw in Hlen. unfold len in Hlen. simpl in Hlen. lia.
        -- intros [H|[Hd Hk]].
           ++ destruct (decide (slice dns 2 (len dns) = k)); auto.
           ++ left. subst dns. unfold slice, len. simpl.
              replace (Z.to_nat (Z.of_nat (S (S (String.length k))) - 2))
                with (String.length k) by lia.
              apply substring_all.
    + split.
      * rewrite lookup_insert_is_Some. split.
        -- intros [Hk|[_ H]]; auto.
        -- intros [H|(-> & _ & _)]; [|auto].
           destruct (decide (dns = k)); auto.
      * split; [auto|]. intros [H|[Hd _]]; [exact H|].
        exfalso. apply Hw. subst dns. unfold slice. simpl. now destruct k.
  - split.
    + split; [auto|]. intros [H|(_ & H & _)]; [exact H | lia].
    + split; [auto|]. intros [H|[Hd Hk]]; [exact H|].
      exfalso. subst dns. unfold len in Hlen. simpl in Hlen.
      destruct k; [contradiction | simpl in Hlen; lia].
Qed.

Lemma parseDNS_tables (lines : list string) :
  forall (s : wsServer) (k : string),
    (is_Some (reverseUrlMap (parseDNS lines s) !! k) <->
     is_Some (reverseUrlMap s !! k)
     \/ (In k lines /\ 2 < len k /\ slice k 0 2 <> "*."%string))
    /\ (is_Some (reversePrefix (parseDNS lines s) !! k) <->
        is_Some (reversePrefix s !! k)
        \/ (In (String "*" (String "." k)) lines /\ k <> EmptyString)).
Proof.
  induction lines as [|l lines IH]; intros s k.
  { simpl. split; (split; [auto|]); intros [H|[[] _]]; exact H. }
  simpl. destruct (IH (parseLine s l) k) as [IH1 IH2].
  destruct (parseLine_tables s l k) as [P1 P2].
  rewrite IH1, IH2, P1, P2. clear. split; split.
  - intros [[H|(-> & H)]|(H1 & H2)]; auto 6.
  - intros [H|([->|H1] & H2)]; auto 6.
  - intros [[H|(<- & H)]|(H1 & H2)]; auto 6.
  - intros [H|([<-|H1] & H2)]; auto 6.
Qed.


(** The empty name, which [hostFromMsg] gives for a packet whose
    question count is not 1, is in no table loaded from a hosts file. *)
Lemma isReverse_empty_host (lines : list string) :
  isReverse (parseDNS lines newServer) EmptyString = false.
Proof.
  unfold isReverse. change (stripDot EmptyString) with EmptyString. cbv zeta.
  rewrite bool_decide_eq_false_2; [reflexivity|].
  intros H. apply (parseDNS_tables lines newServer EmptyString) in H.
  destruct H as [[x Hx]|(_ & Hlen & _)].
  - simpl in Hx. rewrite lookup_empty in Hx. discriminate.
  - unfold len in Hlen. simpl in Hlen. lia.
Qed.

(** For a table loaded from a hosts file: the lines that intercept. *)
Lemma isReverse_listed_iff (lines : list string) (host : string) :
  isReverse (parseDNS lines newServer) host = true <->
  listed lines (stripDot host).
Proof.
  rewrite isReverse_true_iff. unfold listed.
  destruct (parseDNS_tables lines newServer (stripDot host)) as [H1 _].
  rewrite H1. simpl. rewrite lookup_empty. split.
  - intros [[[x Hx]|H]|(d & Hd & Hn & Hh)]; [discriminate | now left |].
    right. exists d. split; [|auto].
    apply (parseDNS_tables lines newServer d) in Hd.
    simpl in Hd. rewrite lookup_empty in Hd.
    destruct Hd as [[x Hx]|[Hd _]]; [discriminate | exact Hd].
  - intros [H|(d & Hd & Hn & Hh)]; [left; now right|].
    right. exists d. split; [|auto].
    apply (parseDNS_tables lines newServer d). right. split; [exact Hd|].
    intros ->. simpl in Hn. lia.
Qed.

End MatchTableExact.

(** ** Queries that do not carry exactly one question *)

Section UnparsedQueries.
Import Dns Inv.

Lemma hostFromMsg_other_count (data : list byte) (count : byte) :
  (length data <= 4096)%nat ->
  data !! 5%nat = Some count -> u8 count <> 1 ->
  hostFromMsg (readBuffer data) = Ok EmptyString.
Proof.
  intros Hfit H5 Hc. pose proof (lookup_lt_Some _ _ _ H5) as Hlt.
  unfold hostFromMsg, index. rewrite (readBuffer_fits data Hfit). simpl.
  replace (5 <? Z.of_nat (length data)) with true by (symmetry; apply Z.ltb_lt; lia).
  change (Z.to_nat 5) with 5%nat. rewrite lookup_app_l by lia. rewrite H5.
  apply Z.eqb_neq in Hc. now rewrite Hc.
Qed.

(** A datagram of at least six bytes whose question count byte is not 1
    is never answered by the proxy itself, whatever the hosts file
    holds: it is sent to the upstream server as it came and registered
    under its transaction id with the empty name. *)
Theorem query_without_one_question_is_forwarded (To4 : string -> list byte)
    (lines : list string) (now : Z) (data : list byte) (addr : UDPAddr)
    (dns : DnsProxy) (count : byte) :
  reverser dns = parseDNS lines newServer ->
  (length data <= 4096)%nat ->
  data !! 5%nat = Some count -> u8 count <> 1 ->
  exists dns',
    handleUDP To4 now data addr dns = Ok (ToUpstream data (serverAddr dns), dns')
    /\ entries dns' ≡ₚ
         queryEntry now {| query_sid := be16 data 0; query_addr := addr;
                           query_host := EmptyString |} :: entries dns.
Proof.
  intros Hrev Hfit H5 Hc.
  pose proof (hostFromMsg_other_count data count Hfit H5 Hc) as Hhost.
  destruct (handleUDP_forwards To4 now data addr dns EmptyString Hfit Hhost)
    as (dns' & HU & HA).
  { rewrite Hrev. apply isReverse_empty_host. }
  exists dns'. split; [exact HU|].
  destruct (addQuery_spec now {| query_sid := be16 data 0; query_addr := addr;
                                 query_host := EmptyString |} dns)
    as (dns1 & HA' & P & _).
  rewrite HA in HA'. injection HA' as <-. exact P.
Qed.

Lemma query_without_one_question_is_forwarded_witness :
  exists dns',
    handleUDP sampleTo4 0
      [x00; x2a; x01; x00; x00; x02; x00; x00; x00; x00; x00; x00] clientA sampleProxy
    = Ok (ToUpstream [x00; x2a; x01; x00; x00; x02; x00; x00; x00; x00; x00; x00]
            (serverAddr sampleProxy), dns')
    /\ entries dns' ≡ₚ
         queryEntry 0 {| query_sid := be16 [x00; x2a; x01; x00; x00; x02; x00; x00;
                                            x00; x00; x00; x00] 0;
                         query_addr := clientA;
                         query_host := EmptyString |} :: entries sampleProxy.
Proof.
  apply (query_without_one_question_is_forwarded sampleTo4 ["*.example.com"%string]
           0 [x00; x2a; x01; x00; x00; x02; x00; x00; x00; x00; x00; x00]
           clientA sampleProxy x02).
  - reflexivity.
  - simpl. lia.
  - reflexivity.
  - vm_compute. discriminate.
Defined.

End UnparsedQueries.

(** ** Replies from the upstream server *)

Section UpstreamReplies.
Import Dns Inv.

Lemma readBuffer_nth (data : list byte) (k : nat) :
  (k < 4096)%nat -> nth k (backing (readBuffer data)) x00 = nth k data x00.
Proof.
  intros Hk. unfold readBuffer. cbn [backing].
  destruct (Nat.lt_ge_cases k (length data)) as [Hlt|Hge].
  - rewrite app_nth1 by (rewrite length_take; lia).
    rewrite !nth_lookup. now rewrite lookup_take_lt by lia.
  - rewrite app_nth2 by (rewrite length_take; lia).
    rewrite (nth_overflow data) by lia.
    rewrite nth_lookup. destruct (replicate _ _ !! _) as [b|] eqn:E; [|reflexivity].
    apply lookup_replicate in E as [-> _]. reflexivity.
Qed.

Lemma readBuffer_bytes (data : list byte) :
  bytes (readBuffer data) = take 4096 data.
Proof.
  unfold bytes, readBuffer. cbn [backing slen]. rewrite Nat2Z.id.
  now rewrite take_app_length.
Qed.

(** The id is read from the buffer, not from the datagram: a datagram
    of fewer than two bytes gives the id of its bytes followed by zero
    bytes, and no panic. *)
Lemma readId_any (data : list byte) :
  exists b2, subslice (readBuffer data) 0 2 = Ok b2
             /\ Uint16 b2 = Ok (be16 data 0).
Proof.
  pose proof (readBuffer_cap data) as Hc.
  assert (Hlen : length (backing (readBuffer data)) = 4096%nat)
    by (unfold cap in Hc; lia).
  destruct (lookup_lt_is_Some_2 (backing (readBuffer data)) 0 ltac:(lia)) as [b0 H0].
  destruct (lookup_lt_is_Some_2 (backing (readBuffer data)) 1 ltac:(lia)) as [b1 H1].
  exists {| backing := drop (Z.to_nat 0) (backing (readBuffer data)); slen := 2 - 0 |}.
  split.
  - unfold subslice. rewrite Hc. reflexivity.
  - unfold Uint16, index. cbn [backing slen].
    change (Z.to_nat 0) with 0%nat. change (Z.to_nat 1) with 1%nat.
    rewrite drop_0, H0, H1.
    unfold be16, byteAt. change (0 + 1)%nat with 1%nat.
    rewrite <- (readBuffer_nth data 0), <- (readBuffer_nth data 1) by lia.
    rewrite !nth_lookup, H0, H1. reflexivity.
Qed.

(** The two ways [processUpstream] returns. *)
Lemma processUpstream_cases (reply : list byte) (dns : DnsProxy) :
  reachable dns ->
  (indices dns !! be16 reply 0 = None
   /\ processUpstream reply dns = Ok (None, dns))
  \/ (exists e dns',
        In e (entries dns) /\ entry_sid e = be16 reply 0
        /\ processUpstream reply dns
           = Ok (Some (ToClient (take 4096 reply) (query_addr (entry_q e))), dns')
        /\ entries dns ≡ₚ e :: entries dns'
        /\ indices dns' !! be16 reply 0 = None
        /\ reachable dns' /\ same_config dns dns').
Proof.
  intros Hr. destruct (reachable_inv dns Hr) as [Hs _].
  destruct (readId_any reply) as (b2 & Hb2 & Hid).
  unfold processUpstream. rewrite Hb2, Hid.
  destruct (indices dns !! be16 reply 0) as [i|] eqn:Ei.
  - right.
    destruct (removeQuery_present dns (be16 reply 0) i (Hs _) Ei)
      as (e & dns' & He & Hes & HR & P & _ & _ & _ & Hnone & _ & Hcfg).
    exists e, dns'. split; [exact (at_index_elem _ _ _ He)|]. split; [exact Hes|].
    split; [|split; [exact P|split; [exact Hnone|split; [|exact Hcfg]]]].
    + unfold bind. rewrite HR. unfold ret. now rewrite readBuffer_bytes.
    + exact (reach_remove dns _ _ dns' Hr HR).
  - left. split; [reflexivity|].
    unfold bind. rewrite (removeQuery_absent dns _ Ei). reflexivity.
Qed.

(** [processUpstream] never panics in a state the ledger can be in,
    whatever the datagram, also one of fewer than two bytes.  With no
    position in the index for the id of the datagram it sends nothing
    and leaves the proxy as it was; otherwise it takes one entry with
    that id out of the ledger and sends the datagram, as it came up to
    the 4096 bytes of the buffer, to the address that entry's query
    came from. *)
Theorem processUpstream_relays_or_drops (reply : list byte) (dns : DnsProxy) :
  reachable dns ->
  (indices dns !! be16 reply 0 = None
   /\ processUpstream reply dns = Ok (None, dns))
  \/ (exists e dns',
        In e (entries dns) /\ entry_sid e = be16 reply 0
        /\ processUpstream reply dns
           = Ok (Some (ToClient (take 4096 reply) (query_addr (entry_q e))), dns')
        /\ entries dns ≡ₚ e :: entries dns'
        /\ indices dns' !! be16 reply 0 = None
        /\ reachable dns').
Proof.
  intros Hr.
  destruct (processUpstream_cases reply dns Hr)
    as [H|(e & dns' & H1 & H2 & H3 & H4 & H5 & H6 & _)]; [left; exact H|].
  right. exists e, dns'. auto 10.
Qed.

Lemma processUpstream_relays_or_drops_witness :
  (indices sampleProxy !! be16 [x12] 0 = None
   /\ processUpstream [x12] sampleProxy = Ok (None, sampleProxy))
  \/ (exists e dns',
        In e (entries sampleProxy) /\ entry_sid e = be16 [x12] 0
        /\ processUpstream [x12] sampleProxy
           = Ok (Some (ToClient (take 4096 [x12]) (query_addr (entry_q e))), dns')
        /\ entries sampleProxy ≡ₚ e :: entries dns'
        /\ indices dns' !! be16 [x12] 0 = None
        /\ reachable dns').
Proof.
  apply (processUpstream_relays_or_drops [x12] sampleProxy).
  apply reach_new.
Defined.

End UpstreamReplies.

(** ** The name decoder against the wire format *)

Section NameDecoder.
Import Dns Inv Wire.

Lemma string_app_nil_r (s : string) : s +:+ EmptyString = s.
Proof.
  induction s as [|c s IH]; [reflexivity|].
  change (String c (s +:+ EmptyString) = String c s). now rewrite IH.
Qed.

Lemma string_of_list_byte_length_eq (l : list byte) :
  GoString.len (string_of_list_byte l) = Z.of_nat (length l).
Proof. unfold GoString.len. now rewrite length_string_of_list_byte. Qed.

Lemma hostLoop_S (fuel : nat) (msg : slice) (offset : Z) (domain : string) :
  hostLoop (S fuel) msg offset domain =
  match index msg offset with
  | Error f => Error f
  | Ok b =>
      if int8 b =? 0 then Ok domain
      else
        match subslice msg (offset + 1) (offset + 1 + int8 b) with
        | Error f => Error f
        | Ok label =>
            hostLoop fuel msg (offset + 1 + int8 b)
              (domain +:+ string_of_list_byte (bytes label) +:+ ".")
        end
  end.
Proof. reflexivity. Qed.

Lemma u8_range (b : byte) : 0 <= u8 b < 256.
Proof.
  unfold u8. pose proof (Byte.to_N_bounded b). lia.
Qed.

Lemma u8_inj (b c : byte) : u8 b = u8 c -> b = c.
Proof.
  unfold u8. intros H. apply N2Z.inj in H.
  assert (E : Some b = Some c)
    by (rewrite <- (Byte.of_to_N b), <- (Byte.of_to_N c); now rewrite H).
  now injection E.
Qed.

Lemma lenByte_u8 (l : list byte) :
  (length l <= 255)%nat -> u8 (lenByte l) = Z.of_nat (length l).
Proof.
  intros H. unfold lenByte, u8.
  destruct (Byte.of_N (N.of_nat (length l))) as [b|] eqn:E.
  - apply Byte.to_of_N in E. simpl. rewrite E. lia.
  - apply Byte.of_N_None_iff in E. lia.
Qed.

Lemma lenByte_int8 (l : list byte) :
  (length l <= 127)%nat -> int8 (lenByte l) = Z.of_nat (length l).
Proof.
  intros H. unfold int8. rewrite lenByte_u8 by lia.
  destruct (Z.ltb_spec (Z.of_nat (length l)) 128); lia.
Qed.

Lemma int8_label (b : byte) :
  0 < int8 b -> int8 b = u8 b /\ u8 b <= 127.
Proof.
  unfold int8. pose proof (u8_range b).
  destruct (Z.ltb_spec (u8 b) 128); lia.
Qed.

Lemma int8_zero (b : byte) : int8 b = 0 -> b = x00.
Proof.
  intros H. apply u8_inj. unfold int8 in H. pose proof (u8_range b).
  destruct (Z.ltb_spec (u8 b) 128); [|lia]. rewrite H. reflexivity.
Qed.

(** The loop reads an encoded name that lies within the slice. *)
Lemma hostLoop_encode (labels : list (list byte)) :
  forall (fuel : nat) (msg : slice) (pre tail : list byte) (domain : string),
    backing msg = pre ++ encodeName labels ++ tail ->
    Z.of_nat (length pre + length (encodeName labels)) <= slen msg ->
    labelsOk labels -> (length labels < fuel)%nat ->
    hostLoop fuel msg (Z.of_nat (length pre)) domain
    = Ok (domain +:+ dottedName labels).
Proof.
  induction labels as [|l rest IH]; intros fuel msg pre tail domain Hb Hs Hok Hf.
  - destruct fuel as [|fuel]; [simpl in Hf; lia|]. rewrite hostLoop_S.
    simpl in Hs, Hb. unfold index.
    replace ((0 <=? Z.of_nat (length pre)) && (Z.of_nat (length pre) <? slen msg))
      with true by (symmetry; apply andb_true_iff; split;
                    [apply Z.leb_le | apply Z.ltb_lt]; lia).
    rewrite Nat2Z.id, Hb, lookup_app_r by lia. rewrite Nat.sub_diag. simpl.
    change (int8 x00 =? 0) with true. cbv iota. now rewrite string_app_nil_r.
  - destruct fuel as [|fuel]; [simpl in Hf; lia|]. rewrite hostLoop_S.
    apply Forall_cons in Hok as [Hl Hok]. simpl in Hf.
    change (encodeName (l :: rest)) with (lenByte l :: l ++ encodeName rest) in *.
    assert (Hlen : length (lenByte l :: l ++ encodeName rest)
                   = S (length l + length (encodeName rest)))
      by (simpl; now rewrite length_app).
    rewrite Hlen in Hs. unfold index.
    replace ((0 <=? Z.of_nat (length pre)) && (Z.of_nat (length pre) <? slen msg))
      with true by (symmetry; apply andb_true_iff; split;
                    [apply Z.leb_le | apply Z.ltb_lt]; lia).
    rewrite Nat2Z.id. rewrite Hb at 1. rewrite lookup_app_r by lia.
    rewrite Nat.sub_diag. cbn [lookup list_lookup app].
    rewrite (lenByte_int8 l) by lia.
    replace (Z.of_nat (length l) =? 0) with false by (symmetry; apply Z.eqb_neq; lia).
    unfold subslice, cap.
    assert (Hcap : length (backing msg)
                   = (length pre + S (length l + length (encodeName rest)) + length tail)%nat).
    { rewrite Hb, !length_app. simpl. rewrite length_app. lia. }
    replace ((0 <=? Z.of_nat (length pre) + 1)
             && (Z.of_nat (length pre) + 1 <=? Z.of_nat (length pre) + 1 + Z.of_nat (length l))
             && (Z.of_nat (length pre) + 1 + Z.of_nat (length l) <=? Z.of_nat (length (backing msg))))
      with true
      by (symmetry; rewrite !andb_true_iff; split_and!; apply Z.leb_le; lia).
    assert (Hlabel : bytes {| backing := drop (Z.to_nat (Z.of_nat (length pre) + 1)) (backing msg);
                              slen := Z.of_nat (length pre) + 1 + Z.of_nat (length l)
                                      - (Z.of_nat (length pre) + 1) |} = l).
    { unfold bytes. cbn [backing slen].
      replace (Z.to_nat (Z.of_nat (length pre) + 1 + Z.of_nat (length l)
                         - (Z.of_nat (length pre) + 1))) with (length l) by lia.
      replace (Z.to_nat (Z.of_nat (length pre) + 1)) with (length pre + 1)%nat by lia.
      rewrite Hb, <- drop_drop, drop_app_length. simpl. rewrite drop_0.
      rewrite <- app_assoc. now rewrite take_app_length. }
    rewrite Hlabel.
    replace (Z.of_nat (length pre) + 1 + Z.of_nat (length l))
      with (Z.of_nat (length (pre ++ lenByte l :: l)))
      by (rewrite length_app; simpl; lia).
    rewrite (IH fuel msg (pre ++ lenByte l :: l) tail).
    + f_equal. simpl. now rewrite !string_app_assoc.
    + rewrite Hb. rewrite <- !app_assoc. simpl. now rewrite <- !app_assoc.
    + rewrite length_app. simpl. lia.
    + exact Hok.
    + lia.
Qed.

(** What the loop returns was read from an encoded name that lies
    within the bytes of the slice. *)
Lemma hostLoop_decode (fuel : nat) :
  forall (msg : slice) (offset : Z) (domain host : string),
    hostLoop fuel msg offset domain = Ok host ->
    exists labels tail,
      labelsOk labels
      /\ drop (Z.to_nat offset) (bytes msg) = encodeName labels ++ tail
      /\ host = domain +:+ dottedName labels.
Proof.
  induction fuel as [|fuel IH]; intros msg offset domain host H; [discriminate|].
  rewrite hostLoop_S in H.
  destruct (index msg offset) as [b|f] eqn:Ei; [|discriminate].
  apply index_Ok in Ei as [Ri Hb].
  assert (Hbytes : bytes msg !! Z.to_nat offset = Some b).
  { unfold bytes. rewrite lookup_take_lt by lia. exact Hb. }
  destruct (Z.eqb_spec (int8 b) 0) as [E0|N0].
  - injection H as <-. apply int8_zero in E0 as ->.
    exists [], (drop (S (Z.to_nat offset)) (bytes msg)).
    split; [constructor|]. split; [|now rewrite string_app_nil_r].
    simpl. now apply drop_S.
  - destruct (subslice msg (offset + 1) (offset + 1 + int8 b)) as [label|f] eqn:Es;
      [|discriminate].
    apply subslice_Ok in Es as (Rs & Rc & ->).
    destruct (int8_label b ltac:(lia)) as [Hu Hmax].
    destruct (IH _ _ _ _ H) as (labels & tail & Hok & Hdrop & ->).
    set (n := Z.to_nat (int8 b)) in *.
    set (o := Z.to_nat offset) in *.
    assert (Ho : Z.to_nat (offset + 1 + int8 b) = (S o + n)%nat) by lia.
    rewrite Ho in Hdrop.
    assert (Hin : (S o + n < length (bytes msg))%nat).
    { destruct (Nat.lt_ge_cases (S o + n) (length (bytes msg))) as [?|Hge]; [assumption|].
      rewrite drop_ge in Hdrop by lia. destruct labels; discriminate. }
    set (l := take n (drop (S o) (bytes msg))).
    assert (Hl : length l = n).
    { unfold l. rewrite length_take, length_drop. lia. }
    assert (Hsame : bytes {| backing := drop (Z.to_nat (offset + 1)) (backing msg);
                             slen := offset + 1 + int8 b - (offset + 1) |} = l).
    { unfold bytes at 1. cbn [backing slen].
      replace (Z.to_nat (offset + 1 + int8 b - (offset + 1))) with n by lia.
      replace (Z.to_nat (offset + 1)) with (S o) by lia.
      unfold l, bytes. rewrite !take_drop_commute, take_take.
      unfold bytes in Hin. rewrite length_take in Hin.
      f_equal. f_equal. lia. }
    exists (l :: labels), tail. split; [|split].
    + constructor; [|exact Hok]. rewrite Hl. lia.
    + rewrite (drop_S _ _ _ Hbytes). simpl. f_equal.
      * apply u8_inj. rewrite lenByte_u8 by lia. lia.
      * rewrite <- app_assoc, <- Hdrop.
        rewrite <- (take_drop n (drop (S o) (bytes msg))) at 1.
        fold l. f_equal. now rewrite drop_drop.
    + rewrite Hsame. simpl. now rewrite !string_app_assoc.
Qed.

Lemma count_one (c : byte) : u8 c = 1 -> c = x01.
Proof. intros H. apply u8_inj. rewrite H. reflexivity. Qed.

Lemma readBuffer_index (data : list byte) (k : nat) (b : byte) :
  (length data <= 4096)%nat -> data !! k = Some b ->
  index (readBuffer data) (Z.of_nat k) = Ok b.
Proof.
  intros Hfit Hk. pose proof (lookup_lt_Some _ _ _ Hk) as Hlt.
  unfold index. rewrite readBuffer_slen.
  replace ((0 <=? Z.of_nat k) && (Z.of_nat k <? Z.of_nat (Nat.min 4096 (length data))))
    with true by (symmetry; apply andb_true_iff; split;
                  [apply Z.leb_le | apply Z.ltb_lt]; lia).
  rewrite Nat2Z.id, readBuffer_lookup by lia. now rewrite Hk.
Qed.

(** With a question count byte of 1, the decoder returns exactly for
    the datagrams that hold a well-formed name at offset 12. *)
Lemma hostFromMsg_Ok_iff (data : list byte) (host : string) :
  (length data <= 4096)%nat -> data !! 5%nat = Some x01 ->
  hostFromMsg (readBuffer data) = Ok host <->
  exists labels tail,
    labelsOk labels
    /\ drop 12 data = encodeName labels ++ tail
    /\ host = dottedName labels.
Proof.
  intros Hfit H5.
  assert (Hhead : hostFromMsg (readBuffer data)
                  = hostLoop (S (Z.to_nat (slen (readBuffer data))))
                      (readBuffer data) 12 EmptyString).
  { unfold hostFromMsg. change 5 with (Z.of_nat 5).
    rewrite (readBuffer_index data 5 x01 Hfit H5). reflexivity. }
  rewrite Hhead. split.
  - intros H. apply hostLoop_decode in H as (labels & tail & Hok & Hdrop & ->).
    exists labels, tail. split; [exact Hok|]. split; [|reflexivity].
    rewrite readBuffer_bytes, take_ge in Hdrop by lia. exact Hdrop.
  - intros (labels & tail & Hok & Hdrop & ->).
    assert (Hlen : (12 + length (encodeName labels) + length tail = length data)%nat).
    { rewrite <- (take_drop 12 data) at 1. rewrite length_app, Hdrop, length_app.
      rewrite length_take.
      assert (12 < length data)%nat; [|lia].
      destruct (Nat.lt_ge_cases 12 (length data)) as [?|Hge]; [assumption|].
      assert (length (drop 12 data) = 0%nat) by (rewrite length_drop; lia).
      rewrite Hdrop, length_app in H. destruct labels; simpl in H; lia. }
    assert (Hn : (length labels < length (encodeName labels))%nat).
    { clear. induction labels as [|l r IH]; simpl; [lia|]. rewrite length_app. lia. }
    assert (H12 : 12 = Z.of_nat (length (take 12 data))) by (rewrite length_take; lia).
    rewrite H12.
    rewrite (hostLoop_encode labels _ (readBuffer data) (take 12 data)
               (tail ++ replicate (4096 - length data) x00) EmptyString).
    + reflexivity.
    + rewrite (readBuffer_fits data Hfit). cbn [backing].
      rewrite <- (take_drop 12 data) at 1. rewrite Hdrop.
      now rewrite <- !app_assoc.
    + rewrite readBuffer_slen, length_take. lia.
    + exact Hok.
    + rewrite readBuffer_slen. lia.
Qed.

(** With a question count byte of 1, [hostFromMsg] returns for exactly
    the datagrams that hold, from offset 12 on, labels of 1 to 127
    bytes, each after its length byte, and a zero byte after the last;
    what it returns is these labels with a dot after each. *)
Theorem hostFromMsg_reads_exactly_encoded_names (data : list byte) (host : string) :
  (length data <= 4096)%nat -> data !! 5%nat = Some x01 ->
  hostFromMsg (readBuffer data) = Ok host <->
  exists labels tail,
    labelsOk labels
    /\ drop 12 data = encodeName labels ++ tail
    /\ host = dottedName labels.
Proof. exact (hostFromMsg_Ok_iff data host). Qed.

Lemma hostFromMsg_reads_exactly_encoded_names_witness :
  hostFromMsg (readBuffer samplePacket) = Ok "a.example.com."%string
  /\ exists labels tail,
       labelsOk labels
       /\ drop 12 samplePacket = encodeName labels ++ tail
       /\ "a.example.com."%string = dottedName labels.
Proof.
  split; [vm_compute; reflexivity|].
  apply (hostFromMsg_reads_exactly_encoded_names samplePacket "a.example.com.").
  - simpl. lia.
  - reflexivity.
  - vm_compute. reflexivity.
Defined.

End NameDecoder.

(** ** The datagrams that end the process *)

Section MalformedQueries.
Import Dns Inv Wire.

Lemma encodeName_length (labels : list (list byte)) :
  Z.of_nat (length (encodeName labels)) = GoString.len (dottedName labels) + 1.
Proof.
  unfold GoString.len. induction labels as [|l r IH]; [reflexivity|].
  simpl. rewrite length_app, !string_length_app, length_string_of_list_byte.
  simpl. lia.
Qed.

Lemma hostFromMsg_short (data : list byte) :
  (length data < 6)%nat -> hostFromMsg (readBuffer data) = Error Panic.
Proof.
  intros H. unfold hostFromMsg, index. rewrite readBuffer_slen.
  replace (5 <? Z.of_nat (Nat.min 4096 (length data))) with false
    by (symmetry; apply Z.ltb_ge; lia).
  reflexivity.
Qed.

(** [handleUDP] from the decoded name on. *)
Lemma handleUDP_after_decode (To4 : string -> list byte) (now : Z)
    (data : list byte) (addr : UDPAddr) (dns : DnsProxy) :
  handleUDP To4 now data addr dns =
  match hostFromMsg (readBuffer data) with
  | Error f => Error f
  | Ok host =>
      if isReverse (reverser dns) host then
        match hackDns To4 (readBuffer data) host (dnsHack dns) addr with
        | Error f => Error f
        | Ok out => Ok (out, dns)
        end
      else
        (do _ <- addQuery now {| query_sid := be16 data 0; query_addr := addr;
                                 query_host := host |};
         ret (ToUpstream (bytes (readBuffer data)) (serverAddr dns))) dns
  end.
Proof.
  destruct (readId_any data) as (b2 & Hb2 & Hid).
  unfold handleUDP. rewrite Hb2, Hid. reflexivity.
Qed.

Lemma handleUDP_returns_on_name (To4 : string -> list byte) (now : Z)
    (data : list byte) (addr : UDPAddr) (dns : DnsProxy) (host : string) :
  (length data <= 4096)%nat ->
  hostFromMsg (readBuffer data) = Ok host ->
  (isReverse (reverser dns) host = true ->
   12 + GoString.len host < Z.of_nat (length data)) ->
  exists out dns', handleUDP To4 now data addr dns = Ok (out, dns').
Proof.
  intros Hfit Hhost Hname. rewrite handleUDP_after_decode, Hhost.
  destruct (isReverse (reverser dns) host) eqn:Hrev.
  - rewrite (hackDns_spec To4 data host (dnsHack dns) addr Hfit (Hname eq_refl)).
    eauto.
  - destruct (addQuery_spec now {| query_sid := be16 data 0; query_addr := addr;
                                   query_host := host |} dns) as (dns' & HA & _).
    unfold bind. rewrite HA. unfold ret. eauto.
Qed.

(** In a proxy whose table does not hold the empty name (none loaded
    from a hosts file does), [handleUDP] panics, and the process ends,
    for exactly two kinds of datagram: those of fewer than six bytes,
    and those with a question count byte of 1 that do not hold, from
    offset 12 on, labels of 1 to 127 bytes each after its length byte
    and a zero byte after the last.  For every other datagram it
    returns. *)
Theorem handleUDP_panics_exactly_on_malformed_name (To4 : string -> list byte)
    (now : Z) (data : list byte) (addr : UDPAddr) (dns : DnsProxy) :
  (length data <= 4096)%nat ->
  isReverse (reverser dns) EmptyString = false ->
  (handleUDP To4 now data addr dns = Error Panic <->
   (length data < 6)%nat
   \/ (data !! 5%nat = Some x01
       /\ ~ exists labels tail,
              labelsOk labels /\ drop 12 data = encodeName labels ++ tail))
  /\ (handleUDP To4 now data addr dns = Error Panic
      \/ exists out dns', handleUDP To4 now data addr dns = Ok (out, dns')).
Proof.
  intros Hfit Hrev.
  destruct (Nat.lt_ge_cases (length data) 6) as [Hs|Hl].
  { assert (E : handleUDP To4 now data addr dns = Error Panic)
      by (rewrite handleUDP_after_decode, (hostFromMsg_short data Hs); reflexivity).
    split; [split; auto | left; exact E]. }
  destruct (lookup_lt_is_Some_2 data 5 ltac:(lia)) as [c H5].
  destruct (Z.eq_dec (u8 c) 1) as [Hc|Hc].
  - apply count_one in Hc as ->.
    destruct (hostFromMsg (readBuffer data)) as [host|f] eqn:E.
    + pose proof (proj1 (hostFromMsg_Ok_iff data host Hfit H5) E)
        as (labels & tail & Hok & Hdrop & ->).
      destruct (handleUDP_returns_on_name To4 now data addr dns _ Hfit E)
        as (out & dns' & HU).
      { intros _. pose proof (encodeName_length labels) as HL.
        assert (length (drop 12 data) = (length (encodeName labels) + length tail)%nat)
          by (rewrite Hdrop; apply length_app).
        rewrite length_drop in H. unfold GoString.len in *. lia. }
      split; [|right; eauto]. rewrite HU. split; [discriminate|].
      intros [Hs|[_ Hno]]; [lia|]. exfalso. apply Hno. eauto.
    + assert (f = Panic) as ->.
      { destruct f; [reflexivity|]. exfalso. now apply (hostFromMsg_stops _ E). }
      assert (EU : handleUDP To4 now data addr dns = Error Panic)
        by (rewrite handleUDP_after_decode, E; reflexivity).
      split; [|left; exact EU]. split; [|intros _; exact EU].
      intros _. right. split; [exact H5|].
      intros (labels & tail & Hok & Hdrop).
      assert (hostFromMsg (readBuffer data) = Ok (dottedName labels))
        by (apply (hostFromMsg_Ok_iff data _ Hfit H5); eauto).
      congruence.
  - pose proof (hostFromMsg_other_count data c Hfit H5 Hc) as E.
    destruct (handleUDP_returns_on_name To4 now data addr dns _ Hfit E)
      as (out & dns' & HU).
    { rewrite Hrev. discriminate. }
    split; [|right; eauto]. rewrite HU. split; [discriminate|].
    intros [Hs|[H5' _]]; [lia|]. exfalso. apply Hc.
    rewrite H5 in H5'. now injection H5' as ->.
Qed.

Lemma handleUDP_panics_exactly_on_malformed_name_witness :
  (handleUDP sampleTo4 0 (take 14 samplePacket) clientA sampleProxy = Error Panic <->
   (length (take 14 samplePacket) < 6)%nat
   \/ (take 14 samplePacket !! 5%nat = Some x01
       /\ ~ exists labels tail,
              labelsOk labels
              /\ drop 12 (take 14 samplePacket) = encodeName labels ++ tail))
  /\ (handleUDP sampleTo4 0 (take 14 samplePacket) clientA sampleProxy = Error Panic
      \/ exists out dns',
           handleUDP sampleTo4 0 (take 14 samplePacket) clientA sampleProxy
           = Ok (out, dns')).
Proof.
  apply (handleUDP_panics_exactly_on_malformed_name sampleTo4 0
           (take 14 samplePacket) clientA sampleProxy).
  - simpl. lia.
  - vm_compute. reflexivity.
Defined.

End MalformedQueries.

(** ** The ledger against a map with expiry *)

Section LedgerAsMap.
Import Dns Inv Pending.

Lemma represents_new (d : string) (a : UDPAddr) (r : wsServer) :
  represents (newDnsProxy d a r) ∅.
Proof.
  split; [apply index_ok_new|]. split.
  - intros k Hk. simpl in Hk. lia.
  - intros e. simpl. rewrite lookup_empty. split; [intros [] | discriminate].
Qed.

Lemma represents_absent (h : DnsProxy) (m : gmap Z (Z * DnsQuery)) (s : Z) :
  represents h m -> (indices h !! s = None <-> m !! s = None).
Proof.
  intros ([Hs Hc] & _ & Hm). split.
  - intros Hi. destruct (m !! s) as [[ts q]|] eqn:E; [|reflexivity].
    assert (Hin : In {| entry_sid := s; entry_ts := ts; entry_q := q |} (entries h))
      by (apply Hm; exact E).
    apply In_at_index in Hin as [i Hi'].
    apply Hc in Hi'. simpl in Hi'. congruence.
  - intros Hn. destruct (indices h !! s) as [i|] eqn:E; [|reflexivity].
    destruct (Hs s i E) as (e & He & Hes).
    apply at_index_elem, Hm in He. congruence.
Qed.

Lemma represents_add (h : DnsProxy) (m : gmap Z (Z * DnsQuery)) (now : Z)
    (q : DnsQuery) :
  represents h m -> m !! query_sid q = None ->
  exists h', addQuery now q h = Ok (tt, h')
             /\ represents h' (step (Add now q) m).
Proof.
  intros ([Hs Hc] & Ho & Hm) Hfresh.
  destruct (addQuery_spec now q h)
    as (h' & HA & P & S & _ & _ & C & O & _).
  assert (Hother : forall e, In e (entries h) -> entry_sid e <> query_sid q).
  { intros e He Heq. apply Hm in He. congruence. }
  exists h'. split; [exact HA|]. split; [split|split].
  - intros s. apply S, Hs.
  - apply C; assumption.
  - apply O, Ho.
  - intros e. simpl. split.
    + intros He. apply (Permutation_in _ P) in He. destruct He as [<-|He].
      * simpl. apply lookup_insert_eq.
      * rewrite lookup_insert_ne by (intros E; now apply (Hother e He)).
        now apply Hm.
    + intros He. apply (Permutation_in _ (Permutation_sym P)).
      destruct (decide (query_sid q = entry_sid e)) as [E|N].
      * rewrite E, lookup_insert_eq in He. injection He as Ets Eq.
        left. unfold queryEntry. destruct e; simpl in *. congruence.
      * rewrite lookup_insert_ne in He by exact N. right. now apply Hm.
Qed.

Lemma represents_remove (h : DnsProxy) (m : gmap Z (Z * DnsQuery)) (s : Z) :
  represents h m ->
  exists h', removeQuery s h = Ok (snd <$> m !! s, h')
             /\ represents h' (step (Remove s) m).
Proof.
  intros R. pose proof R as ([Hs Hc] & Ho & Hm).
  destruct (indices h !! s) as [i|] eqn:Ei.
  - destruct (removeQuery_present h s i (Hs s) Ei)
      as (e & h' & He & Hes & HR & P & S & C & O & _).
    pose proof (at_index_elem _ _ _ He) as Hin.
    pose proof (proj1 (Hm e) Hin) as Hme. rewrite Hes in Hme.
    exists h'. rewrite Hme. split; [exact HR|].
    assert (Hnd : NoDup (e :: entries h')).
    { rewrite <- P. apply (NoDup_fmap_1 entry_sid).
      exact (index_complete_NoDup h Hc). }
    apply NoDup_cons in Hnd as [Hnotin _].
    assert (Hsid : forall e', In e' (entries h) -> entry_sid e' = s -> e' = e).
    { intros e' [j Hj]%In_at_index Hs'.
      pose proof (Hc _ _ Hj) as H1. pose proof (Hc _ _ He) as H2.
      rewrite Hs' in H1. rewrite Hes in H2. rewrite H1 in H2. injection H2 as ->.
      congruence. }
    split; [split|split].
    + intros s'. apply S, Hs.
    + apply C, Hc.
    + apply O, Ho.
    + intros e'. simpl. split.
      * intros He'.
        assert (Hin' : In e' (entries h))
          by (apply (Permutation_in _ (Permutation_sym P)); now right).
        rewrite lookup_delete_ne; [now apply Hm|].
        intros E. apply Hnotin. symmetry in E.
        rewrite <- (Hsid e' Hin' E). now apply list_elem_of_In.
      * intros He'. destruct (decide (s = entry_sid e')) as [E|N].
        { rewrite E, lookup_delete_eq in He'. discriminate. }
        rewrite lookup_delete_ne in He' by exact N.
        apply Hm, (Permutation_in _ P) in He'. destruct He' as [<-|He']; [|exact He'].
        congruence.
  - pose proof (proj1 (represents_absent h m s R) Ei) as Hn.
    exists h. rewrite Hn. split; [now apply removeQuery_absent|].
    simpl. now rewrite delete_id.
Qed.

Lemma represents_wake (h : DnsProxy) (m : gmap Z (Z * DnsQuery)) (now : Z)
    (timer : option Z) :
  represents h m ->
  exists r h', updateTask_wake now timer h = Ok (r, h')
               /\ represents h' (step (Wake now) m).
Proof.
  intros ([Hs Hc] & Ho & Hm).
  destruct (updateTask_wake_spec now timer h Ho)
    as (ev & timer' & h' & HW & P & Fe & Fl & _ & _ & _ & O & S & C & _).
  exists (ev, timer'), h'. split; [exact HW|]. split; [split|split].
  - intros s. apply S, Hs.
  - apply C, Hc.
  - exact O.
  - intros e. simpl. rewrite map_lookup_filter_Some. simpl.
    rewrite Forall_forall in Fe, Fl. split.
    + intros He. split; [|apply Fl; now apply list_elem_of_In].
      apply Hm. apply (Permutation_in _ (Permutation_sym P)).
      apply in_or_app. now right.
    + intros [He Hts]. apply Hm, (Permutation_in _ P), in_app_or in He.
      destruct He as [He|He]; [|exact He].
      apply list_elem_of_In, Fe in He. lia.
Qed.

Lemma run_represents (calls : list call) :
  forall (timer : option Z) (h : DnsProxy) (m : gmap Z (Z * DnsQuery)),
    represents h m -> fresh calls m = true ->
    exists h', run calls timer h = Ok (answers calls m, h')
               /\ represents h' (after calls m).
Proof.
  induction calls as [|c calls IH]; intros timer h m R F.
  { exists h. split; [reflexivity | exact R]. }
  destruct c as [now q|s|now].
  - simpl in F. apply andb_true_iff in F as [F1 F2].
    apply bool_decide_eq_true in F1.
    destruct (represents_add h m now q R F1) as (h1 & HA & R1).
    destruct (IH timer h1 _ R1 F2) as (h' & HR & R').
    exists h'. split; [|exact R'].
    change (run (Add now q :: calls) timer)
      with (do _ <- addQuery now q; run calls timer).
    bind_step HA. exact HR.
  - simpl in F.
    destruct (represents_remove h m s R) as (h1 & HA & R1).
    destruct (IH timer h1 _ R1 F) as (h' & HR & R').
    exists h'. split; [|exact R'].
    change (run (Remove s :: calls) timer)
      with (do r <- removeQuery s; do rs <- run calls timer; ret (r :: rs)).
    bind_step HA. bind_step HR. reflexivity.
  - simpl in F.
    destruct (represents_wake h m now timer R) as (r & h1 & HA & R1).
    destruct (IH (snd r) h1 _ R1 F) as (h' & HR & R').
    exists h'. split; [|exact R'].
    change (run (Wake now :: calls) timer)
      with (do r <- updateTask_wake now timer; run calls (snd r)).
    bind_step HA. exact HR.
Qed.

(** From a new proxy, any sequence of calls of [addQuery] and
    [removeQuery] and of turns of [updateTask], in any order, in which
    no query is added under an id that is pending: every call returns,
    [removeQuery] answers as the lookup in a map from id to query does,
    in which an add inserts, a remove deletes, and a turn of
    [updateTask] at time [now] deletes the queries added more than ten
    seconds before [now]; the heap afterwards holds the queries of that
    map and no other. *)
Theorem ledger_behaves_as_map_with_expiry (calls : list call) (timer : option Z)
    (d : string) (a : UDPAddr) (r : wsServer) :
  fresh calls ∅ = true ->
  exists h',
    run calls timer (newDnsProxy d a r) = Ok (answers calls ∅, h')
    /\ (forall e, In e (entries h') <->
                  after calls ∅ !! entry_sid e = Some (entry_ts e, entry_q e))
    /\ index_ok h' /\ heap_ordered (entries h').
Proof.
  intros F.
  destruct (run_represents calls timer _ ∅ (represents_new d a r) F)
    as (h' & HR & Hok & Ho & Hm).
  exists h'. auto.
Qed.

Lemma ledger_behaves_as_map_with_expiry_witness :
  exists h',
    run [Add 0 (sampleQuery 7 clientA); Add 1 (sampleQuery 9 clientB);
         Remove 9; Wake (Second * 10 + 1); Remove 7; Add 2 (sampleQuery 9 clientA);
         Remove 9] None (newDnsProxy "10.0.0.2" upstream newServer)
    = Ok ([Some (sampleQuery 9 clientB); None; Some (sampleQuery 9 clientA)], h')
    /\ entries h' = [].
Proof.
  destruct (ledger_behaves_as_map_with_expiry
              [Add 0 (sampleQuery 7 clientA); Add 1 (sampleQuery 9 clientB);
               Remove 9; Wake (Second * 10 + 1); Remove 7;
               Add 2 (sampleQuery 9 clientA); Remove 9]
              None "10.0.0.2" upstream newServer) as (h' & HR & Hm & _).
  - vm_compute. reflexivity.
  - exists h'. split; [exact HR|].
    vm_compute in HR. injection HR as <-. reflexivity.
Defined.

End LedgerAsMap.

(** ** Reverse proxy: the headers that pass *)

Section ProxyPassThrough.
Import Proxy.

Lemma add_values_same (key : string) (vs : list string)
    (h : gmap string (list string)) :
  CanonicalMIMEHeaderKey key = key ->
  fold_left (fun h v => Header_Add key v h) vs h !! key
  = match vs with
    | [] => h !! key
    | _ => Some (default [] (h !! key) ++ vs)
    end.
Proof.
  intros Hc. revert h. induction vs as [|v vs IH]; intros h; [reflexivity|].
  simpl. rewrite IH.
  assert (E : Header_Add key v h !! key = Some (default [] (h !! key) ++ [v])).
  { unfold Header_Add. cbv zeta. rewrite Hc. apply lookup_insert_eq. }
  rewrite E. destruct vs as [|v' vs]; [reflexivity|].
  simpl. now rewrite <- app_assoc.
Qed.

Lemma copy_skips_absent (l : list (string * list string)) (n : string) :
  forall h : gmap string (list string),
    (forall kv, In kv l -> CanonicalMIMEHeaderKey kv.1 = kv.1) ->
    (forall kv, In kv l -> kv.1 <> n) ->
    fold_left
      (fun h kv =>
         if bool_decide (is_Some (hopHeaders !! kv.1)) then h
         else fold_left (fun h v => Header_Add kv.1 v h) kv.2 h) l h !! n
    = h !! n.
Proof.
  induction l as [|kv l IH]; intros h Hcanon Hne; [reflexivity|].
  simpl. rewrite IH.
  - destruct (bool_decide (is_Some (hopHeaders !! kv.1))); [reflexivity|].
    apply add_values_other; [apply Hcanon; now left|].
    intros E. apply (Hne kv); [now left | now symmetry].
  - intros kv' Hin. apply Hcanon. now right.
  - intros kv' Hin. apply Hne. now right.
Qed.

(** What the copy leaves under a name that is not filtered. *)
Lemma copyResponseHeader_lookup (resp : Response) (n : string) (vs : list string)
    (h0 : gmap string (list string)) :
  (forall kv, In kv (resp_Header resp) -> CanonicalMIMEHeaderKey kv.1 = kv.1) ->
  NoDup (map fst (resp_Header resp)) ->
  hopHeaders !! n = None -> h0 !! n = None ->
  copyResponseHeader h0 resp !! n = Some vs <->
  In (n, vs) (resp_Header resp) /\ vs <> [].
Proof.
  unfold copyResponseHeader. intros Hcanon Hnd Hhop.
  revert h0. induction (resp_Header resp) as [|[k v] l IH]; intros h0 H0.
  { simpl. rewrite H0. split; [discriminate | intros [[] _]]. }
  change (map fst ((k, v) :: l)) with (k :: map fst l) in Hnd.
  apply NoDup_cons in Hnd as [Hk Hnd].
  assert (Hcl : forall kv, In kv l -> CanonicalMIMEHeaderKey kv.1 = kv.1)
    by (intros kv Hin; apply Hcanon; now right).
  cbn [fold_left fst snd].
  destruct (decide (k = n)) as [->|Hkn].
  - rewrite bool_decide_eq_false_2
      by (rewrite Hhop; intros [x Hx]; discriminate).
    rewrite copy_skips_absent; [|exact Hcl|].
    2:{ intros kv Hin E. apply Hk. rewrite <- E.
        apply list_elem_of_In. apply in_map. exact Hin. }
    rewrite add_values_same by (apply (Hcanon (n, v)); now left).
    rewrite H0. simpl. split.
    + destruct v as [|v0 v]; [discriminate|].
      intros [= <-]. split; [now left | discriminate].
    + intros [[[= ->]|Hin] Hne].
      * destruct vs; [contradiction | reflexivity].
      * exfalso. apply Hk. apply list_elem_of_In.
        apply (in_map fst) in Hin. exact Hin.
  - rewrite IH; [| exact Hcl | exact Hnd |].
    + split; intros [Hin Hne]; (split; [|exact Hne]).
      * now right.
      * destruct Hin as [[= E _]|Hin]; [contradiction | exact Hin].
    + destruct (bool_decide (is_Some (hopHeaders !! k))); [exact H0|].
      rewrite add_values_other; [exact H0 | apply (Hcanon (k, v)); now left |].
      congruence.
Qed.

(** For a request that is no WebSocket upgrade and whose round trip
    succeeds, the header written holds under every name that is not
    one of the ten filtered names exactly what the upstream response
    holds under it: all its values, in the same order; a name with no
    value upstream is absent, and no name is added. *)
Theorem ServeHTTP_passes_other_headers (r : Request) (resp : Response) :
  Header_Get "Upgrade" (req_Header r) <> "websocket"%string ->
  (forall kv, In kv (resp_Header resp) -> CanonicalMIMEHeaderKey kv.1 = kv.1) ->
  NoDup (map fst (resp_Header resp)) ->
  exists h : gmap string (list string),
    ServeHTTP r (inl resp) = Written (StatusCode resp) h (resp_Body resp)
    /\ forall n vs, hopHeaders !! n = None ->
         (h !! n = Some vs <-> In (n, vs) (resp_Header resp) /\ vs <> []).
Proof.
  intros Hup Hcanon Hnd. unfold ServeHTTP.
  apply String.eqb_neq in Hup. rewrite Hup.
  eexists. split; [reflexivity|]. intros n vs Hhop.
  assert (N1 : n <> "Content-Length"%string) by (intros ->; vm_compute in Hhop; discriminate).
  assert (N2 : n <> "Transfer-Encoding"%string) by (intros ->; vm_compute in Hhop; discriminate).
  rewrite <- (copyResponseHeader_lookup resp n vs ∅ Hcanon Hnd Hhop (lookup_empty n)).
  destruct (0 <? ContentLength resp); unfold Header_Set.
  - change (CanonicalMIMEHeaderKey "Content-Length") with "Content-Length"%string.
    rewrite lookup_insert_ne by congruence. reflexivity.
  - change (CanonicalMIMEHeaderKey "Transfer-Encoding") with "Transfer-Encoding"%string.
    rewrite lookup_insert_ne by congruence. reflexivity.
Qed.

Lemma ServeHTTP_passes_other_headers_witness :
  exists h : gmap string (list string),
    ServeHTTP {| req_Header := ∅; req_Host := "example.com" |}
      (inl {| StatusCode := 200;
              resp_Header := [("Connection", ["close"]);
                              ("Set-Cookie", ["a=1"; "b=2"]);
                              ("X-Empty", [])]%string;
              ContentLength := 0;
              resp_Body := [] |})
    = Written 200 h []
    /\ h !! "Set-Cookie"%string = Some ["a=1"; "b=2"]%string
    /\ h !! "X-Empty"%string = None.
Proof.
  destruct (ServeHTTP_passes_other_headers
              {| req_Header := ∅; req_Host := "example.com" |}
              {| StatusCode := 200;
                 resp_Header := [("Connection", ["close"]);
                                 ("Set-Cookie", ["a=1"; "b=2"]);
                                 ("X-Empty", [])]%string;
                 ContentLength := 0;
                 resp_Body := [] |}) as (h & Heq & Hh).
  - vm_compute. discriminate.
  - intros kv [<-|[<-|[<-|[]]]]; vm_compute; reflexivity.
  - apply (bool_decide_unpack
             (NoDup ["Connection"; "Set-Cookie"; "X-Empty"]%string)).
    vm_compute. exact I.
  - exists h. split; [exact Heq|]. split.
    + apply Hh; [vm_compute; reflexivity|].
      split; [right; left; reflexivity | discriminate].
    + destruct (h !! "X-Empty"%string) as [vs|] eqn:E; [|reflexivity].
      apply Hh in E as [Hin Hne]; [|vm_compute; reflexivity].
      destruct Hin as [[=]|[[=]|[[= <-]|[]]]]. contradiction.
Defined.

End ProxyPassThrough.

(** ** WebSocket relay: the read loop *)

Section RelayLoopFacts.
Import Relay RelayLoop.

Lemma pf_calm (c : control) (message : string) (now : Z) (written : option error)
    (ch : chan) :
  fatal (Control c message now written) = false ->
  exists r, pf (fun _ => written) (controlType c) message now ch = Ok (r, ch).
Proof.
  unfold pf. destruct written as [[|[] text|text]|]; simpl;
    try discriminate; eauto.
Qed.

Lemma pf_fatal (c : control) (message : string) (now : Z) (written : option error)
    (ch : chan) :
  fatal (Control c message now written) = true ->
  pf (fun _ => written) (controlType c) message now ch
  = match close ch with
    | Ok ch' => Ok (written, ch')
    | Error f => Error f
    end.
Proof.
  unfold pf. destruct written as [[|[] text|text]|]; simpl;
    try discriminate; reflexivity.
Qed.

(** While nothing fails the loop forwards and the channel stays open. *)
Lemma wsf_quiet (events : list event) (ch : chan) :
  forallb (fun e => negb (failure e) && negb (fatal e)) events = true ->
  wsf events ch = Ok (messages events, ch, true).
Proof.
  induction events as [|e events IH]; [reflexivity|].
  cbn [forallb]. intros [[Hf Hc]%andb_true_iff Hrest]%andb_true_iff.
  apply negb_true_iff in Hf, Hc. specialize (IH Hrest).
  destruct e as [c message now written|mt message written|err].
  - destruct (pf_calm c message now written ch Hc) as [r Hr].
    cbn [wsf messages]. rewrite Hr. exact IH.
  - cbn [wsf messages]. simpl in Hf. apply bool_decide_eq_false in Hf.
    destruct written as [e|]; [exfalso; apply Hf; discriminate|].
    now rewrite IH.
  - discriminate.
Qed.

Lemma wsf_app_quiet (before rest : list event) (ch : chan) :
  forallb (fun e => negb (failure e) && negb (fatal e)) before = true ->
  wsf (before ++ rest) ch
  = match wsf rest ch with
    | Ok (sent, ch', running) => Ok (messages before ++ sent, ch', running)
    | Error f => Error f
    end.
Proof.
  induction before as [|e before IH].
  { intros _. simpl. destruct (wsf rest ch) as [[[sent ch'] running]|f]; reflexivity. }
  cbn [forallb]. intros [[Hf Hc]%andb_true_iff Hrest]%andb_true_iff.
  apply negb_true_iff in Hf, Hc. specialize (IH Hrest).
  destruct e as [c message now written|mt message written|err].
  - destruct (pf_calm c message now written ch Hc) as [r Hr].
    cbn [app wsf messages]. rewrite Hr. exact IH.
  - simpl in Hf. apply bool_decide_eq_false in Hf.
    destruct written as [e|]; [exfalso; apply Hf; discriminate|].
    cbn [app wsf messages]. rewrite IH.
    destruct (wsf rest ch) as [[[sent ch'] running]|f]; reflexivity.
  - discriminate.
Qed.

Lemma messages_app (l1 l2 : list event) :
  messages (l1 ++ l2) = messages l1 ++ messages l2.
Proof.
  induction l1 as [|[c m n w|mt m w|e] l1 IH]; simpl; [reflexivity| | |];
    now rewrite ?IH.
Qed.

(** With the channel closed, the loop runs on or panics. *)
Lemma wsf_closed (events : list event) :
  (wsf events Closed = Ok (messages events, Closed, true)
   /\ existsb failure events = false)
  \/ wsf events Closed = Error Panic.
Proof.
  induction events as [|e events IH]; [left; split; reflexivity|].
  destruct e as [c message now written|mt message written|err].
  - destruct (fatal (Control c message now written)) eqn:Hc.
    + right. cbn [wsf]. now rewrite (pf_fatal _ _ _ _ _ Hc).
    + destruct (pf_calm c message now written Closed Hc) as [r Hr].
      cbn [wsf messages existsb failure orb]. rewrite Hr. exact IH.
  - destruct written as [e|].
    + right. reflexivity.
    + cbn [wsf messages existsb]. destruct IH as [[-> Hq]| ->]; [left|right; reflexivity].
      split; [reflexivity|]. simpl. exact Hq.
  - right. reflexivity.
Qed.

(** The relay of one direction, run with its channel open.  While no
    read and no write of a message fails and no handler meets an error
    it does not swallow, every message read is written to the far
    connection, with its type and its bytes and in the order read, the
    channel stays open and the loop runs on.  The first failed read or
    write ends the loop with the channel closed; the message whose
    write failed is the last one written, and nothing after it is
    read. *)
Theorem wsf_relays_in_order_until_failure (before : list event) :
  forallb (fun e => negb (failure e) && negb (fatal e)) before = true ->
  wsf before Open = Ok (messages before, Open, true)
  /\ forall f rest, failure f = true ->
       wsf (before ++ f :: rest) Open
       = Ok (messages (before ++ [f]), Closed, false).
Proof.
  intros Hq. split; [now apply wsf_quiet|].
  intros f rest Hf. rewrite (wsf_app_quiet before (f :: rest) Open Hq).
  rewrite messages_app.
  destruct f as [c m n w|mt m w|e]; [discriminate| |reflexivity].
  simpl in Hf. apply bool_decide_eq_true in Hf.
  destruct w as [e|]; [reflexivity | contradiction].
Qed.

Lemma wsf_relays_in_order_until_failure_witness :
  wsf [Message 1 [x68; x69] None; Control Ping "p" 5 None;
       Message 2 [x00] None] Open
  = Ok ([(1, [x68; x69]); (2, [x00])], Open, true)
  /\ wsf ([Message 1 [x68; x69] None; Control Ping "p" 5 None;
           Message 2 [x00] None]
          ++ [Message 1 [x6f] (Some (OtherError "broken pipe"));
              Message 1 [x70] None]) Open
     = Ok ([(1, [x68; x69]); (2, [x00]); (1, [x6f])], Closed, false).
Proof.
  destruct (wsf_relays_in_order_until_failure
              [Message 1 [x68; x69] None; Control Ping "p" 5 None;
               Message 2 [x00] None]) as [H1 H2].
  - reflexivity.
  - split; [exact H1|].
    apply (H2 (Message 1 [x6f] (Some (OtherError "broken pipe")))
              [Message 1 [x70] None]).
    reflexivity.
Defined.

(** Once a handler has closed the channel, on an error of
    [WriteControl] that it does not swallow, the loop cannot end: the
    next failed read, failed write or such error of a handler closes
    the channel a second time, which panics.  ([ReadMessage] of
    gorilla/websocket returns the error its handler returned, so that
    failed read follows at once.) *)
Theorem wsf_panics_after_handler_closed (before rest : list event)
    (c : control) (message : string) (now : Z) (err : error) :
  forallb (fun e => negb (failure e) && negb (fatal e)) before = true ->
  swallowed err = false ->
  existsb failure rest = true ->
  wsf (before ++ Control c message now (Some err) :: rest) Open = Error Panic.
Proof.
  intros Hq Hs Hf. rewrite (wsf_app_quiet before _ Open Hq).
  cbn [wsf]. rewrite pf_fatal by (simpl; now rewrite Hs). simpl.
  destruct (wsf_closed rest) as [[_ Hno]| ->]; [congruence | reflexivity].
Qed.

Lemma wsf_panics_after_handler_closed_witness :
  wsf ([Message 1 [x68; x69] None]
       ++ Control Ping "p" 5 (Some (OtherError "broken pipe"))
       :: [ReadFailed (OtherError "broken pipe")]) Open = Error Panic.
Proof.
  apply (wsf_panics_after_handler_closed [Message 1 [x68; x69] None]
           [ReadFailed (OtherError "broken pipe")] Ping "p" 5
           (OtherError "broken pipe")); reflexivity.
Defined.

End RelayLoopFacts.

(** ** Nothing is sent unasked *)

Section Unsolicited.
Import Dns Inv Server.

Lemma store_Ok_inv (s s' : slice) (i : Z) (b : byte) :
  store s i b = Ok s' ->
  0 <= i < slen s
  /\ s' = {| backing := <[Z.to_nat i := b]> (backing s); slen := slen s |}.
Proof.
  unfold store. destruct ((0 <=? i) && (i <? slen s)) eqn:E; [|discriminate].
  apply andb_true_iff in E as [E1 E2]. apply Z.leb_le in E1. apply Z.ltb_lt in E2.
  intros [= <-]. auto.
Qed.

Lemma be16_take2 (m m' : list byte) :
  take 2 m = take 2 m' -> be16 m 0 = be16 m' 0.
Proof.
  intros H. unfold be16, byteAt. change (0 + 1)%nat with 1%nat.
  rewrite !nth_lookup.
  rewrite <- (lookup_take_lt m 2 0), <- (lookup_take_lt m 2 1) by lia.
  rewrite <- (lookup_take_lt m' 2 0), <- (lookup_take_lt m' 2 1) by lia.
  now rewrite H.
Qed.

Lemma be16_readBuffer (data : list byte) :
  be16 (backing (readBuffer data)) 0 = be16 data 0.
Proof.
  unfold be16, byteAt. now rewrite !readBuffer_nth by lia.
Qed.

Lemma be16_take_4096 (data : list byte) :
  be16 (take 4096 data) 0 = be16 data 0.
Proof. apply be16_take2. rewrite take_take. reflexivity. Qed.

(** What [hackDns] writes goes to [addr] and starts with the first two
    bytes of the buffer. *)
Lemma hackDns_head (To4 : string -> list byte) (msg : slice)
    (host target : string) (addr : UDPAddr) (out : output) :
  0 <= slen msg <= cap msg ->
  hackDns To4 msg host target addr = Ok out ->
  exists resp, out = ToClient resp addr /\ take 2 resp = take 2 (backing msg).
Proof.
  intros Hs. unfold hackDns. cbv zeta.
  destruct (store msg 2 x81) as [m1|f] eqn:E1; [|discriminate].
  apply store_Ok_inv in E1 as [_ ->].
  destruct (store _ 3 x80) as [m2|f] eqn:E2; [|discriminate].
  apply store_Ok_inv in E2 as [_ ->]. cbn [backing slen].
  destruct (store _ 7 x01) as [m3|f] eqn:E3; [|discriminate].
  apply store_Ok_inv in E3 as [R7 ->]. cbn [backing slen] in *.
  set (m3 := {| backing := _; slen := slen msg |}).
  destruct (subslice m3 12 (12 + 1 + GoString.len host)) as [domain|f]; [|discriminate].
  intros [= <-]. eexists. split; [reflexivity|].
  assert (H3 : 0 <= slen m3 <= cap m3).
  { unfold m3, cap. cbn [backing slen]. rewrite !length_insert. exact Hs. }
  destruct (bytes_append m3 (bytes domain) H3) as [B1 H4].
  match goal with
  | |- take 2 (bytes (append (append _ ?A) ?I)) = _ =>
      destruct (bytes_append _ A H4) as [B2 H5];
      destruct (bytes_append _ I H5) as [B3 _]
  end.
  rewrite B3, B2, B1, <- !app_assoc.
  assert (Hlen : (2 <= length (bytes m3))%nat).
  { unfold bytes, m3. cbn [backing slen]. rewrite length_take, !length_insert.
    unfold cap in Hs. lia. }
  rewrite take_app_le by exact Hlen.
  unfold bytes, m3. cbn [backing slen]. rewrite take_take.
  replace (2 `min` Z.to_nat (slen msg))%nat with 2%nat by lia.
  change (Z.to_nat 7) with 7%nat. change (Z.to_nat 3) with 3%nat.
  change (Z.to_nat 2) with 2%nat.
  now rewrite !take_insert_ge by lia.
Qed.

Lemma readBuffer_window (data : list byte) :
  0 <= slen (readBuffer data) <= cap (readBuffer data).
Proof. rewrite readBuffer_cap, readBuffer_slen. lia. Qed.

Lemma accounted_more (server : UDPAddr) (seen : list input) (i : input)
    (dns dns' : DnsProxy) :
  accounted server seen dns ->
  reachable dns' -> same_config dns dns' ->
  (forall e, In e (entries dns') -> In e (entries dns)) ->
  accounted server (seen ++ [i]) dns'.
Proof.
  intros (_ & Ha & He) Hr (_ & Hcfg & _) Hsub. split; [exact Hr|]. split; [congruence|].
  intros e Hin. destruct (He e (Hsub e Hin)) as (now & q & Hq & Hid).
  exists now, q. split; [apply in_or_app; now left | exact Hid].
Qed.

Lemma solicited_more (server : UDPAddr) (seen more : list input) (out : output) :
  solicited server seen out -> solicited server (seen ++ more) out.
Proof.
  destruct out as [data addr|data addr]; simpl.
  - intros (now & q & Hin & Hid). exists now, q.
    split; [apply in_or_app; now left | exact Hid].
  - intros (-> & now & q & src & Hin & Hd). split; [reflexivity|].
    exists now, q, src. split; [apply in_or_app; now left | exact Hd].
Qed.

(** One datagram from a client. *)
Lemma handleUDP_accounted (To4 : string -> list byte) (server : UDPAddr)
    (seen : list input) (now : Z) (data : list byte) (addr : UDPAddr)
    (dns dns' : DnsProxy) (out : output) :
  accounted server seen dns ->
  handleUDP To4 now data addr dns = Ok (out, dns') ->
  solicited server (seen ++ [Query now data addr]) out
  /\ accounted server (seen ++ [Query now data addr]) dns'.
Proof.
  intros Hacc. pose proof Hacc as (Hr & Ha & He).
  rewrite handleUDP_after_decode.
  destruct (hostFromMsg (readBuffer data)) as [host|f]; [|discriminate].
  destruct (isReverse (reverser dns) host).
  - destruct (hackDns To4 (readBuffer data) host (dnsHack dns) addr)
      as [o|f] eqn:Eh; [|discriminate].
    intros [= <- <-].
    apply hackDns_head in Eh as (resp & -> & Hhead); [|apply readBuffer_window].
    split.
    + simpl. exists now, data. split; [apply in_or_app; right; now left|].
      rewrite (be16_take2 _ _ Hhead). apply be16_readBuffer.
    + apply (accounted_more server seen _ dns dns Hacc Hr); [|auto].
      split_and!; reflexivity.
  - destruct (addQuery_spec now {| query_sid := be16 data 0; query_addr := addr;
                                   query_host := host |} dns)
      as (h1 & HA & P & _ & _ & _ & _ & _ & _ & Hcfg).
    unfold bind. rewrite HA. unfold ret. intros [= <- <-]. split.
    + simpl. rewrite Ha. split; [reflexivity|]. exists now, data, addr.
      split; [apply in_or_app; right; now left | apply readBuffer_bytes].
    + split; [exact (reach_add dns _ _ h1 Hr HA)|]. split.
      { destruct Hcfg as (_ & Hs & _). congruence. }
      intros e Hin. apply (Permutation_in _ P) in Hin. destruct Hin as [<-|Hin].
      * exists now, data. simpl. split; [apply in_or_app; right; now left | reflexivity].
      * destruct (He e Hin) as (n & q & Hq & Hid). exists n, q.
        split; [apply in_or_app; now left | exact Hid].
Qed.

(** One datagram from the upstream server. *)
Lemma processUpstream_accounted (server : UDPAddr) (seen : list input)
    (data : list byte) (dns : DnsProxy) :
  accounted server seen dns ->
  exists out dns',
    processUpstream data dns = Ok (out, dns')
    /\ (forall o, out = Some o -> solicited server seen o)
    /\ accounted server (seen ++ [Reply data]) dns'.
Proof.
  intros Hacc. pose proof Hacc as (Hr & Ha & He).
  destruct (processUpstream_cases data dns Hr)
    as [[_ HP]|(e & dns' & Hin & Hes & HP & P & _ & Hr' & Hcfg)].
  - exists None, dns. split; [exact HP|]. split; [discriminate|].
    apply (accounted_more server seen _ dns dns Hacc Hr); [|auto].
    split_and!; reflexivity.
  - eexists _, dns'. split; [exact HP|]. split.
    + intros o [= <-]. simpl. destruct (He e Hin) as (n & q & Hq & Hid).
      exists n, q. split; [exact Hq|]. rewrite be16_take_4096. congruence.
    + apply (accounted_more server seen _ dns dns' Hacc Hr' Hcfg).
      intros e' He'. apply (Permutation_in _ (Permutation_sym P)). now right.
Qed.

(** One turn of [updateTask]. *)
Lemma updateTask_accounted (server : UDPAddr) (seen : list input)
    (now : Z) (timer : option Z) (dns : DnsProxy) :
  accounted server seen dns ->
  exists r dns',
    updateTask_wake now timer dns = Ok (r, dns')
    /\ accounted server (seen ++ [Turn now]) dns'.
Proof.
  intros Hacc. pose proof Hacc as (Hr & Ha & He).
  destruct (reachable_inv dns Hr) as [_ Ho].
  destruct (updateTask_wake_spec now timer dns Ho)
    as (ev & timer' & dns' & HW & P & _ & _ & _ & _ & _ & _ & _ & _ & Hcfg).
  exists (ev, timer'), dns'. split; [exact HW|].
  apply (accounted_more server seen _ dns dns' Hacc
           (reach_wake dns _ _ _ dns' Hr HW) Hcfg).
  intros e Hin. apply (Permutation_in _ (Permutation_sym P)).
  apply in_or_app. now right.
Qed.

Lemma serve_accounted (To4 : string -> list byte) (server : UDPAddr)
    (ins : list input) :
  forall (seen : list input) (timer : option Z) (dns : DnsProxy),
    accounted server seen dns ->
    forall k out, serve To4 ins timer dns !! k = Some (Some out) ->
                  solicited server (seen ++ take (S k) ins) out.
Proof.
  induction ins as [|i ins IH]; intros seen timer dns Hacc k out Hk;
    [discriminate|].
  assert (Hshift : forall j, seen ++ take (S (S j)) (i :: ins)
                             = (seen ++ [i]) ++ take (S j) ins)
    by (intros j; now rewrite <- app_assoc).
  destruct i as [now data addr|data|now]; cbn [serve] in Hk.
  - destruct (handleUDP To4 now data addr dns) as [[o dns']|f] eqn:EU;
      [|discriminate].
    destruct (handleUDP_accounted To4 server seen now data addr dns dns' o Hacc EU)
      as [Hsol Hacc'].
    destruct k as [|k].
    + injection Hk as <-. exact Hsol.
    + rewrite Hshift. exact (IH _ _ _ Hacc' k out Hk).
  - destruct (processUpstream_accounted server seen data dns Hacc)
      as (o & dns' & HP & Hsol & Hacc').
    rewrite HP in Hk. destruct k as [|k].
    + injection Hk as ->. apply solicited_more. now apply Hsol.
    + rewrite Hshift. exact (IH _ _ _ Hacc' k out Hk).
  - destruct (updateTask_accounted server seen now timer dns Hacc)
      as (r & dns' & HW & Hacc').
    rewrite HW in Hk. destruct k as [|k]; [discriminate|].
    rewrite Hshift. exact (IH _ _ _ Hacc' k out Hk).
Qed.

(** The proxy sends nothing it was not asked for.  From a new proxy and
    for every sequence of datagrams from clients, datagrams from the
    upstream server and turns of [updateTask], up to a panic if there
    is one: what is sent to a client goes to an address from which a
    query came before, and carries the transaction id of that query;
    what is sent upstream goes to the configured server and is a query
    that came before, as it was read. *)
Theorem serve_sends_nothing_unasked (To4 : string -> list byte)
    (ins : list input) (timer : option Z)
    (d : string) (server : UDPAddr) (r : wsServer) (k : nat) (out : output) :
  serve To4 ins timer (newDnsProxy d server r) !! k = Some (Some out) ->
  solicited server (take (S k) ins) out.
Proof.
  intros Hk.
  apply (serve_accounted To4 server ins [] timer (newDnsProxy d server r)); [|exact Hk].
  split; [apply reach_new|]. split; [reflexivity|]. intros e [].
Qed.

Lemma serve_sends_nothing_unasked_witness :
  serve sampleTo4
    [Query 0 [x00; x2a; x01; x00; x00; x01; x00; x00; x00; x00; x00; x00;
              x03; x77; x77; x77; x03; x6f; x72; x67; x00; x00; x01; x00; x01]
       clientA;
     Reply [x00; x2a; x81; x80]] None sampleProxy !! 1%nat
  = Some (Some (ToClient [x00; x2a; x81; x80] clientA))
  /\ solicited upstream
       (take 2
          [Query 0 [x00; x2a; x01; x00; x00; x01; x00; x00; x00; x00; x00; x00;
                    x03; x77; x77; x77; x03; x6f; x72; x67; x00; x00; x01; x00; x01]
             clientA;
           Reply [x00; x2a; x81; x80]])
       (ToClient [x00; x2a; x81; x80] clientA).
Proof.
  assert (H : serve sampleTo4
    [Query 0 [x00; x2a; x01; x00; x00; x01; x00; x00; x00; x00; x00; x00;
              x03; x77; x77; x77; x03; x6f; x72; x67; x00; x00; x01; x00; x01]
       clientA;
     Reply [x00; x2a; x81; x80]] None sampleProxy !! 1%nat
  = Some (Some (ToClient [x00; x2a; x81; x80] clientA))) by (vm_compute; reflexivity).
  split; [exact H|].
  exact (serve_sends_nothing_unasked sampleTo4 _ None "10.0.0.2" upstream
           (parseDNS ["*.example.com"%string] newServer) 1
           (ToClient [x00; x2a; x81; x80] clientA) H).
Defined.

End Unsolicited.

(** ** From the hosts file to the wire *)

Section ListedNames.
Import Dns Inv Wire.

(** A query with one question, for a name of labels of 1 to 127 bytes,
    to a proxy whose table was loaded from the lines of a hosts file.
    When the name is listed (it is a line, or it is [d] or ends in
    [.d] for a line [*.d] with [d] of at least two labels) the proxy
    answers the client itself, with the hijack response, and leaves the
    ledger as it was.  When the name is not listed the proxy sends the
    query to the upstream server as it came and registers it. *)
Theorem handleUDP_hijacks_exactly_listed_names (To4 : string -> list byte)
    (lines : list string) (now : Z) (hdr : list byte)
    (labels : list (list byte)) (tail : list byte) (addr : UDPAddr)
    (dns : DnsProxy) :
  reverser dns = parseDNS lines newServer ->
  length hdr = 12%nat -> hdr !! 5%nat = Some x01 -> labelsOk labels ->
  (length (hdr ++ encodeName labels ++ tail) <= 4096)%nat ->
  (listed lines (stripDot (dottedName labels)) ->
   handleUDP To4 now (hdr ++ encodeName labels ++ tail) addr dns
   = Ok (ToClient (hijackResponse (hdr ++ encodeName labels ++ tail)
                     (dottedName labels) (To4 (dnsHack dns))) addr, dns))
  /\ (~ listed lines (stripDot (dottedName labels)) ->
      exists dns',
        handleUDP To4 now (hdr ++ encodeName labels ++ tail) addr dns
        = Ok (ToUpstream (hdr ++ encodeName labels ++ tail) (serverAddr dns), dns')
        /\ entries dns' ≡ₚ
             queryEntry now {| query_sid := be16 (hdr ++ encodeName labels ++ tail) 0;
                               query_addr := addr;
                               query_host := dottedName labels |} :: entries dns).
Proof.
  intros Hrev Hhdr H5 Hok Hfit.
  set (data := hdr ++ encodeName labels ++ tail) in *.
  assert (H5' : data !! 5%nat = Some x01)
    by (unfold data; rewrite lookup_app_l by lia; exact H5).
  assert (Hdrop : drop 12 data = encodeName labels ++ tail)
    by (unfold data; rewrite <- Hhdr; apply drop_app_length).
  assert (Hhost : hostFromMsg (readBuffer data) = Ok (dottedName labels))
    by (apply (hostFromMsg_Ok_iff data _ Hfit H5'); eauto).
  split.
  - intros Hl. apply isReverse_listed_iff in Hl. rewrite <- Hrev in Hl.
    rewrite handleUDP_after_decode, Hhost, Hl.
    rewrite (hackDns_spec To4 data _ (dnsHack dns) addr Hfit); [reflexivity|].
    pose proof (encodeName_length labels) as HL.
    unfold data. rewrite !length_app. unfold GoString.len in *. lia.
  - intros Hn.
    assert (Hno : isReverse (reverser dns) (dottedName labels) = false).
    { rewrite Hrev. destruct (isReverse _ _) eqn:E; [|reflexivity].
      apply isReverse_listed_iff in E. contradiction. }
    destruct (handleUDP_forwards To4 now data addr dns _ Hfit Hhost Hno)
      as (dns' & HU & HA).
    exists dns'. split; [exact HU|].
    destruct (addQuery_spec now {| query_sid := be16 data 0; query_addr := addr;
                                   query_host := dottedName labels |} dns)
      as (dns1 & HA' & P & _).
    rewrite HA in HA'. injection HA' as <-. exact P.
Qed.

Lemma handleUDP_hijacks_exactly_listed_names_witness :
  handleUDP sampleTo4 0
    ([x12; x34; x01; x00; x00; x01; x00; x00; x00; x00; x00; x00]
     ++ encodeName [[x61]; [x65; x78; x61; x6d; x70; x6c; x65]; [x63; x6f; x6d]]
     ++ [x00; x01; x00; x01]) clientA sampleProxy
  = Ok (ToClient
          (hijackResponse
             ([x12; x34; x01; x00; x00; x01; x00; x00; x00; x00; x00; x00]
              ++ encodeName [[x61]; [x65; x78; x61; x6d; x70; x6c; x65];
                             [x63; x6f; x6d]]
              ++ [x00; x01; x00; x01])
             (dottedName [[x61]; [x65; x78; x61; x6d; x70; x6c; x65];
                          [x63; x6f; x6d]])
             (sampleTo4 (dnsHack sampleProxy))) clientA, sampleProxy).
Proof.
  destruct (handleUDP_hijacks_exactly_listed_names sampleTo4
              ["*.example.com"%string] 0
              [x12; x34; x01; x00; x00; x01; x00; x00; x00; x00; x00; x00]
              [[x61]; [x65; x78; x61; x6d; x70; x6c; x65]; [x63; x6f; x6d]]
              [x00; x01; x00; x01] clientA sampleProxy) as [H _].
  - reflexivity.
  - reflexivity.
  - reflexivity.
  - repeat constructor; simpl; lia.
  - simpl. lia.
  - apply H. right. exists "example.com"%string.
    split; [left; reflexivity|]. split; [simpl; lia|].
    right. exists "a"%string. vm_compute. reflexivity.
Defined.

End ListedNames.
